(** * A local version-control engine: staging, commits, branches, diff, merge

    Shallow embedding of the Python sources under [src/core] and the
    properties of the versioning model that hold (or fail) on them.

    Conventions.
    - A Python [str] or [bytes] value is a Rocq [string] holding its UTF-8
      bytes, so [str.encode()] is the identity.
    - The file system is a finite map from normalised absolute paths to
      nodes; every operation threads it explicitly and either returns or
      raises, handing back the file system reached at that point.
    - Calls whose result the program cannot fix by itself (the clock, the
      uuid generator, inode times) are arguments or section variables. *)

From Stdlib Require Import ZArith Ascii.
From stdpp Require Import gmap strings list fin_maps pretty.

(** ** SHA-256 ([hashlib.sha256], FIPS 180-4) *)

Module Sha256.
Local Open Scope Z_scope.

Definition w32 (x : Z) : Z := Z.land x 0xffffffff.
Definition add32 (x y : Z) : Z := w32 (x + y).
Definition rotr (n x : Z) : Z :=
  w32 (Z.lor (Z.shiftr x n) (Z.shiftl x (32 - n))).

Definition Ch (x y z : Z) : Z := Z.lxor (Z.land x y) (Z.land (Z.lnot x) z).
Definition Maj (x y z : Z) : Z :=
  Z.lxor (Z.lxor (Z.land x y) (Z.land x z)) (Z.land y z).
Definition bsig0 (x : Z) : Z := Z.lxor (Z.lxor (rotr 2 x) (rotr 13 x)) (rotr 22 x).
Definition bsig1 (x : Z) : Z := Z.lxor (Z.lxor (rotr 6 x) (rotr 11 x)) (rotr 25 x).
Definition ssig0 (x : Z) : Z := Z.lxor (Z.lxor (rotr 7 x) (rotr 18 x)) (Z.shiftr x 3).
Definition ssig1 (x : Z) : Z := Z.lxor (Z.lxor (rotr 17 x) (rotr 19 x)) (Z.shiftr x 10).

(** The round constants are the first 32 bits of the fractional parts of
    the cube roots of the first 64 primes, the initial state those of the
    square roots of the first 8: both are computed here from that
    definition. *)
Fixpoint primes_from (fuel : nat) (k : Z) (found : list Z) (want : nat) : list Z :=
  match fuel, want with
  | S fuel', S want' =>
      if forallb (fun p => negb (k mod p =? 0)) found
      then primes_from fuel' (k + 1) (found ++ [k]) want'
      else primes_from fuel' (k + 1) found want
  | _, _ => found
  end.

Definition first_primes (n : nat) : list Z := primes_from 400 2 [] n.

(** The largest [r] below [2 ^ bits] with [pow r <= n], one bit at a time. *)
Fixpoint root_bits (pow : Z -> Z) (bits : nat) (n r : Z) : Z :=
  match bits with
  | O => r
  | S bits' =>
      let r' := r + 2 ^ Z.of_nat bits' in
      root_bits pow bits' n (if pow r' <=? n then r' else r)
  end.

Definition frac_bits_of_root (pow : Z -> Z) (degree : Z) (p : Z) : Z :=
  w32 (root_bits pow 40 (Z.shiftl p (32 * degree)) 0).

Definition K : list Z :=
  Eval vm_compute in
    map (frac_bits_of_root (fun x => x * x * x) 3) (first_primes 64).

Definition H0 : list Z :=
  Eval vm_compute in
    map (frac_bits_of_root (fun x => x * x) 2) (first_primes 8).

Definition bytes_of_string (s : string) : list Z :=
  map (fun c => Z.of_N (Ascii.N_of_ascii c)) (String.list_ascii_of_string s).

(** Big-endian bytes of [x], [n] of them. *)
Fixpoint be_bytes (n : nat) (x : Z) : list Z :=
  match n with
  | O => []
  | S n' => Z.land (Z.shiftr x (8 * Z.of_nat n')) 0xff :: be_bytes n' x
  end.

Definition pad (msg : list Z) : list Z :=
  let len := Z.of_nat (length msg) in
  msg ++ [0x80] ++ repeat 0 (Z.to_nat ((55 - len) mod 64)) ++ be_bytes 8 (8 * len).

Fixpoint be_words (n : nat) (bs : list Z) : list Z :=
  match n, bs with
  | S n', b0 :: b1 :: b2 :: b3 :: rest =>
      (Z.shiftl b0 24 + Z.shiftl b1 16 + Z.shiftl b2 8 + b3) :: be_words n' rest
  | _, _ => []
  end.

Definition wnth (w : list Z) (i : nat) : Z := nth i w 0.

(** The message schedule, extended one word at a time from 16 to 64. *)
Fixpoint schedule (n : nat) (w : list Z) : list Z :=
  match n with
  | O => w
  | S n' =>
      let t := length w in
      let x := add32 (add32 (ssig1 (wnth w (t - 2))) (wnth w (t - 7)))
                     (add32 (ssig0 (wnth w (t - 15))) (wnth w (t - 16))) in
      schedule n' (w ++ [x])
  end.

Record regs := Regs { ra : Z; rb : Z; rc : Z; rd : Z; re : Z; rf : Z; rg : Z; rh : Z }.

Definition round (r : regs) (kw : Z * Z) : regs :=
  let t1 := add32 (add32 (add32 (rh r) (bsig1 (re r))) (Ch (re r) (rf r) (rg r)))
                  (add32 (fst kw) (snd kw)) in
  let t2 := add32 (bsig0 (ra r)) (Maj (ra r) (rb r) (rc r)) in
  Regs (add32 t1 t2) (ra r) (rb r) (rc r) (add32 (rd r) t1) (re r) (rf r) (rg r).

Definition regs_of (h : list Z) : regs :=
  Regs (wnth h 0) (wnth h 1) (wnth h 2) (wnth h 3)
       (wnth h 4) (wnth h 5) (wnth h 6) (wnth h 7).

Definition compress (h : list Z) (block : list Z) : list Z :=
  let w := schedule 48 (be_words 16 block) in
  let r := foldl round (regs_of h) (combine K w) in
  [ add32 (wnth h 0) (ra r); add32 (wnth h 1) (rb r);
    add32 (wnth h 2) (rc r); add32 (wnth h 3) (rd r);
    add32 (wnth h 4) (re r); add32 (wnth h 5) (rf r);
    add32 (wnth h 6) (rg r); add32 (wnth h 7) (rh r) ].

Fixpoint blocks (n : nat) (h : list Z) (bs : list Z) : list Z :=
  match n with
  | O => h
  | S n' => blocks n' (compress h (take 64 bs)) (drop 64 bs)
  end.

Definition digest (msg : list Z) : list Z :=
  let p := pad msg in
  blocks (length p / 64)%nat H0 p.

Definition hex_digit (x : Z) : Ascii.ascii :=
  if x <? 10 then Ascii.ascii_of_N (Z.to_N (48 + x))
  else Ascii.ascii_of_N (Z.to_N (87 + x)).

Fixpoint hex_of (n : nat) (x : Z) : string :=
  match n with
  | O => EmptyString
  | S n' => String (hex_digit (Z.land (Z.shiftr x (4 * Z.of_nat n')) 0xf)) (hex_of n' x)
  end.

(** [hashlib.sha256(s).hexdigest()] *)
Definition hexdigest (s : string) : string :=
  foldr (fun w acc => String.append (hex_of 8 w) acc) EmptyString
        (digest (bytes_of_string s)).

End Sha256.

(** ** Path strings ([os.path] on POSIX) *)

Module Path.
Local Open Scope string_scope.

Definition slash : Ascii.ascii := "/"%char.

(** [s.split('/')]: never empty, [split "" = [""]]. *)
Fixpoint split (s : string) : list string :=
  match s with
  | EmptyString => [EmptyString]
  | String c s' =>
      if Ascii.eqb c slash then EmptyString :: split s'
      else match split s' with
           | h :: t => String c h :: t
           | [] => [String c EmptyString]
           end
  end.

(** ['/'.join(l)] *)
Fixpoint unsplit (l : list string) : string :=
  match l with
  | [] => ""
  | [x] => x
  | x :: l' => x +:+ "/" +:+ unsplit l'
  end.

(** [s.startswith(pre)] *)
Fixpoint startswith (s pre : string) {struct pre} : bool :=
  match pre, s with
  | EmptyString, _ => true
  | String a pre', String b s' => Ascii.eqb a b && startswith s' pre'
  | String _ _, EmptyString => false
  end.

Fixpoint last_char (s : string) : option Ascii.ascii :=
  match s with
  | EmptyString => None
  | String c EmptyString => Some c
  | String _ s' => last_char s'
  end.

Definition endswith_slash (s : string) : bool :=
  match last_char s with
  | Some c => Ascii.eqb c slash
  | None => false
  end.

Definition is_abs (s : string) : bool := startswith s "/".

(** [os.path.join(a, b)] *)
Definition join (a b : string) : string :=
  if is_abs b then b
  else if String.eqb a "" || endswith_slash a then a +:+ b
  else a +:+ "/" +:+ b.

Definition nonempty (s : string) : bool := negb (String.eqb s "").

(** The names a path string walks through: empty components dropped, and a
    trailing slash read as a final ["."] (POSIX: ["a/"] is ["a/."]). *)
Definition components (s : string) : list string :=
  (List.filter nonempty (split s) ++ (if endswith_slash s then ["."] else []))%list.


Definition slash_free (s : string) : bool :=
  forallb (fun c => negb (Ascii.eqb c slash)) (String.list_ascii_of_string s).

(** A directory entry name: not empty, not ["."] or [".."], no slash. *)
Definition plain_name (s : string) : bool :=
  nonempty s && negb (String.eqb s ".") && negb (String.eqb s "..") && slash_free s.

(** [s.rstrip('/')] *)
Definition rstrip_slash (s : string) : string :=
  let fix go (l : list string) : list string :=
    match l with
    | [] => []
    | x :: l' => match go l' with
                 | [] => if String.eqb x "" then [] else [x]
                 | r => x :: r
                 end
    end in
  unsplit (go (split s)).

(** The directory entries a path string names, in order. *)
Definition names (s : string) : list string := List.filter nonempty (split s).

(** [posixpath.split]: head is everything up to the last slash, with the
    trailing slashes stripped unless it is all slashes. *)
Definition basename (s : string) : string := List.last (split s) "".

Definition dirname (s : string) : string :=
  let parts := split s in
  match removelast parts with
  | [] => ""
  | hd =>
      let head := unsplit hd +:+ "/" in
      if forallb (fun x => String.eqb x "") hd then head
      else rstrip_slash head
  end.

(** [posixpath.normpath] on the component list: [abs] tells whether the
    path has initial slashes. *)
Fixpoint norm_comps (abs : bool) (acc : list string) (cs : list string) : list string :=
  match cs with
  | [] => rev acc
  | c :: cs' =>
      if String.eqb c "" || String.eqb c "." then norm_comps abs acc cs'
      else if negb (String.eqb c "..") then norm_comps abs (c :: acc) cs'
      else match acc with
           | [] => if abs then norm_comps abs acc cs' else norm_comps abs (c :: acc) cs'
           | top :: acc' =>
               if String.eqb top ".." then norm_comps abs (c :: acc) cs'
               else norm_comps abs acc' cs'
           end
  end.

Definition normpath (s : string) : string :=
  if String.eqb s "" then "."
  else
    let two := startswith s "//" && negb (startswith s "///") in
    let body := unsplit (norm_comps (is_abs s) [] (split s)) in
    let r := if is_abs s then (if two then "//" else "/") +:+ body else body in
    if String.eqb r "" then "." else r.

(** [os.path.abspath], the process working directory being [cwd]. *)
Definition abspath (cwd : string) (s : string) : string := normpath (join cwd s).

Fixpoint common_prefix_len (a b : list string) : nat :=
  match a, b with
  | x :: a', y :: b' => if String.eqb x y then S (common_prefix_len a' b') else O
  | _, _ => O
  end.

(** [os.path.relpath(p, start)]; [None] stands for its [ValueError] on an
    empty path. *)
Definition relpath (cwd : string) (p start : string) : option string :=
  if String.eqb p "" then None
  else
    let start_list := List.filter nonempty (split (abspath cwd start)) in
    let path_list := List.filter nonempty (split (abspath cwd p)) in
    let i := common_prefix_len start_list path_list in
    let rel_list := (repeat ".." (length start_list - i) ++ drop i path_list)%list in
    match rel_list with
    | [] => Some "."
    | _ => Some (foldl join "" rel_list)
    end.

(** The white space of [str.isspace] within ASCII: the space, tab to
    carriage return, and the four separators U+001C to U+001F. *)
Definition is_space (c : Ascii.ascii) : bool :=
  let n := Ascii.nat_of_ascii c in
  (Nat.eqb n 32) || ((Nat.leb 9 n) && (Nat.leb n 13)) || ((Nat.leb 28 n) && (Nat.leb n 31)).

(** The white space of [str.isspace] beyond ASCII, by the UTF-8 bytes a
    text holds it in: U+0085 and U+00A0 take two bytes; U+1680, U+2000 to
    U+200A, U+2028, U+2029, U+202F, U+205F and U+3000 take three. *)
Definition is_space2 (c1 c2 : Ascii.ascii) : bool :=
  let a := Ascii.nat_of_ascii c1 in
  let b := Ascii.nat_of_ascii c2 in
  Nat.eqb a 0xC2 && (Nat.eqb b 0x85 || Nat.eqb b 0xA0).

Definition is_space3 (c1 c2 c3 : Ascii.ascii) : bool :=
  let a := Ascii.nat_of_ascii c1 in
  let b := Ascii.nat_of_ascii c2 in
  let c := Ascii.nat_of_ascii c3 in
  (Nat.eqb a 0xE1 && Nat.eqb b 0x9A && Nat.eqb c 0x80)
  || (Nat.eqb a 0xE2 && Nat.eqb b 0x80
      && ((Nat.leb 0x80 c && Nat.leb c 0x8A)
          || Nat.eqb c 0xA8 || Nat.eqb c 0xA9 || Nat.eqb c 0xAF))
  || (Nat.eqb a 0xE2 && Nat.eqb b 0x81 && Nat.eqb c 0x9F)
  || (Nat.eqb a 0xE3 && Nat.eqb b 0x80 && Nat.eqb c 0x80).

(** The string without the white space characters it starts with, a
    character being one byte that [one] accepts, two bytes that [two]
    accepts or three bytes that [three] accepts. *)
Fixpoint strip_leading (one : Ascii.ascii -> bool) (two : Ascii.ascii -> Ascii.ascii -> bool)
    (three : Ascii.ascii -> Ascii.ascii -> Ascii.ascii -> bool) (s : string) : string :=
  match s with
  | String c1 s1 =>
      if one c1 then strip_leading one two three s1
      else
        match s1 with
        | String c2 s2 =>
            if two c1 c2 then strip_leading one two three s2
            else
              match s2 with
              | String c3 s3 =>
                  if three c1 c2 c3 then strip_leading one two three s3 else s
              | EmptyString => s
              end
        | EmptyString => s
        end
  | EmptyString => EmptyString
  end.

(** The shape of a string that [strip_leading] leaves as it is. *)
Definition stays (one : Ascii.ascii -> bool) (two : Ascii.ascii -> Ascii.ascii -> bool)
    (three : Ascii.ascii -> Ascii.ascii -> Ascii.ascii -> bool) (s : string) : Prop :=
  match s with
  | String c1 s1 =>
      one c1 = false
      /\ match s1 with
         | String c2 s2 =>
             two c1 c2 = false
             /\ match s2 with
                | String c3 _ => three c1 c2 c3 = false
                | EmptyString => True
                end
         | EmptyString => True
         end
  | EmptyString => True
  end.

(** [s.lstrip()] *)
Definition lstrip (s : string) : string := strip_leading is_space is_space2 is_space3 s.

Definition rev_string (s : string) : string :=
  String.string_of_list_ascii (rev (String.list_ascii_of_string s)).

(** [s.rstrip()]: read from its end, a white space character shows its
    bytes last to first. *)
Definition rstrip (s : string) : string :=
  rev_string
    (strip_leading is_space (fun c2 c1 => is_space2 c1 c2)
       (fun c3 c2 c1 => is_space3 c1 c2 c3) (rev_string s)).

(** [s.strip()] *)
Definition strip (s : string) : string := rstrip (lstrip s).

End Path.

(** ** Text files (files opened in mode ['r']) *)

Module Text.
Local Open Scope string_scope.

Definition within (lo hi : N) (b : N) : bool := (N.leb lo b && N.leb b hi)%N.
Definition cont (b : N) : bool := within 0x80 0xBF b.

(** Well-formed UTF-8: what the decoder of a text file accepts. *)
Fixpoint valid_utf8_bytes (l : list N) : bool :=
  match l with
  | [] => true
  | b0 :: r0 =>
      if N.leb b0 0x7F then valid_utf8_bytes r0
      else match r0 with
           | [] => false
           | b1 :: r1 =>
               if within 0xC2 0xDF b0 then cont b1 && valid_utf8_bytes r1
               else match r1 with
                    | [] => false
                    | b2 :: r2 =>
                        if N.eqb b0 0xE0 then within 0xA0 0xBF b1 && cont b2 && valid_utf8_bytes r2
                        else if within 0xE1 0xEC b0 || within 0xEE 0xEF b0
                             then cont b1 && cont b2 && valid_utf8_bytes r2
                        else if N.eqb b0 0xED then within 0x80 0x9F b1 && cont b2 && valid_utf8_bytes r2
                        else match r2 with
                             | [] => false
                             | b3 :: r3 =>
                                 if N.eqb b0 0xF0
                                 then within 0x90 0xBF b1 && cont b2 && cont b3 && valid_utf8_bytes r3
                                 else if within 0xF1 0xF3 b0
                                 then cont b1 && cont b2 && cont b3 && valid_utf8_bytes r3
                                 else if N.eqb b0 0xF4
                                 then within 0x80 0x8F b1 && cont b2 && cont b3 && valid_utf8_bytes r3
                                 else false
                             end
                    end
           end
  end.

Definition valid_utf8 (s : string) : bool :=
  valid_utf8_bytes (map Ascii.N_of_ascii (String.list_ascii_of_string s)).

Definition LF : Ascii.ascii := Ascii.ascii_of_nat 10.
Definition CR : Ascii.ascii := Ascii.ascii_of_nat 13.

(** Universal newlines: ["\r\n"] and ["\r"] are read as ["\n"]. *)
Fixpoint universal_newlines (s : string) : string :=
  match s with
  | EmptyString => EmptyString
  | String c s' =>
      if Ascii.eqb c CR then
        match s' with
        | String c' s'' =>
            if Ascii.eqb c' LF then String LF (universal_newlines s'')
            else String LF (universal_newlines s')
        | EmptyString => String LF EmptyString
        end
      else String c (universal_newlines s')
  end.

(** [f.readlines()]: the lines with their terminators. *)
Fixpoint readlines (s : string) : list string :=
  match s with
  | EmptyString => []
  | String c s' =>
      if Ascii.eqb c LF then String c EmptyString :: readlines s'
      else match readlines s' with
           | [] => [String c EmptyString]
           | l :: ls => String c l :: ls
           end
  end.

End Text.

(** ** Persisted documents

    Every JSON document the engine writes with [json.dump] and reads back
    with [json.load] is kept as the value itself. *)

(** One entry of [conflicts.json] ([Merge._detect_conflicts]); the fields
    come from [dict.get], so each may be [None]. *)
Record conflict := Conflict {
  c_path : option string;
  c_type : string;
  c_source_content : option string;
  c_target_content : option string
}.

(** [metadata.json] of a commit ([Commit.create_commit]). *)
Record commit_metadata := CommitMetadata {
  cm_hash : string;
  cm_message : string;
  cm_author : string;
  cm_timestamp : string;
  cm_files : list (string * string)   (* (path, hash) *)
}.

(** One entry of the staging index ([Staging._update_index]). *)
Record index_entry := IndexEntry { ie_hash : string; ie_staged_at : Z }.

(** [branches.json] ([Branch]). *)
Record branch_info := BranchInfo {
  head_commit : option string;
  created_at : option string;
  base_branch : option string
}.

Record branches_config := BranchesConfig {
  current_branch : string;
  branches : gmap string branch_info
}.

Inductive document :=
| DConflicts (cs : list conflict)
| DMetadata (md : commit_metadata)
| DIndex (ix : gmap string index_entry)
| DBranches (bc : branches_config).

#[global] Instance conflict_eq_dec : EqDecision conflict.
Proof. solve_decision. Defined.
#[global] Instance commit_metadata_eq_dec : EqDecision commit_metadata.
Proof. solve_decision. Defined.
#[global] Instance index_entry_eq_dec : EqDecision index_entry.
Proof. solve_decision. Defined.
#[global] Instance branch_info_eq_dec : EqDecision branch_info.
Proof. solve_decision. Defined.
#[global] Instance branches_config_eq_dec : EqDecision branches_config.
Proof. solve_decision. Defined.
#[global] Instance document_eq_dec : EqDecision document.
Proof. solve_decision. Defined.

(** One opcode of [difflib.SequenceMatcher]: [(tag, i1, i2, j1, j2)]. *)
Record opcode := Opcode { tag : string; i1 : nat; i2 : nat; j1 : nat; j2 : nat }.

(** What the program cannot fix by itself. [json_text] is the text
    [json.dump] produces, read only when a document is treated as plain
    bytes; [json_parse] is [json.loads] on text that [json.dump] did not
    write ([None]: it raises). [fnmatch] and [re_match] are
    [fnmatch.fnmatch(name, pat)] and [re.match(regex, s)]; [getctime] is the
    inode change time of a path, which the file system below does not keep;
    [grouped_opcodes a b] is
    [difflib.SequenceMatcher(None, a, b).get_grouped_opcodes(3)]. *)
Class Platform := {
  cwd : string;
  json_text : document -> string;
  json_parse : string -> option document;
  fnmatch : string -> string -> bool;
  re_match : string -> string -> bool;
  getctime : string -> Z;
  grouped_opcodes : list string -> list string -> list (list opcode)
}.

(** ** The file system ([os], [shutil], [open]) *)

Module Os.
Local Open Scope string_scope.

Inductive exn :=
| ValueError (msg : string)
| FileNotFoundError
| FileExistsError
| IsADirectoryError
| NotADirectoryError
| OSError (errno : string)
| SameFileError
| TypeError (msg : string)
| AttributeError (msg : string)
| IndexError
| JSONDecodeError
| UnicodeDecodeError
| MergeConflictError (msg : string).

Inductive data :=
| Raw (bytes : string)
| Doc (d : document).

Inductive node :=
| File (d : data)
| Dir.

#[global] Instance exn_eq_dec : EqDecision exn.
Proof. solve_decision. Defined.
#[global] Instance data_eq_dec : EqDecision data.
Proof. solve_decision. Defined.
#[global] Instance node_eq_dec : EqDecision node.
Proof. solve_decision. Defined.

(** A resolved location: the entry names from the root down. *)
Abbreviation path := (list string).
Abbreviation fs := (gmap (list string) node).

(** The root always is a directory. *)
Definition node_at (m : fs) (p : path) : option node :=
  match p with
  | [] => Some Dir
  | _ => m !! p
  end.

Definition is_dir_at (m : fs) (p : path) : bool :=
  match node_at m p with Some Dir => true | _ => false end.


(** Every entry name of the file system is a name a directory can hold. *)
Definition wf_fs (m : fs) : Prop :=
  map_Forall (fun (p : path) (_ : node) => Forall (fun c => Path.plain_name c = true) p) m.

(** Entry names all through, and no directory deeper than [L]. *)
Definition shallow (L : nat) (m : fs) : Prop :=
  wf_fs m /\ forall q, m !! q = Some Dir -> length q <= L.

(** [m'] differs from [m] only below [region], and keeps its directories. *)
Definition grows_in (region : path) (m m' : fs) : Prop :=
  (forall q, ~ region `prefix_of` q -> m' !! q = m !! q)
  /\ (forall q, is_dir_at m q = true -> is_dir_at m' q = true).

(** Path resolution without symbolic links: each component is looked up
    in the directory reached so far, which must exist and be a directory. *)
Fixpoint walk_to (m : fs) (cur : path) (cs : list string) : exn + path :=
  match cs with
  | [] => inr cur
  | c :: cs' =>
      match node_at m cur with
      | None => inl FileNotFoundError
      | Some (File _) => inl NotADirectoryError
      | Some Dir =>
          if String.eqb c "." then walk_to m cur cs'
          else if String.eqb c ".." then walk_to m (removelast cur) cs'
          else walk_to m (cur ++ [c])%list cs'
      end
  end.

Section WithPlatform.
Context `{Platform}.

Definition resolve (m : fs) (s : string) : exn + path :=
  if String.eqb s "" then inl FileNotFoundError
  else walk_to m [] (Path.components (Path.join cwd s)).

(** Where a directory string leads: like [resolve], the empty string
    standing for the working directory. *)
Definition locate (m : fs) (a : string) : exn + path :=
  walk_to m [] (Path.names (Path.join cwd a)).

(** Where a path string resolves, if it does. *)
Definition resolve_opt (m : fs) (s : string) : option path :=
  match resolve m s with inr p => Some p | inl _ => None end.

(** [os.stat] *)
Definition stat (m : fs) (s : string) : exn + path * node :=
  match resolve m s with
  | inl e => inl e
  | inr p => match node_at m p with
             | None => inl FileNotFoundError
             | Some n => inr (p, n)
             end
  end.

(** [os.path.exists], [os.path.isdir] *)
Definition exists_ (m : fs) (s : string) : bool :=
  match stat m s with inr _ => true | inl _ => false end.

Definition isdir (m : fs) (s : string) : bool :=
  match stat m s with inr (_, Dir) => true | _ => false end.

(** *** Operations: a result or an exception, with the file system reached *)

Inductive outcome (A : Type) : Type :=
| Ret (a : A) (m : fs)
| Raise (e : exn) (m : fs).
Global Arguments Ret {A} a m.
Global Arguments Raise {A} e m.

Definition io (A : Type) : Type := fs -> outcome A.

Definition ret {A} (a : A) : io A := fun m => Ret a m.
Definition raise {A} (e : exn) : io A := fun m => Raise e m.
Definition bind {A B} (c : io A) (k : A -> io B) : io B :=
  fun m => match c m with
           | Ret a m' => k a m'
           | Raise e m' => Raise e m'
           end.
Definition get_fs : io fs := fun m => Ret m m.
Definition put_fs (m' : fs) : io unit := fun _ => Ret tt m'.

(** [try: c  except <handles>: h] *)
Definition try_except {A} (c : io A) (handles : exn -> bool) (h : io A) : io A :=
  fun m => match c m with
           | Ret a m' => Ret a m'
           | Raise e m' => if handles e then h m' else Raise e m'
           end.

Definition final_fs {A} (o : outcome A) : fs :=
  match o with Ret _ m => m | Raise _ m => m end.

Definition value {A} (o : outcome A) : option A :=
  match o with Ret a _ => Some a | Raise _ _ => None end.

Definition raised {A} (o : outcome A) : option exn :=
  match o with Ret _ _ => None | Raise e _ => Some e end.

#[global] Instance outcome_eq_dec {A} `{EqDecision A} : EqDecision (outcome A).
Proof. solve_decision. Defined.

Definition lift {A} (r : exn + A) : io A :=
  fun m => match r with inl e => Raise e m | inr a => Ret a m end.

(** [for x in l: body x], stopping at the first exception. *)
Fixpoint for_each {A} (l : list A) (body : A -> io unit) : io unit :=
  match l with
  | [] => ret tt
  | x :: l' => bind (body x) (fun _ => for_each l' body)
  end.

(** The bytes of a file opened in binary mode. *)
Definition bytes_of (d : data) : string :=
  match d with Raw b => b | Doc j => json_text j end.

(** [open(s).read()] *)
Definition read_data (s : string) : io data :=
  fun m => match stat m s with
           | inl e => Raise e m
           | inr (_, Dir) => Raise IsADirectoryError m
           | inr (_, File d) => Ret d m
           end.

(** [open(s, 'w')] followed by the write: creates or replaces the file. *)
Definition write_data (s : string) (d : data) : io unit :=
  fun m => match resolve m s with
           | inl e => Raise e m
           | inr p => match node_at m p with
                      | Some Dir => Raise IsADirectoryError m
                      | _ => Ret tt (<[p := File d]> m)
                      end
           end.

(** [open(s, 'r').read()]: decoded text, newlines translated. *)
Definition read_text (s : string) : io string :=
  bind (read_data s) (fun d =>
    if Text.valid_utf8 (bytes_of d) then ret (Text.universal_newlines (bytes_of d))
    else raise UnicodeDecodeError).

(** [json.load(open(s))] and [json.dump(j, open(s, 'w'))] *)
Definition json_load (s : string) : io document :=
  bind (read_data s) (fun d =>
    match d with
    | Doc j => ret j
    | Raw b => match json_parse b with
               | Some j => ret j
               | None => raise JSONDecodeError
               end
    end).

Definition json_dump (j : document) (s : string) : io unit := write_data s (Doc j).

(** [os.remove], [os.unlink] *)
Definition remove (s : string) : io unit :=
  fun m => match stat m s with
           | inl e => Raise e m
           | inr (_, Dir) => Raise IsADirectoryError m
           | inr (p, File _) => Ret tt (delete p m)
           end.

(** The entries of the directory at [p]. *)
Definition children (m : fs) (p : path) : list (string * node) :=
  omap (fun '(q, n) =>
          match last q with
          | Some c => if decide (q = p ++ [c])%list then Some (c, n) else None
          | None => None
          end) (map_to_list m).

(** [os.rmdir] *)
Definition rmdir (s : string) : io unit :=
  fun m => match stat m s with
           | inl e => Raise e m
           | inr (_, File _) => Raise NotADirectoryError m
           | inr ([], Dir) => Raise (OSError "EBUSY") m
           | inr (p, Dir) =>
               match children m p with
               | [] => Ret tt (delete p m)
               | _ => Raise (OSError "ENOTEMPTY") m
               end
           end.

(** The ancestors [os.makedirs] creates on its way down. *)
Fixpoint make_parents (cur : path) (cs : list string) : io path :=
  match cs with
  | [] => ret cur
  | c :: cs' =>
      fun m =>
        match node_at m cur with
        | None => Raise FileNotFoundError m
        | Some (File _) => Raise NotADirectoryError m
        | Some Dir =>
            if String.eqb c "." then make_parents cur cs' m
            else if String.eqb c ".." then make_parents (removelast cur) cs' m
            else
              let nxt := (cur ++ [c])%list in
              match node_at m nxt with
              | None => make_parents nxt cs' (<[nxt := Dir]> m)
              | Some _ => make_parents nxt cs' m
              end
        end
  end.

(** [os.makedirs(s, exist_ok=...)]: the missing ancestors, then [mkdir] of
    the last name. *)
Definition makedirs (s : string) (exist_ok : bool) : io unit :=
  fun m =>
    let cs := Path.names (Path.join cwd s) in
    if String.eqb s "" then Raise FileNotFoundError m
    else
      match make_parents [] (removelast cs) m with
      | Raise e m' => Raise e m'
      | Ret cur m1 =>
          match node_at m1 cur with
          | None => Raise FileNotFoundError m1
          | Some (File _) => Raise NotADirectoryError m1
          | Some Dir =>
              let target :=
                match last cs with
                | None => cur
                | Some c => if String.eqb c "." then cur
                            else if String.eqb c ".." then removelast cur
                            else (cur ++ [c])%list
                end in
              match node_at m1 target with
              | None => Ret tt (<[target := Dir]> m1)
              | Some Dir => if exist_ok then Ret tt m1 else Raise FileExistsError m1
              | Some (File _) => Raise FileExistsError m1
              end
          end
      end.

(** [os.path.samefile], [False] when either path cannot be stat'ed. *)
Definition same_file (m : fs) (a b : string) : bool :=
  match stat m a, stat m b with
  | inr (p, _), inr (q, _) => bool_decide (p = q)
  | _, _ => false
  end.

(** [shutil.copy2] (the timestamps it copies are not kept here). *)
Definition copy2 (src dst : string) : io unit :=
  fun m =>
    let dst' := if isdir m dst then Path.join dst (Path.basename src) else dst in
    if same_file m src dst' then Raise SameFileError m
    else bind (read_data src) (fun d => write_data dst' d) m.

(** What [os.walk] sorts the entries of the directory at [p] into: the
    names of its files and the names of its directories. The order in
    which a directory is listed is the operating system's; here it is the
    order of the map. *)
Definition listed_files (m : fs) (p : path) : list string :=
  omap (fun '(c, n) => match n with File _ => Some c | Dir => None end) (children m p).

Definition listed_dirs (m : fs) (p : path) : list string :=
  omap (fun '(c, n) => match n with Dir => Some c | File _ => None end) (children m p).

(** How deep the deepest directory lies. *)
Definition deepest (m : fs) : nat :=
  foldr (fun '(q, n) d => match n with Dir => Nat.max (length q) d | File _ => d end)
        0 (map_to_list m).

(** The files [os.walk] yields from the directory at [p] on a file system
    that the loop body leaves as it is, top-down: the files of [p], then
    what it yields from each directory listed in [p], in turn; [depth]
    directories deep. *)
Fixpoint walk_down (depth : nat) (m : fs) (p : path) : list path :=
  match depth with
  | O => []
  | S n =>
      (map (fun c => p ++ [c]) (listed_files m p)
       ++ concat (map (fun c => walk_down n m (p ++ [c])) (listed_dirs m p)))%list
  end.

(** The files [os.walk(top)] yields, as resolved locations; every file
    lies in a directory, none deeper than the deepest one. *)
Definition walk_files (m : fs) (top : path) : list path :=
  walk_down (S (deepest m)) m top.

(** [for root, _, files in os.walk(top): for file in files: body(os.path.join(root, file))].
    [os.walk] is a generator: it lists a directory when the loop reaches
    it, on the file system as the body has left it by then, and passes
    over a directory it cannot list; [depth] directories deep. *)
Fixpoint walk_each (depth : nat) (root : string) (body : string -> io unit) : io unit :=
  match depth with
  | O => ret tt
  | S n =>
      fun m =>
        match stat m root with
        | inr (p, Dir) =>
            bind (for_each (listed_files m p) (fun file => body (Path.join root file)))
                 (fun _ => for_each (listed_dirs m p)
                             (fun dir => walk_each n (Path.join root dir) body)) m
        | _ => Ret tt m
        end
  end.

(** [os.path.join(root, file)] for an entry that [os.walk(top_s)] reached
    at [q] below [top]. *)
Definition walked_name (top_s : string) (top q : path) : string :=
  foldl Path.join top_s (drop (length top) q).

End WithPlatform.

Module Notations.
Notation "'let*' x ':=' c 'in' k" := (bind c (fun x => k))
  (at level 10, x binder, c at level 100, k at level 200).
Notation "c ';;' k" := (bind c (fun _ => k))
  (at level 100, k at level 200, right associativity).
End Notations.

End Os.

(** ** [core/commit.py]: class [Commit] *)

Module Commit.
Import Os Os.Notations.
Local Open Scope string_scope.

Section WithPlatform.
Context `{Platform}.

(** [self.repo_path] is the constructor's argument, as given. *)
Variable repo_path : string.

Definition dot_dir : string := Path.join repo_path ".source-control".
Definition staging_dir : string := Path.join dot_dir "staging".
Definition commits_dir : string := Path.join dot_dir "commits".

(** [Commit.__init__] *)
Definition init : io unit :=
  makedirs staging_dir true ;; makedirs commits_dir true.

(** [Commit._calculate_file_hash] *)
Definition calculate_file_hash (file_path : string) : io string :=
  let* d := read_data file_path in
  ret (Sha256.hexdigest (bytes_of d)).

(** [Commit.stage_file] *)
Definition stage_file (file_path : string) : io unit :=
  let abs_file_path := Path.abspath cwd file_path in
  if negb (Path.startswith abs_file_path (Path.abspath cwd repo_path)) then
    raise (ValueError "Cannot stage files outside the repository")
  else
    let* m := get_fs in
    if negb (exists_ m abs_file_path) then
      raise (ValueError ("File does not exist: " +:+ file_path))
    else
      match Path.relpath cwd abs_file_path repo_path with
      | None => raise (ValueError "no path specified")
      | Some rel_path =>
          let staged_path := Path.join staging_dir rel_path in
          makedirs (Path.dirname staged_path) true ;;
          copy2 abs_file_path staged_path
      end.

(** [Commit.get_staged_files]: [os.walk(self.staging_dir)] yields nothing
    when the top is not a directory. *)
Definition get_staged_files : io (list string) :=
  let* m := get_fs in
  match stat m staging_dir with
  | inr (top, Dir) =>
      match mapM (fun q => Path.relpath cwd (walked_name staging_dir top q) staging_dir)
                 (walk_files m top) with
      | Some staged_files => ret staged_files
      | None => raise (ValueError "no path specified")
      end
  | _ => ret []
  end.

(** [Commit._clear_staging_area]. [os.walk] is top-down: its first step
    lists the staging directory, and the body unlinks the files and
    [rmdir]s the directories listed there. A directory that still has
    entries makes [os.rmdir] raise; when none does, every listed directory
    is gone by the time [os.walk] tries to descend into it, the failed
    listing is ignored, and the loop ends. *)
Definition clear_staging_area : io unit :=
  let* m := get_fs in
  match stat m staging_dir with
  | inr (top, Dir) =>
      let entries := children m top in
      let files := omap (fun '(c, n) => match n with File _ => Some c | Dir => None end) entries in
      let dirs := omap (fun '(c, n) => match n with Dir => Some c | File _ => None end) entries in
      for_each files (fun file => remove (Path.join staging_dir file)) ;;
      for_each dirs (fun dir => rmdir (Path.join staging_dir dir))
  | _ => ret tt
  end.

(** The loop of [create_commit] over the staged files. *)
Fixpoint commit_files (commit_dir : string) (staged_files : list string)
    (files_metadata : list (string * string)) : io (list (string * string)) :=
  match staged_files with
  | [] => ret files_metadata
  | staged_file :: rest =>
      let src_path := Path.join staging_dir staged_file in
      let dest_path := Path.join commit_dir staged_file in
      makedirs (Path.dirname dest_path) true ;;
      copy2 src_path dest_path ;;
      let* file_hash := calculate_file_hash src_path in
      commit_files commit_dir rest (files_metadata ++ [(staged_file, file_hash)])%list
  end.

(** [hashlib.sha256(f"{message}{author}{now}".encode()).hexdigest()[:8]] *)
Definition commit_hash_of (message author now : string) : string :=
  String.substring 0 8 (Sha256.hexdigest (message +:+ author +:+ now)).

(** [Commit.create_commit]. [now_hash] and [now_meta] are the two readings
    of [datetime.now().isoformat()], the first inside the hashed string and
    the second in the metadata. *)
Definition create_commit (message author : string) (now_hash now_meta : string)
    : io commit_metadata :=
  let* staged_files := get_staged_files in
  match staged_files with
  | [] => raise (ValueError "No files staged for commit")
  | _ =>
      let commit_hash := commit_hash_of message author now_hash in
      let commit_dir := Path.join commits_dir commit_hash in
      makedirs commit_dir false ;;
      let* files_metadata := commit_files commit_dir staged_files [] in
      let commit_metadata :=
        CommitMetadata commit_hash message author now_meta files_metadata in
      json_dump (DMetadata commit_metadata) (Path.join commit_dir "metadata.json") ;;
      clear_staging_area ;;
      ret commit_metadata
  end.

(** Everything [create_commit] does before it clears the staging area:
    the commit directory, the copies of the staged files, the metadata. *)
Definition write_commit (message author : string) (now_hash now_meta : string)
    : io commit_metadata :=
  let* staged_files := get_staged_files in
  match staged_files with
  | [] => raise (ValueError "No files staged for commit")
  | _ =>
      let commit_hash := commit_hash_of message author now_hash in
      let commit_dir := Path.join commits_dir commit_hash in
      makedirs commit_dir false ;;
      let* files_metadata := commit_files commit_dir staged_files [] in
      let commit_metadata :=
        CommitMetadata commit_hash message author now_meta files_metadata in
      json_dump (DMetadata commit_metadata) (Path.join commit_dir "metadata.json") ;;
      ret commit_metadata
  end.

(** [Commit.get_commit_details] *)
Definition get_commit_details (commit_hash : string) : io (option document) :=
  let commit_path := Path.join commits_dir commit_hash in
  let metadata_path := Path.join commit_path "metadata.json" in
  let* m := get_fs in
  if negb (exists_ m metadata_path) then ret None
  else let* j := json_load metadata_path in ret (Some j).

End WithPlatform.
End Commit.

(** ** [core/repository.py]: class [Repository] *)

Module Repository.
Import Os Os.Notations.
Local Open Scope string_scope.

Definition CORE_DIR := ".core".
Definition HEAD_FILE := "HEAD".
Definition BRANCHES_DIR := "branches".
Definition OBJECTS_DIR := "objects".

Section WithPlatform.
Context `{Platform}.

(** A [Repository] object: [self.path], made absolute by [__init__]. *)
Record t := Make { path : string }.

Definition new (p : string) : t := Make (Path.abspath cwd p).

Definition core_path (r : t) : string := Path.join (path r) CORE_DIR.

(** [os.path.join(self.core_path, self.OBJECTS_DIR)] *)
Definition objects_dir (r : t) : string := Path.join (core_path r) OBJECTS_DIR.

(** [Repository.get_current_branch] *)
Definition get_current_branch (r : t) : io string :=
  let head_path := Path.join (core_path r) HEAD_FILE in
  let* branch_ref := read_text head_path in
  ret (Path.basename (Path.strip branch_ref)).

(** [Repository.set_current_branch] *)
Definition set_current_branch (r : t) (branch_name : string) : io unit :=
  let head_path := Path.join (core_path r) HEAD_FILE in
  write_data head_path (Raw ("refs/branches/" +:+ branch_name)).




End WithPlatform.
End Repository.

(** ** [core/ignore.py]: class [IgnoreManager] *)

Module Ignore.
Import Os Os.Notations.
Local Open Scope string_scope.

Definition IGNORE_FILE := ".dscsignore".

Section WithPlatform.
Context `{Platform}.

Variable repository : Repository.t.

Definition ignore_file_path : string := Path.join (Repository.path repository) IGNORE_FILE.

Definition startswith_hash (line : string) : bool := Path.startswith line "#".

(** [IgnoreManager._load_ignore_patterns]: the value of
    [self.ignore_patterns] after [__init__]. *)
Definition load_ignore_patterns : io (list string) :=
  let* m := get_fs in
  if exists_ m ignore_file_path then
    let* text := read_text ignore_file_path in
    ret (map Path.strip
           (List.filter (fun line => Path.nonempty (Path.strip line) && negb (startswith_hash line))
                        (Text.readlines text)))
  else ret [].

Definition re_special (c : Ascii.ascii) : bool :=
  existsb (Ascii.eqb c)
    (String.list_ascii_of_string "()[]{}?*+-|^$\.&~# " ++ map Ascii.ascii_of_nat [9; 10; 11; 12; 13])%list.

(** [IgnoreManager._glob_to_regex]: [re.escape], then the escaped [*] and
    [?] replaced; done here one character at a time. *)
Definition glob_to_regex (pattern : string) : string :=
  let body :=
    foldr (fun c acc =>
             if Ascii.eqb c "*"%char then ".*" +:+ acc
             else if Ascii.eqb c "?"%char then "." +:+ acc
             else if re_special c then String "\"%char (String c acc)
             else String c acc)
          "" (String.list_ascii_of_string pattern) in
  "^" +:+ body +:+ "$".

(** The loop of [should_ignore] over [self.ignore_patterns]. *)
Fixpoint matches_any (rel_path : string) (patterns : list string) : bool :=
  match patterns with
  | [] => false
  | pattern :: rest =>
      if Path.endswith_slash pattern && fnmatch (rel_path +:+ "/") pattern then true
      else if fnmatch rel_path pattern then true
      else if re_match (glob_to_regex pattern) rel_path then true
      else matches_any rel_path rest
  end.

(** [IgnoreManager.should_ignore] *)
Definition should_ignore (ignore_patterns : list string) (p : string) : exn + bool :=
  match Path.relpath cwd p (Repository.path repository) with
  | None => inl (ValueError "no path specified")
  | Some rel_path => inr (matches_any rel_path ignore_patterns)
  end.

End WithPlatform.
End Ignore.

(** ** [core/staging.py]: class [Staging] *)

Module Staging.
Import Os Os.Notations.
Local Open Scope string_scope.

Definition STAGING_DIR := "staged".
Definition INDEX_FILE := "index".

Section WithPlatform.
Context `{Platform}.

(** [repository.DSCS_DIR]: the class [Repository] does not define this
    attribute, and [Staging(Repository(p))] raises [AttributeError] in
    [__init__]. What follows is the class on a repository object that
    carries the attribute, with this value. *)
Variable DSCS_DIR : string.
Variable repository : Repository.t.

Definition dscs_path : string := Path.join (Repository.path repository) DSCS_DIR.
Definition staging_path : string := Path.join dscs_path STAGING_DIR.
Definition index_path : string := Path.join dscs_path INDEX_FILE.

(** [Staging.__init__]: returns [self.ignore_manager.ignore_patterns]. *)
Definition init : io (list string) :=
  makedirs staging_path true ;;
  Ignore.load_ignore_patterns repository.

(** The patterns the ignore manager of this [Staging] object holds. *)
Variable ignore_patterns : list string.

(** [Staging._calculate_file_hash] *)
Definition calculate_file_hash (filepath : string) : io string :=
  let* d := read_data filepath in
  ret (Sha256.hexdigest (bytes_of d)).

(** [Staging._read_index] *)
Definition read_index : io document :=
  try_except (json_load index_path)
    (fun e => match e with FileNotFoundError => true | _ => false end)
    (ret (DIndex ∅)).

(** A loaded index used as a [dict] of entries. *)
Definition as_index (j : document) : io (gmap string index_entry) :=
  match j with
  | DIndex ix => ret ix
  | _ => raise (TypeError "index document is not a mapping of entries")
  end.

(** [Staging._update_index] *)
Definition update_index (rel_path file_hash : string) : io unit :=
  let* j := read_index in
  let* index := as_index j in
  let entry := IndexEntry file_hash (getctime (Path.join staging_path file_hash)) in
  json_dump (DIndex (<[rel_path := entry]> index)) index_path.

(** [Staging._stage_single_file] *)
Definition stage_single_file (filepath : string) : io unit :=
  let* file_hash := calculate_file_hash filepath in
  match Path.relpath cwd filepath (Repository.path repository) with
  | None => raise (ValueError "no path specified")
  | Some rel_path =>
      let staged_path := Path.join staging_path file_hash in
      makedirs (Path.dirname staged_path) true ;;
      copy2 filepath staged_path ;;
      update_index rel_path file_hash
  end.

(** How deep [os.walk] can get while [add] runs: staging a file creates
    no directory but the staging directory and those above it. *)
Definition walk_depth (m : fs) : nat :=
  S (Nat.max (deepest m) (length (Path.names (Path.join cwd staging_path)))).

(** [Staging.add] *)
Definition add (filepath : string) : io unit :=
  let abs_filepath := Path.abspath cwd filepath in
  let* m := get_fs in
  if negb (exists_ m abs_filepath) then
    raise (ValueError ("Path does not exist: " +:+ abs_filepath))
  else
    let* ignored := lift (Ignore.should_ignore repository ignore_patterns abs_filepath) in
    if ignored then ret tt
    else
      match stat m abs_filepath with
      | inr (_, Dir) =>
          walk_each (walk_depth m) abs_filepath (fun full_file_path =>
            let* ign := lift (Ignore.should_ignore repository ignore_patterns full_file_path) in
            if ign then ret tt else stage_single_file full_file_path)
      | _ => stage_single_file abs_filepath
      end.

(** [os.path.join(self.staging_path, file_hash)]: where the blob of a
    hash is kept. *)
Definition blob (file_hash : string) : string := Path.join staging_path file_hash.

(** The blob removal of [reset]: [os.remove] when the path exists. *)
Definition remove_if_exists (p : string) : io unit :=
  let* m := get_fs in
  if exists_ m p then remove p else ret tt.

(** [Staging.reset]; [filepath] is [None] (or empty) to unstage all. *)
Definition reset (filepath : option string) : io unit :=
  let* j := read_index in
  let* index := as_index j in
  let* index' :=
    match filepath with
    | Some fp =>
        if Path.nonempty fp then
          match Path.relpath cwd fp (Repository.path repository) with
          | None => raise (ValueError "no path specified")
          | Some rel_path =>
              match index !! rel_path with
              | Some e =>
                  remove_if_exists (Path.join staging_path (ie_hash e)) ;;
                  ret (delete rel_path index)
              | None => ret index
              end
          end
        else
          for_each (map_to_list index) (fun '(_, file_info) =>
            remove_if_exists (Path.join staging_path (ie_hash file_info))) ;;
          ret ∅
    | None =>
        for_each (map_to_list index) (fun '(_, file_info) =>
          remove_if_exists (Path.join staging_path (ie_hash file_info))) ;;
        ret ∅
    end in
  json_dump (DIndex index') index_path.

(** [Staging.get_staged_files] (as a set of keys). *)
Definition get_staged_files : io (list string) :=
  let* j := read_index in
  let* index := as_index j in
  ret (map fst (map_to_list index)).

End WithPlatform.
End Staging.

(** ** [core/branch.py]: class [Branch] *)

Module Branch.
Import Os Os.Notations.
Local Open Scope string_scope.

Section WithPlatform.
Context `{Platform}.

Variable repo_path : string.

Definition dot_dir : string := Path.join repo_path ".source-control".
Definition branches_file : string := Path.join dot_dir "branches.json".

(** A loaded [branches.json] used as the configuration dictionary. *)
Definition as_config (j : document) : io branches_config :=
  match j with
  | DBranches bc => ret bc
  | _ => raise (TypeError "branches document is not a configuration")
  end.

Definition load_config : io branches_config :=
  let* j := json_load branches_file in as_config j.

(** [datetime.now().isoformat()] as [branch.py] evaluates it: the file has
    [import datetime], so the name is bound to the module, which has no
    attribute [now]. *)
Definition datetime_now_isoformat : io string :=
  raise (AttributeError "module 'datetime' has no attribute 'now'").

Definition initial_branches : branches_config :=
  BranchesConfig "main" {[ "main" := BranchInfo None None None ]}.

(** [Branch.__init__]: [_initialize_branches_file] when the file is
    missing, then [_create_default_branch_if_not_exists]. *)
Definition init : io unit :=
  let* m := get_fs in
  (if negb (exists_ m branches_file) then
     makedirs (Path.dirname branches_file) true ;;
     json_dump (DBranches initial_branches) branches_file
   else ret tt) ;;
  let* branches_config := load_config in
  match branches branches_config !! "main" with
  | Some _ => ret tt
  | None =>
      let* created := datetime_now_isoformat in
      json_dump
        (DBranches (BranchesConfig (current_branch branches_config)
                      (<["main" := BranchInfo None (Some created) None]>
                         (branches branches_config))))
        branches_file
  end.

Definition contains_slash (s : string) : bool :=
  existsb (Ascii.eqb Path.slash) (String.list_ascii_of_string s).

(** The names [create_branch] accepts: not empty, no slash. *)
Definition valid_branch_name (branch_name : string) : bool :=
  Path.nonempty branch_name && negb (contains_slash branch_name).

(** [x or y] on an optional string: [None] and the empty string are falsy. *)
Definition or_else (x : option string) (y : string) : string :=
  match x with
  | Some v => if Path.nonempty v then v else y
  | None => y
  end.

(** [Branch.create_branch], the clock expression being [now]. *)
Definition create_branch_with (now : io string) (branch_name : string)
    (base_branch : option string) : io branch_info :=
  if negb (Path.nonempty branch_name) || contains_slash branch_name then
    raise (ValueError "Invalid branch name. Must be non-empty and cannot contain '/'.")
  else
    let* branches_config := load_config in
    match branches branches_config !! branch_name with
    | Some _ => raise (ValueError ("Branch '" +:+ branch_name +:+ "' already exists."))
    | None =>
        let base_branch := or_else base_branch (current_branch branches_config) in
        match branches branches_config !! base_branch with
        | None => raise (ValueError ("Base branch '" +:+ base_branch +:+ "' does not exist."))
        | Some base_branch_info =>
            let* created := now in
            let new_branch_config :=
              BranchInfo (head_commit base_branch_info) (Some created) (Some base_branch) in
            json_dump
              (DBranches (BranchesConfig (current_branch branches_config)
                            (<[branch_name := new_branch_config]> (branches branches_config))))
              branches_file ;;
            ret new_branch_config
        end
    end.

(** [Branch.create_branch] *)
Definition create_branch (branch_name : string) (base_branch : option string)
    : io branch_info :=
  create_branch_with datetime_now_isoformat branch_name base_branch.

(** [Branch.switch_branch] *)
Definition switch_branch (branch_name : string) : io string :=
  let* branches_config := load_config in
  match branches branches_config !! branch_name with
  | None => raise (ValueError ("Branch '" +:+ branch_name +:+ "' does not exist."))
  | Some _ =>
      json_dump (DBranches (BranchesConfig branch_name (branches branches_config)))
                branches_file ;;
      ret branch_name
  end.

(** [Branch.update_branch_head] *)
Definition update_branch_head (branch_name commit_hash : string) : io unit :=
  let* branches_config := load_config in
  match branches branches_config !! branch_name with
  | None => raise (ValueError ("Branch '" +:+ branch_name +:+ "' does not exist."))
  | Some info =>
      let info' := BranchInfo (Some commit_hash) (created_at info) (base_branch info) in
      json_dump
        (DBranches (BranchesConfig (current_branch branches_config)
                      (<[branch_name := info']> (branches branches_config))))
        branches_file
  end.

(** [Branch.get_current_branch] *)
Definition get_current_branch : io string :=
  let* branches_config := load_config in ret (current_branch branches_config).

(** [Branch.get_branch_head] *)
Definition get_branch_head (branch_name : option string) : io (option string) :=
  let* branches_config := load_config in
  let branch_name := or_else branch_name (current_branch branches_config) in
  match branches branches_config !! branch_name with
  | None => raise (ValueError ("Branch '" +:+ branch_name +:+ "' does not exist."))
  | Some info => ret (head_commit info)
  end.

End WithPlatform.
End Branch.

(** ** [core/diff.py]: class [Diff], with [difflib.unified_diff] *)

Module Diff.
Import Os Os.Notations.
Local Open Scope string_scope.

Definition nl : string := String Text.LF "".

Record file_diff := FileDiff {
  diff_lines : list string;
  added_lines : nat;
  removed_lines : nat;
  total_lines_changed : nat;
  is_different : bool
}.

(** [l[i:j]] for indices within the naturals. *)
Definition slice {A} (l : list A) (i j : nat) : list A := take (j - i) (drop i l).

(** [difflib._format_range_unified] *)
Definition format_range_unified (start stop : nat) : string :=
  let beginning := start + 1 in
  let len := stop - start in
  if Nat.eqb len 1 then pretty beginning
  else pretty (if Nat.eqb len 0 then beginning - 1 else beginning) +:+ "," +:+ pretty len.

Definition tag_in (t : string) (tags : list string) : bool := existsb (String.eqb t) tags.

(** The lines one opcode contributes to a hunk. *)
Definition opcode_lines (a b : list string) (op : opcode) : list string :=
  if String.eqb (tag op) "equal" then map (String.append " ") (slice a (i1 op) (i2 op))
  else
    ((if tag_in (tag op) ["replace"; "delete"]
      then map (String.append "-") (slice a (i1 op) (i2 op)) else [])
     ++
     (if tag_in (tag op) ["replace"; "insert"]
      then map (String.append "+") (slice b (j1 op) (j2 op)) else []))%list.

(** One group of opcodes: the [@@] line, then the lines of its opcodes.
    [group[0]] raises on an empty group. *)
Definition hunk (a b : list string) (group : list opcode) : exn + list string :=
  match group, last group with
  | first :: _, Some lst =>
      let file1_range := format_range_unified (i1 first) (i2 lst) in
      let file2_range := format_range_unified (j1 first) (j2 lst) in
      inr (("@@ -" +:+ file1_range +:+ " +" +:+ file2_range +:+ " @@" +:+ nl)
             :: concat (map (opcode_lines a b) group))
  | _, _ => inl IndexError
  end.

Fixpoint hunks (a b : list string) (groups : list (list opcode)) : exn + list string :=
  match groups with
  | [] => inr []
  | g :: gs =>
      match hunk a b g with
      | inl e => inl e
      | inr h => match hunks a b gs with
                 | inl e => inl e
                 | inr r => inr (h ++ r)%list
                 end
      end
  end.

Section WithPlatform.
Context `{Platform}.

(** [list(difflib.unified_diff(a, b, fromfile=..., tofile=...))]: the two
    header lines come before the first group, and only if there is one. *)
Definition unified_diff (a b : list string) (fromfile tofile : string)
    : exn + list string :=
  match grouped_opcodes a b with
  | [] => inr []
  | groups =>
      match hunks a b groups with
      | inl e => inl e
      | inr body =>
          inr (("--- " +:+ fromfile +:+ nl) :: ("+++ " +:+ tofile +:+ nl) :: body)
      end
  end.

(** [Diff._read_file_lines] *)
Definition read_file_lines (file_path : string) : io (list string) :=
  try_except (let* text := read_text file_path in ret (Text.readlines text))
    (fun e => match e with UnicodeDecodeError => true | _ => false end)
    (ret []).

(** [sum(1 for line in diff if line.startswith(c))] *)
Definition count_starting (c : string) (diff : list string) : nat :=
  length (List.filter (fun line => Path.startswith line c) diff).

(** [Diff.generate_file_diff] *)
Definition generate_file_diff (file1_path file2_path : string) : io file_diff :=
  let* file1_lines := read_file_lines file1_path in
  let* file2_lines := read_file_lines file2_path in
  let* diff := lift (unified_diff file1_lines file2_lines
                       (Path.basename file1_path) (Path.basename file2_path)) in
  ret (FileDiff diff (count_starting "+" diff) (count_starting "-" diff)
                (length diff) (negb (Nat.eqb (length diff) 0))).

End WithPlatform.
End Diff.

(** ** [core/merge.py]: class [Merge] *)

(** One entry of the list [Diff.compare_branches] returns, read with
    [dict.get]: a missing key is [None]. *)
Record diff_item := DiffItem {
  d_type : option string;
  d_path : option string;
  d_source_content : option string;
  d_target_content : option string;
  d_content : option string
}.

Record merge_result := MergeResult {
  mr_source_branch : string;
  mr_target_branch : string;
  mr_changes : list (string * option string)   (* (type, path) *)
}.

Module Merge.
Import Os Os.Notations.
Local Open Scope string_scope.

Definition MERGE_DIR := "merges".
Definition CONFLICTS_FILE := "conflicts.json".

(** The body of the loop of [_detect_conflicts]: the conflict one
    difference gives rise to, if any. *)
Definition conflict_of (diff_item : diff_item) : option conflict :=
  if bool_decide (d_type diff_item = Some "modify") then
    let file_path := d_path diff_item in
    let source_content := d_source_content diff_item in
    let target_content := d_target_content diff_item in
    if bool_decide (source_content <> target_content) then
      Some (Conflict file_path "content_conflict" source_content target_content)
    else None
  else None.

(** [Merge._detect_conflicts] *)
Definition detect_conflicts (differences : list diff_item) : list conflict :=
  omap conflict_of differences.

(** [c['path'] == file_path], on a conflict and on a difference. *)
Definition path_is (file_path : string) (c : conflict) : bool :=
  bool_decide (c_path c = Some file_path).

Definition touches (file_path : string) (d : diff_item) : bool :=
  bool_decide (d_path d = Some file_path).

Section WithPlatform.
Context `{Platform}.

(** [repository.DSCS_DIR]: not defined by the class [Repository], so that
    [Merge(Repository(p))] raises [AttributeError] in [__init__]. What
    follows is the class on a repository object that carries the
    attribute, with this value. *)
Variable DSCS_DIR : string.
Variable repository : Repository.t.

Definition dscs_path : string := Path.join (Repository.path repository) DSCS_DIR.
Definition merge_path : string := Path.join dscs_path MERGE_DIR.
Definition conflicts_path : string := Path.join merge_path CONFLICTS_FILE.

(** [os.path.join(self.dscs_path, self.repository.BRANCHES_DIR, name)] *)
Definition branch_path (name : string) : string :=
  Path.join (Path.join dscs_path Repository.BRANCHES_DIR) name.

(** [os.path.join(self.repository.path, file_path)] *)
Definition full_path (file_path : string) : string :=
  Path.join (Repository.path repository) file_path.

(** [Merge.__init__] *)
Definition init : io unit := makedirs merge_path true.

(** [Merge._store_conflicts] *)
Definition store_conflicts (conflicts : list conflict) : io unit :=
  json_dump (DConflicts conflicts) conflicts_path.

(** [os.path.join(self.repository.path, file_path)]; [join] refuses [None]. *)
Definition full_path_of (file_path : option string) : io string :=
  match file_path with
  | Some p => ret (full_path p)
  | None => raise (TypeError "join() argument must be str, bytes, or os.PathLike object, not 'NoneType'")
  end.

(** [with open(full_path, 'w') as f: f.write(content)]: the file is
    created or truncated before [write] refuses [None]. *)
Definition write_content (full_path : string) (content : option string) : io unit :=
  match content with
  | Some c => write_data full_path (Raw c)
  | None =>
      write_data full_path (Raw "") ;;
      raise (TypeError "write() argument must be str, not None")
  end.

(** The loop of [_apply_merge] over the differences. *)
Fixpoint apply_changes (differences : list diff_item)
    (changes : list (string * option string)) : io (list (string * option string)) :=
  match differences with
  | [] => ret changes
  | diff_item :: rest =>
      let file_path := d_path diff_item in
      if bool_decide (d_type diff_item = Some "add") then
        let* full_path := full_path_of file_path in
        makedirs (Path.dirname full_path) true ;;
        write_content full_path (d_content diff_item) ;;
        apply_changes rest (changes ++ [("add", file_path)])%list
      else if bool_decide (d_type diff_item = Some "modify") then
        let* full_path := full_path_of file_path in
        write_content full_path (d_source_content diff_item) ;;
        apply_changes rest (changes ++ [("modify", file_path)])%list
      else if bool_decide (d_type diff_item = Some "delete") then
        let* full_path := full_path_of file_path in
        let* m := get_fs in
        (if exists_ m full_path then remove full_path else ret tt) ;;
        apply_changes rest (changes ++ [("delete", file_path)])%list
      else apply_changes rest changes
  end.

(** [Merge._apply_merge] *)
Definition apply_merge (source_branch target_branch : string)
    (differences : list diff_item) : io merge_result :=
  let* changes := apply_changes differences [] in
  ret (MergeResult source_branch target_branch changes).

(** [Diff(self.repository)] followed by
    [diff.compare_branches(source_branch, target_branch)]: [Diff.__init__]
    joins its argument with ['.source-control'], and [os.path.join] refuses
    the [Repository] object that [merge] passes. (Had the constructor
    returned, the call would raise in its turn: the class [Diff] has no
    method [compare_branches].) *)
Definition compare_branches (source_branch target_branch : string)
    : io (list diff_item) :=
  raise (TypeError "expected str, bytes or os.PathLike object, not Repository").

(** [Merge.merge], [compare] being the two lines that build a [Diff] and
    ask it for the differences. *)
Definition merge_with (compare : string -> string -> io (list diff_item))
    (source_branch : string) (target_branch : option string) : io merge_result :=
  let* target_branch :=
    match target_branch with
    | Some t => ret t
    | None => Repository.get_current_branch repository
    end in
  let source_branch_path := branch_path source_branch in
  let target_branch_path := branch_path target_branch in
  let* m := get_fs in
  if negb (exists_ m source_branch_path) then
    raise (ValueError ("Source branch '" +:+ source_branch +:+ "' does not exist"))
  else if negb (exists_ m target_branch_path) then
    raise (ValueError ("Target branch '" +:+ target_branch +:+ "' does not exist"))
  else
    let* differences := compare source_branch target_branch in
    let conflicts := detect_conflicts differences in
    match conflicts with
    | _ :: _ =>
        store_conflicts conflicts ;;
        raise (MergeConflictError
                 ("Merge conflicts detected between " +:+ source_branch
                    +:+ " and " +:+ target_branch))
    | [] => apply_merge source_branch target_branch differences
    end.

(** [Merge.merge] *)
Definition merge (source_branch : string) (target_branch : option string)
    : io merge_result :=
  merge_with compare_branches source_branch target_branch.

(** A loaded [conflicts.json] used as the list of conflicts. *)
Definition as_conflicts (j : document) : io (list conflict) :=
  match j with
  | DConflicts cs => ret cs
  | _ => raise (TypeError "conflicts document is not a list of conflicts")
  end.

Definition file_not_found (e : exn) : bool :=
  match e with FileNotFoundError => true | _ => false end.

(** [Merge.list_conflicts] *)
Definition list_conflicts : io (list conflict) :=
  try_except (let* j := json_load conflicts_path in as_conflicts j)
    file_not_found (ret []).

(** The loop of [resolve_conflicts] over [resolutions.items()]. *)
Fixpoint apply_resolutions (resolutions : list (string * string))
    (conflicts : list conflict) : io (list conflict) :=
  match resolutions with
  | [] => ret conflicts
  | (file_path, content) :: rest =>
      match List.find (path_is file_path) conflicts with
      | Some _ =>
          write_data (full_path file_path) (Raw content) ;;
          apply_resolutions rest
            (List.filter (fun c => negb (path_is file_path c)) conflicts)
      | None => apply_resolutions rest conflicts
      end
  end.

(** A conflict whose path is a key of [resolutions]. *)
Definition resolved_by (resolutions : list (string * string)) (c : conflict) : bool :=
  existsb (fun '(file_path, _) => path_is file_path c) resolutions.

(** The pending conflicts that [resolutions] does not name. *)
Definition remaining (resolutions : list (string * string)) (conflicts : list conflict)
    : list conflict :=
  List.filter (fun c => negb (resolved_by resolutions c)) conflicts.

(** The items of [resolutions] that find a pending conflict at their turn
    in the loop, and so are written. *)
Fixpoint written (resolutions : list (string * string)) (conflicts : list conflict)
    : list (string * string) :=
  match resolutions with
  | [] => []
  | (file_path, content) :: rest =>
      match List.find (path_is file_path) conflicts with
      | Some _ =>
          (file_path, content)
            :: written rest (List.filter (fun c => negb (path_is file_path c)) conflicts)
      | None => written rest conflicts
      end
  end.

(** The files the written items go to. *)
Definition targets (m : fs) (resolutions : list (string * string))
    (conflicts : list conflict) : list (option path) :=
  map (fun '(file_path, _) => resolve_opt m (full_path file_path))
      (written resolutions conflicts).

(** [Merge.resolve_conflicts]; [resolutions] is the dictionary as the list
    of its items. *)
Definition resolve_conflicts (resolutions : list (string * string)) : io unit :=
  let* loaded :=
    try_except (let* j := json_load conflicts_path in ret (Some j))
      file_not_found (ret None) in
  match loaded with
  | None => ret tt
  | Some j =>
      let* conflicts := as_conflicts j in
      let* conflicts := apply_resolutions resolutions conflicts in
      match conflicts with
      | _ :: _ => json_dump (DConflicts conflicts) conflicts_path
      | [] => remove conflicts_path
      end
  end.

End WithPlatform.
End Merge.

(** ** Worked inputs *)

Module Summary.
Local Open Scope string_scope.

(** The changes a merge reports for a list of differences: one pair of
    type and path for each difference of type add, modify or delete, in
    order. *)
Definition change_of (d : diff_item) : option (string * option string) :=
  if bool_decide (d_type d = Some "add") then Some ("add", d_path d)
  else if bool_decide (d_type d = Some "modify") then Some ("modify", d_path d)
  else if bool_decide (d_type d = Some "delete") then Some ("delete", d_path d)
  else None.

Definition changes_of (differences : list diff_item) : list (string * option string) :=
  omap change_of differences.

End Summary.

Module Names.

(** A printable ASCII character other than the space and the slash. *)
Definition name_char (c : Ascii.ascii) : bool :=
  let n := Ascii.nat_of_ascii c in
  Nat.ltb 32 n && Nat.ltb n 127 && negb (Ascii.eqb c Path.slash).

(** A character of ASCII that is no white space. *)
Definition ascii_no_space (c : Ascii.ascii) : bool :=
  negb (Path.is_space c) && N.leb (Ascii.N_of_ascii c) 0x7F.

(** A lowercase hexadecimal digit. *)
Definition hex_char (c : Ascii.ascii) : bool :=
  let n := Ascii.nat_of_ascii c in
  (Nat.leb 48 n && Nat.leb n 57) || (Nat.leb 97 n && Nat.leb n 102).

(** A name made of such characters only. *)
Definition simple_name (s : string) : bool :=
  forallb name_char (String.list_ascii_of_string s).

End Names.

Module Examples.
Import Os.
Local Open Scope string_scope.

Definition line (s : string) : string := s +:+ Diff.nl.

(** What [difflib] answers on the two pairs of files used below (one line
    added, one line removed); no other pair is compared. *)
Definition example_opcodes (a b : list string) : list (list opcode) :=
  if bool_decide (a = [line "x"] /\ b = [line "x"; line "y"])
  then [[Opcode "equal" 0 1 0 1; Opcode "insert" 1 1 1 2]]
  else if bool_decide (a = [line "x"; line "y"] /\ b = [line "x"])
  then [[Opcode "equal" 0 1 0 1; Opcode "delete" 1 2 1 1]]
  else [].

(** A host for the worked inputs: the process runs in [/work]. No input
    below matches a path against an ignore pattern or parses JSON it did
    not write, and none depends on the bytes of a JSON document, so those
    answers do not matter. *)
Definition host : Platform := {|
  cwd := "/work";
  json_text := fun _ => "";
  json_parse := fun _ => None;
  fnmatch := fun _ _ => false;
  re_match := fun _ _ => false;
  getctime := fun _ => 0%Z;
  grouped_opcodes := example_opcodes
|}.

(** A working tree [/repo] with two files of equal content and a third
    one, a file outside it, and the working directory. *)
Definition tree : fs :=
  list_to_map [
    (["repo"], Dir);
    (["repo"; "a.txt"], File (Raw "v1"));
    (["repo"; "b.txt"], File (Raw "v1"));
    (["repo"; "c.txt"], File (Raw "v2"));
    (["tmp"], Dir);
    (["tmp"; "x"], File (Raw "outside"));
    (["work"], Dir) ].

Definition after {A} (c : fs -> outcome A) (m : fs) : fs := final_fs (c m).

(** Two versions of a text file: the new one has one more line. *)
Definition diff_tree : fs :=
  list_to_map [
    (["d"], Dir);
    (["d"; "old"], File (Raw (line "x")));
    (["d"; "new"], File (Raw (line "x" +:+ line "y"))) ].

(** Two files that are not text: a lone continuation byte, and a
    truncated two-byte sequence. *)
Definition bytes1 : string := String (Ascii.ascii_of_nat 128) "a".
Definition bytes2 : string := String (Ascii.ascii_of_nat 195) "".
Definition binary_tree : fs :=
  list_to_map [
    (["d"], Dir);
    (["d"; "bin1"], File (Raw bytes1));
    (["d"; "bin2"], File (Raw bytes2)) ].

(** [Commit("/repo")] on [tree], then [a.txt] staged. *)
Definition commit_ready : fs := after (Commit.init (H := host) "/repo") tree.
Definition staged_a : fs :=
  after (Commit.stage_file (H := host) "/repo" "/repo/a.txt") commit_ready.
Definition staged_b : fs :=
  after (Commit.stage_file (H := host) "/repo" "/repo/b.txt") commit_ready.

(** [/repo] with a directory [metadata.json] that holds one file, and that
    file staged. *)
Definition tree_metadata_dir : fs :=
  <[["repo"; "metadata.json"; "x"] := File (Raw "v1")]>
    (<[["repo"; "metadata.json"] := Dir]> tree).
Definition staged_metadata_dir : fs :=
  after (Commit.stage_file (H := host) "/repo" "/repo/metadata.json/x")
    (after (Commit.init (H := host) "/repo") tree_metadata_dir).

(** [/repo] with a file in a subdirectory; [a.txt] and that file staged. *)
Definition tree_subdir : fs :=
  <[["repo"; "sub"; "f.txt"] := File (Raw "v3")]> (<[["repo"; "sub"] := Dir]> tree).
Definition staged_subdir : fs :=
  after (Commit.stage_file (H := host) "/repo" "/repo/sub/f.txt")
    (after (Commit.stage_file (H := host) "/repo" "/repo/a.txt")
       (after (Commit.init (H := host) "/repo") tree_subdir)).

(** A commit of what is staged in [/repo], the clock reading ["t1"] and
    then ["t2"]; the directory it is written to. *)
Definition create_commit : fs -> outcome commit_metadata :=
  Commit.create_commit (H := host) "/repo" "msg" "me" "t1" "t2".
Definition get_staged_files : fs -> outcome (list string) :=
  Commit.get_staged_files (H := host) "/repo".
Definition commit_dir : string :=
  Path.join (Commit.commits_dir "/repo") (Commit.commit_hash_of "msg" "me" "t1").

(** [Staging(repo)] on [tree], [repo] being a [Repository("/repo")] that
    carries the attribute [DSCS_DIR = ".dscs"], which the class does not
    define; there is no ignore file. *)
Definition repo : Repository.t := Repository.new (H := host) "/repo".
Definition DSCS_DIR : string := ".dscs".
Definition staging_ready : fs := after (Staging.init (H := host) DSCS_DIR repo) tree.
Definition add (filepath : string) : fs -> outcome unit :=
  Staging.add (H := host) DSCS_DIR repo [] filepath.
Definition staged_ab : fs := after (add "/repo/b.txt") (after (add "/repo/a.txt") staging_ready).
Definition staged_ac : fs := after (add "/repo/c.txt") (after (add "/repo/a.txt") staging_ready).
Definition reset (filepath : option string) : fs -> outcome unit :=
  Staging.reset (H := host) DSCS_DIR repo filepath.
Definition read_index : fs -> outcome document :=
  Staging.read_index (H := host) DSCS_DIR repo.
Definition blob_exists (m : fs) (file_hash : string) : bool :=
  exists_ (H := host) m (Staging.blob DSCS_DIR repo file_hash).

(** [tree] with the object store of [/repo] in place, and two values of
    [uuid.uuid4()]. *)
Definition objects_ready : fs :=
  after (makedirs (H := host) (Repository.objects_dir repo) true) tree.

(** A merge of [feat] into [main]: both branch files exist and the merge
    directory is as [Merge.__init__] leaves it. A comparison that returns,
    for [merge_with]: it reports [a.txt] modified to ["v3"] on [feat] and to
    ["v2"] on [main], and [new.txt] added. *)
Definition example_differences : list diff_item :=
  [ DiffItem (Some "modify") (Some "a.txt") (Some "v3") (Some "v2") None;
    DiffItem (Some "add") (Some "new.txt") None None (Some "n") ].
Definition compare (source target : string) : fs -> outcome (list diff_item) :=
  ret example_differences.
Definition merge_ready : fs :=
  after (Merge.init (H := host) DSCS_DIR repo)
    (after (write_data (H := host) "/repo/.dscs/branches/feat" (Raw ""))
       (after (write_data (H := host) "/repo/.dscs/branches/main" (Raw ""))
          (after (makedirs (H := host) "/repo/.dscs/branches" true) tree))).
Definition merge (source : string) (target : option string) : fs -> outcome merge_result :=
  Merge.merge (H := host) DSCS_DIR repo source target.
Definition merge_compared (source : string) (target : option string)
    : fs -> outcome merge_result :=
  Merge.merge_with (H := host) DSCS_DIR repo compare source target.
Definition list_conflicts : fs -> outcome (list conflict) :=
  Merge.list_conflicts (H := host) DSCS_DIR repo.

(** Differences without conflict: [new.txt] added, and a difference of a
    type that [_apply_merge] does not know. *)
Definition clean_differences : list diff_item :=
  [ DiffItem (Some "add") (Some "new.txt") None None (Some "n");
    DiffItem (Some "rename") (Some "old.txt") None None None ].
Definition apply_merge (source target : string) (differences : list diff_item)
    : fs -> outcome merge_result :=
  Merge.apply_merge (H := host) repo source target differences.
Definition resolve_conflicts (resolutions : list (string * string)) : fs -> outcome unit :=
  Merge.resolve_conflicts (H := host) DSCS_DIR repo resolutions.

(** Two pending conflicts, on [a.txt] and on [b.txt]. *)
Definition two_conflicts : list conflict :=
  [ Conflict (Some "a.txt") "content_conflict" (Some "v3") (Some "v2");
    Conflict (Some "b.txt") "content_conflict" (Some "x") (Some "y") ].
Definition conflicts_pending : fs :=
  after (Merge.store_conflicts (H := host) DSCS_DIR repo two_conflicts) merge_ready.

(** [Branch("/repo")] on [tree]: the registry holds [main] only. *)
Definition branch_ready : fs := after (Branch.init (H := host) "/repo") tree.

(** The registry with a second branch [feat] beside [main], as
    [create_branch] would leave it had its clock expression returned. *)
Definition two_branches_config : branches_config :=
  BranchesConfig "main"
    {[ "main" := BranchInfo None None None;
       "feat" := BranchInfo None (Some "2024-01-01T00:00:00") (Some "main") ]}.
Definition two_branches : fs :=
  after (json_dump (H := host) (DBranches two_branches_config)
           (Branch.branches_file "/repo")) branch_ready.

End Examples.

(** * Properties *)

(** ** SHA-256: the test vectors of FIPS 180-4 *)

Example round_constants :
  nth 0 Sha256.K 0%Z = 0x428a2f98%Z /\ nth 63 Sha256.K 0%Z = 0xc67178f2%Z
  /\ length Sha256.K = 64 /\ nth 0 Sha256.H0 0%Z = 0x6a09e667%Z
  /\ nth 7 Sha256.H0 0%Z = 0x5be0cd19%Z /\ length Sha256.H0 = 8.
Proof. vm_compute. repeat split; reflexivity. Qed.

Example hexdigest_abc :
  Sha256.hexdigest "abc"
  = "ba7816bf8f01cfea414140de5dae2223b00361a396177a9cb410ff61f20015ad"%string.
Proof. vm_compute. reflexivity. Qed.

Example hexdigest_empty :
  Sha256.hexdigest ""
  = "e3b0c44298fc1c149afbf4c8996fb92427ae41e4649b934ca495991b7852b855"%string.
Proof. vm_compute. reflexivity. Qed.

Example hexdigest_two_blocks :
  Sha256.hexdigest "abcdbcdecdefdefgefghfghighijhijkijkljklmklmnlmnomnopnopq"
  = "248d6a61d20638b8e5c026930c3e6039a33ce45964ff2167f6ecedd419db06c1"%string.
Proof. vm_compute. reflexivity. Qed.


(** ** Path strings *)

Module PathFacts.
Import Path.
Local Open Scope string_scope.

Lemma app_cons (c : Ascii.ascii) (a b : string) : String c a +:+ b = String c (a +:+ b).
Proof. reflexivity. Qed.

Lemma app_nil (b : string) : "" +:+ b = b.
Proof. reflexivity. Qed.

Ltac unfold_app := rewrite ?app_cons, ?app_nil in *.

Lemma split_nonnil (s : string) : split s <> [].
Proof.
  induction s as [|c s IH]; simpl; [discriminate|].
  destruct (Ascii.eqb c slash); [discriminate|].
  destruct (split s); discriminate.
Qed.

Lemma split_cons (c : Ascii.ascii) (s : string) :
  Ascii.eqb c slash = false ->
  exists h t, split s = h :: t /\ split (String c s) = String c h :: t.
Proof.
  intros Hc. simpl. rewrite Hc.
  destruct (split s) as [|h t] eqn:E; [by destruct (split_nonnil s)|].
  eauto.
Qed.

Lemma split_app_slash (a b : string) :
  split (a +:+ "/" +:+ b) = (split a ++ split b)%list.
Proof.
  induction a as [|c a IH]; unfold_app; simpl; [reflexivity|].
  destruct (Ascii.eqb c slash) eqn:Hc.
  - by rewrite IH.
  - rewrite IH. destruct (split a) as [|h t] eqn:E; [by destruct (split_nonnil a)|].
    reflexivity.
Qed.

Lemma split_slash_free (s : string) : slash_free s = true -> split s = [s].
Proof.
  induction s as [|c s IH]; simpl; [reflexivity|].
  unfold slash_free. simpl. intros [Hc Hs]%andb_true_iff.
  apply negb_true_iff in Hc. rewrite Hc, (IH Hs). reflexivity.
Qed.

Lemma plain_name_slash_free (s : string) : plain_name s = true -> slash_free s = true.
Proof. unfold plain_name. intros H. apply andb_true_iff in H as [_ H]. exact H. Qed.

Lemma plain_name_nonempty (s : string) : plain_name s = true -> nonempty s = true.
Proof.
  unfold plain_name. intros H.
  repeat (apply andb_true_iff in H as [H _]). exact H.
Qed.

Lemma plain_name_not_dot (s : string) :
  plain_name s = true -> String.eqb s "." = false /\ String.eqb s ".." = false.
Proof.
  unfold plain_name. intros H.
  apply andb_true_iff in H as [H _].
  apply andb_true_iff in H as [H H2].
  apply andb_true_iff in H as [_ H1].
  split; by apply negb_true_iff.
Qed.

Lemma last_char_app (x b : string) :
  b <> "" -> last_char (x +:+ b) = last_char b.
Proof.
  intros Hb. induction x as [|c x IH]; unfold_app; simpl; [reflexivity|].
  rewrite IH. destruct (x +:+ b) eqn:E; [|reflexivity].
  destruct x; unfold_app; [congruence|discriminate].
Qed.

Lemma endswith_slash_app (x b : string) :
  b <> "" -> endswith_slash (x +:+ b) = endswith_slash b.
Proof. intros Hb. unfold endswith_slash. by rewrite last_char_app. Qed.

Lemma endswith_slash_inv (x : string) :
  endswith_slash x = true -> exists x', x = x' +:+ "/".
Proof.
  unfold endswith_slash.
  induction x as [|c x IH]; simpl; [discriminate|].
  destruct x as [|c' x].
  - intros Hc. apply Ascii.eqb_eq in Hc. subst c. by exists "".
  - intros Hx. destruct (IH Hx) as [x' ->]. by exists (String c x').
Qed.

Lemma slash_free_last_char (b : string) :
  slash_free b = true -> endswith_slash b = false.
Proof.
  unfold endswith_slash, slash_free.
  induction b as [|c b IH]; simpl; [reflexivity|].
  intros [Hc Hb]%andb_true_iff. destruct b as [|c' b].
  - by apply negb_true_iff.
  - by apply IH.
Qed.

Lemma app_empty_r (s : string) : s +:+ "" = s.
Proof. induction s; unfold_app; congruence. Qed.

Lemma app_assoc (a b c : string) : (a +:+ b) +:+ c = a +:+ (b +:+ c).
Proof. induction a; unfold_app; congruence. Qed.

Lemma names_app_slash (a b : string) :
  names (a +:+ "/" +:+ b) = (names a ++ names b)%list.
Proof. unfold names. by rewrite split_app_slash, List.filter_app. Qed.

Lemma names_plain (b : string) : plain_name b = true -> names b = [b].
Proof.
  intros Hb. unfold names.
  rewrite (split_slash_free b (plain_name_slash_free b Hb)). simpl.
  by rewrite (plain_name_nonempty b Hb).
Qed.

Lemma names_trailing_slash (x : string) : names (x +:+ "/") = names x.
Proof.
  replace (x +:+ "/") with (x +:+ "/" +:+ "") by (by rewrite app_empty_r).
  rewrite names_app_slash. unfold names at 2. simpl. by rewrite List.app_nil_r.
Qed.

Lemma is_abs_cons (c : Ascii.ascii) (s : string) :
  is_abs (String c s) = Ascii.eqb slash c.
Proof. unfold is_abs. cbn [startswith]. apply andb_true_r. Qed.

Lemma is_abs_app (a b : string) : a <> "" -> is_abs (a +:+ b) = is_abs a.
Proof.
  destruct a as [|c a]; [congruence|]. intros _. unfold_app.
  by rewrite !is_abs_cons.
Qed.

Lemma nonempty_true (s : string) : nonempty s = true <-> s <> "".
Proof.
  unfold nonempty. rewrite negb_true_iff. split.
  - intros E ->. by rewrite String.eqb_refl in E.
  - intros Hs. by apply String.eqb_neq.
Qed.

Lemma eqb_empty_false (s : string) : s <> "" -> String.eqb s "" = false.
Proof. intros Hs. by apply String.eqb_neq. Qed.

Lemma plain_name_not_abs (b : string) : plain_name b = true -> is_abs b = false.
Proof.
  intros Hb. apply plain_name_slash_free in Hb.
  destruct b as [|c b]; [reflexivity|].
  unfold slash_free in Hb. simpl in Hb. apply andb_true_iff in Hb as [Hc _].
  apply negb_true_iff in Hc. rewrite is_abs_cons, Ascii.eqb_sym. exact Hc.
Qed.

Lemma plain_name_neq_empty (b : string) : plain_name b = true -> b <> "".
Proof. intros Hb. by apply nonempty_true, plain_name_nonempty. Qed.

Lemma join_neq_empty (a b : string) : b <> "" -> join a b <> "".
Proof.
  intros Hb. unfold join. destruct (is_abs b); [done|].
  destruct (String.eqb a "" || endswith_slash a); destruct a; simpl; done.
Qed.

(** The names of [join a b] for a relative [b]: those of [a], then those
    of [b]. *)
Lemma names_join (a b : string) :
  is_abs b = false -> names (join a b) = (names a ++ names b)%list.
Proof.
  intros Hb. unfold join. rewrite Hb.
  destruct (String.eqb a "") eqn:Ea; simpl.
  - apply String.eqb_eq in Ea. subst a. reflexivity.
  - destruct (endswith_slash a) eqn:Es.
    + destruct (endswith_slash_inv a Es) as [a' ->].
      rewrite app_assoc, names_app_slash, names_trailing_slash.
      reflexivity.
    + apply names_app_slash.
Qed.

Lemma is_abs_join (a b : string) :
  a <> "" -> is_abs b = false -> is_abs (join a b) = is_abs a.
Proof.
  intros Ha Hb. unfold join. rewrite Hb, (eqb_empty_false a Ha). simpl.
  destruct (endswith_slash a); by rewrite is_abs_app.
Qed.

Lemma endswith_slash_join (a b : string) :
  b <> "" -> endswith_slash (join a b) = endswith_slash b.
Proof.
  intros Hb. unfold join. destruct (is_abs b); [done|].
  destruct (String.eqb a "" || endswith_slash a).
  - by apply endswith_slash_app.
  - rewrite endswith_slash_app; [|by destruct b]. by apply (endswith_slash_app "/").
Qed.

Lemma join_rel (a b : string) :
  is_abs b = false ->
  join a b = if String.eqb a "" || endswith_slash a then a +:+ b else a +:+ "/" +:+ b.
Proof. intros Hb. unfold join. by rewrite Hb. Qed.

Lemma join_empty_r (a : string) :
  Path.join a "" = if String.eqb a "" || endswith_slash a then a else a +:+ "/".
Proof.
  rewrite join_rel by done.
  destruct (String.eqb a "" || endswith_slash a); by rewrite ?app_empty_r.
Qed.

(** [join] is associative when the last part is relative. *)
Lemma join_assoc (a b c : string) :
  is_abs c = false -> join a (join b c) = join (join a b) c.
Proof.
  intros Hc. destruct (decide (b = "")) as [->|Hb].
  - assert (join "" c = c) as -> by (by rewrite join_rel).
    rewrite join_empty_r. rewrite !(join_rel _ c Hc).
    destruct (String.eqb a "") eqn:Ea; simpl.
    + apply String.eqb_eq in Ea. by subst a.
    + destruct (endswith_slash a) eqn:Es; simpl.
      * by rewrite Ea, Es.
      * apply String.eqb_neq in Ea.
        rewrite (eqb_empty_false (a +:+ "/")) by (by destruct a).
        rewrite (endswith_slash_app a "/") by done. simpl.
        by rewrite app_assoc.
  - pose proof (is_abs_join b c Hb Hc) as Hbc.
    destruct (is_abs b) eqn:Hab.
    + assert (join a b = b) as -> by (unfold join; by rewrite Hab).
      unfold join at 1. by rewrite Hbc.
    + rewrite (join_rel a (join b c) Hbc), (join_rel (join a b) c Hc).
      rewrite (eqb_empty_false (join a b) (join_neq_empty a b Hb)).
      rewrite (endswith_slash_join a b Hb). simpl.
      rewrite (join_rel a b Hab), (join_rel b c Hc), (eqb_empty_false b Hb). simpl.
      destruct (String.eqb a "" || endswith_slash a), (endswith_slash b);
        by rewrite ?app_assoc.
Qed.

(** *** Paths built from entry names *)

Local Abbreviation plain_nm := (fun c : string => plain_name c = true).

Lemma slash_free_cons (c : Ascii.ascii) (s : string) :
  slash_free (String c s) = negb (Ascii.eqb c slash) && slash_free s.
Proof. reflexivity. Qed.

Lemma split_slash_free_elems (s : string) : Forall (fun x => slash_free x = true) (split s).
Proof.
  induction s as [|c s IH]; simpl; [by repeat constructor|].
  destruct (Ascii.eqb c slash) eqn:Hc; [by constructor|].
  destruct (split s) as [|h t]; [by repeat constructor; rewrite slash_free_cons, Hc|].
  apply Forall_cons in IH as [Hh Ht]. constructor; [|done].
  by rewrite slash_free_cons, Hc.
Qed.

Lemma unsplit_cons (x : string) (l : list string) :
  l <> [] -> unsplit (x :: l) = x +:+ "/" +:+ unsplit l.
Proof. by destruct l. Qed.

Lemma unsplit_split (s : string) : unsplit (split s) = s.
Proof.
  induction s as [|c s IH]; [done|]. simpl.
  destruct (Ascii.eqb c slash) eqn:Hc.
  - apply Ascii.eqb_eq in Hc. subst c.
    rewrite unsplit_cons by apply split_nonnil. by rewrite IH.
  - destruct (split s) as [|h t] eqn:E; [by destruct (split_nonnil s)|].
    destruct t as [|h' t].
    + simpl in *. by rewrite IH.
    + rewrite unsplit_cons by done. rewrite unsplit_cons in IH by done.
      unfold_app. by rewrite IH.
Qed.

Lemma split_unsplit (l : list string) :
  l <> [] -> Forall (fun x => slash_free x = true) l -> split (unsplit l) = l.
Proof.
  induction l as [|x l IH]; [done|]. intros _ [Hx Hl]%Forall_cons.
  destruct l as [|y l].
  - simpl. by apply split_slash_free.
  - rewrite unsplit_cons by done. rewrite split_app_slash, IH by done.
    by rewrite (split_slash_free x Hx).
Qed.

Lemma plain_slash_free_list (ns : list string) :
  Forall plain_nm ns -> Forall (fun x => slash_free x = true) ns.
Proof. intros H. eapply Forall_impl; [exact H|]. intros x. apply plain_name_slash_free. Qed.

Lemma names_unsplit_plain (ns : list string) :
  Forall plain_nm ns -> names (unsplit ns) = ns.
Proof.
  intros Hns. destruct ns as [|n ns]; [done|].
  unfold names. rewrite split_unsplit by (done || by apply plain_slash_free_list).
  induction Hns as [|x l Hx Hl IH]; [done|]. simpl.
  by rewrite (plain_name_nonempty x Hx), IH.
Qed.

Lemma is_abs_unsplit_plain (ns : list string) :
  Forall plain_nm ns -> is_abs (unsplit ns) = false.
Proof.
  intros Hns. destruct Hns as [|n ns Hn Hns]; [done|].
  destruct ns as [|n' ns]; [by apply plain_name_not_abs|].
  rewrite unsplit_cons by done.
  rewrite is_abs_app by (by apply plain_name_neq_empty).
  by apply plain_name_not_abs.
Qed.

Lemma unsplit_plain_neq_empty (ns : list string) :
  Forall plain_nm ns -> ns <> [] -> unsplit ns <> "".
Proof.
  intros Hns Hne. destruct Hns as [|n ns Hn Hns]; [done|].
  apply plain_name_neq_empty in Hn. destruct ns; simpl; [done|]. by destruct n.
Qed.

Lemma endswith_slash_unsplit_plain (ns : list string) :
  Forall plain_nm ns -> endswith_slash (unsplit ns) = false.
Proof.
  induction 1 as [|n ns Hn Hns IH]; [done|].
  destruct ns as [|n' ns].
  - simpl. by apply slash_free_last_char, plain_name_slash_free.
  - rewrite unsplit_cons by done.
    assert (Hne : unsplit (n' :: ns) <> "") by (by apply unsplit_plain_neq_empty).
    rewrite endswith_slash_app by (unfold_app; done).
    by rewrite (endswith_slash_app "/" _ Hne).
Qed.

(** Joining names one at a time, or all at once. *)
Lemma foldl_join_unsplit (s : string) (ns : list string) :
  Forall plain_nm ns -> ns <> [] -> foldl join s ns = join s (unsplit ns).
Proof.
  intros Hns. revert s. induction Hns as [|n ns Hn Hns IH]; [done|]. intros s _.
  change (foldl join s (n :: ns)) with (foldl join (join s n) ns).
  destruct ns as [|n' ns]; [done|].
  rewrite IH by done.
  rewrite <- join_assoc by (by apply is_abs_unsplit_plain).
  f_equal. rewrite (unsplit_cons n) by done.
  rewrite join_rel by (by apply is_abs_unsplit_plain).
  rewrite (eqb_empty_false n (plain_name_neq_empty n Hn)).
  by rewrite (slash_free_last_char n (plain_name_slash_free n Hn)).
Qed.

Lemma names_join_unsplit (c : string) (ns : list string) :
  Forall plain_nm ns -> names (join c (unsplit ns)) = (names c ++ ns)%list.
Proof.
  intros Hns. rewrite names_join by (by apply is_abs_unsplit_plain).
  by rewrite names_unsplit_plain.
Qed.

(** The names of a path string are never empty and hold no slash. *)
Local Abbreviation valid_nm := (fun c : string => nonempty c = true /\ slash_free c = true).

Lemma plain_valid (ns : list string) : Forall plain_nm ns -> Forall valid_nm ns.
Proof.
  intros Hns. eapply Forall_impl; [exact Hns|]. intros x Hx. simpl in *.
  split; [by apply plain_name_nonempty|by apply plain_name_slash_free].
Qed.

Lemma filter_nonempty_valid (l : list string) :
  Forall valid_nm l -> List.filter nonempty l = l.
Proof.
  induction 1 as [|x l [Hx _] _ IH]; [done|]. simpl. by rewrite Hx, IH.
Qed.

Lemma valid_slash_free_list (l : list string) :
  Forall valid_nm l -> Forall (fun x => slash_free x = true) l.
Proof. intros Hl. eapply Forall_impl; [exact Hl|]. by intros x [_ ?]. Qed.

Lemma names_unsplit_valid (l : list string) :
  Forall valid_nm l -> names (unsplit l) = l.
Proof.
  intros Hl. destruct l as [|x l]; [done|]. unfold names.
  rewrite split_unsplit by (done || by apply valid_slash_free_list).
  by apply filter_nonempty_valid.
Qed.

Lemma names_valid (s : string) : Forall valid_nm (names s).
Proof.
  unfold names. apply Forall_forall. intros x Hx.
  apply list_elem_of_In, List.filter_In in Hx as [Hx Hne]. split; [done|].
  pose proof (split_slash_free_elems s) as Hs.
  rewrite Forall_forall in Hs. apply Hs. by apply list_elem_of_In.
Qed.

Lemma filter_nonempty_app (a b : list string) :
  List.filter nonempty (a ++ b) = (List.filter nonempty a ++ List.filter nonempty b)%list.
Proof. apply List.filter_app. Qed.

(** What [join] appends, on the component lists. *)
Lemma split_join_unsplit (a : string) (ns : list string) :
  Forall plain_nm ns -> ns <> [] ->
  exists pre, split (join a (unsplit ns)) = (pre ++ ns)%list
              /\ List.filter nonempty pre = names a.
Proof.
  intros Hns Hne.
  pose proof (is_abs_unsplit_plain ns Hns) as Hrel.
  pose proof (plain_slash_free_list ns Hns) as Hsf.
  rewrite join_rel by done.
  destruct (String.eqb a "") eqn:Ea; simpl.
  { apply String.eqb_eq in Ea. subst a. exists []. unfold_app.
    by rewrite split_unsplit. }
  destruct (endswith_slash a) eqn:Es.
  - apply endswith_slash_inv in Es as [a' ->].
    exists (split a'). rewrite app_assoc, split_app_slash, split_unsplit by done.
    split; [done|]. by rewrite names_trailing_slash.
  - exists (split a). by rewrite split_app_slash, split_unsplit.
Qed.

Lemma last_app_ne {A} (a b : list A) (d : A) : b <> [] -> List.last (a ++ b) d = List.last b d.
Proof.
  intros Hb. induction a as [|x a IH]; [done|].
  simpl. destruct (a ++ b)%list eqn:E; [|done].
  apply app_eq_nil in E as [_ ->]. done.
Qed.

Lemma basename_join_unsplit (a : string) (ns : list string) :
  Forall plain_nm ns -> ns <> [] ->
  basename (join a (unsplit ns)) = List.last ns "".
Proof.
  intros Hns Hne. destruct (split_join_unsplit a ns Hns Hne) as (pre & Hs & _).
  unfold basename. by rewrite Hs, last_app_ne.
Qed.

Lemma last_plain (ns : list string) :
  Forall plain_nm ns -> ns <> [] -> plain_name (List.last ns "") = true.
Proof.
  induction 1 as [|n ns Hn Hns IH]; [done|]. intros _.
  destruct ns as [|n' ns]; [done|]. by apply IH.
Qed.

Lemma removelast_plain (ns : list string) :
  Forall plain_nm ns -> Forall plain_nm (removelast ns).
Proof.
  induction 1 as [|n ns Hn Hns IH]; [done|].
  simpl. destruct ns; [done|]. by constructor.
Qed.

Lemma unsplit_app (a b : list string) :
  a <> [] -> b <> [] -> unsplit (a ++ b) = unsplit a +:+ "/" +:+ unsplit b.
Proof.
  intros Ha Hb. induction a as [|x a IH]; [done|].
  destruct a as [|y a].
  - simpl app. by rewrite unsplit_cons.
  - change ((x :: y :: a) ++ b)%list with (x :: ((y :: a) ++ b))%list.
    rewrite (unsplit_cons x), IH, (unsplit_cons x (y :: a)) by done.
    by rewrite !app_assoc.
Qed.

Lemma endswith_slash_cons (c : Ascii.ascii) (s : string) :
  s <> "" -> endswith_slash (String c s) = endswith_slash s.
Proof. intros Hs. unfold endswith_slash. simpl. by destruct s. Qed.

Lemma last_split_nonempty (s : string) :
  s <> "" -> endswith_slash s = false -> List.last (split s) "" <> "".
Proof.
  induction s as [|c s IH]; [done|]. intros _ Hs.
  destruct (decide (s = "")) as [->|Hne].
  - simpl. unfold endswith_slash in Hs. simpl in Hs. by rewrite Hs.
  - rewrite endswith_slash_cons in Hs by done. specialize (IH Hne Hs).
    simpl. destruct (Ascii.eqb c slash).
    + destruct (split s) eqn:E; [by destruct (split_nonnil s)|done].
    + destruct (split s) as [|h [|h' t]] eqn:E; [by destruct (split_nonnil s)| |done].
      simpl in *. done.
Qed.

Lemma dirname_split (s : string) (hd : list string) :
  removelast (split s) = hd -> hd <> [] ->
  dirname s = if forallb (fun x => String.eqb x "") hd then unsplit hd +:+ "/"
              else rstrip_slash (unsplit hd +:+ "/").
Proof. intros Hs Hne. unfold dirname. rewrite Hs. by destruct hd. Qed.

Lemma forallb_empty_names (l r : list string) :
  List.filter nonempty l <> [] -> forallb (fun x => String.eqb x "") (l ++ r) = false.
Proof.
  induction l as [|x l IH]; [done|]. simpl. unfold nonempty at 1.
  destruct (String.eqb x ""); simpl; [apply IH|done].
Qed.

(** Stripping the slash that [dirname] leaves at the end. *)
Lemma rstrip_slash_unsplit (l : list string) :
  Forall (fun x => slash_free x = true) l -> l <> [] -> List.last l "" <> "" ->
  rstrip_slash (unsplit l +:+ "/") = unsplit l.
Proof.
  intros Hsf Hne Hlast. unfold rstrip_slash.
  rewrite <- (app_empty_r (unsplit l +:+ "/")), app_assoc, split_app_slash.
  rewrite split_unsplit by done. simpl split.
  set (go := fix go (l : list string) : list string :=
    match l with
    | [] => []
    | x :: l' => match go l' with
                 | [] => if String.eqb x "" then [] else [x]
                 | r => x :: r
                 end
    end).
  assert (Hgo : forall k, k <> [] -> List.last k "" <> "" -> go (k ++ [""])%list = k).
  { induction k as [|x k IH]; [done|]. intros _ Hl.
    destruct k as [|y k].
    - simpl in *. by rewrite (eqb_empty_false x Hl).
    - change (go ((x :: y :: k) ++ [""])%list)
        with (match go ((y :: k) ++ [""])%list with
              | [] => if String.eqb x "" then [] else [x]
              | r => x :: r
              end).
      by rewrite IH. }
  by rewrite Hgo.
Qed.

(** The directory part of a path built by [join] from entry names. *)
Lemma dirname_join_unsplit (s : string) (ns : list string) :
  endswith_slash s = false -> names s <> [] -> Forall plain_nm ns -> ns <> [] ->
  dirname (join s (unsplit ns))
  = match removelast ns with [] => s | r => join s (unsplit r) end.
Proof.
  intros Hs Hnm Hns Hne.
  assert (Hsne : s <> "") by (by intros ->).
  pose proof (is_abs_unsplit_plain ns Hns) as Hrel.
  pose proof (removelast_plain ns Hns) as Hr.
  rewrite (join_rel s (unsplit ns) Hrel), (eqb_empty_false s Hsne), Hs.
  simpl orb. cbv iota.
  assert (Hsplit : removelast (split (s +:+ "/" +:+ unsplit ns))
                   = (split s ++ removelast ns)%list).
  { rewrite split_app_slash, split_unsplit by (done || by apply plain_slash_free_list).
    by rewrite removelast_app. }
  assert (Hhd : (split s ++ removelast ns)%list <> []).
  { intros [E _]%app_eq_nil. by destruct (split_nonnil s). }
  rewrite (dirname_split _ _ Hsplit Hhd).
  rewrite forallb_empty_names by done.
  rewrite rstrip_slash_unsplit; [| |done|].
  - destruct (removelast ns) as [|r0 r] eqn:Er.
    + by rewrite List.app_nil_r, unsplit_split.
    + rewrite (join_rel s (unsplit (r0 :: r)) (is_abs_unsplit_plain _ Hr)).
      rewrite (eqb_empty_false s Hsne), Hs. simpl orb. cbv iota.
      rewrite unsplit_app by (done || apply split_nonnil).
      by rewrite unsplit_split.
  - apply Forall_app. split; [apply split_slash_free_elems|by apply plain_slash_free_list].
  - destruct (removelast ns) as [|r0 r] eqn:Er.
    + rewrite List.app_nil_r. by apply last_split_nonempty.
    + rewrite last_app_ne by done.
      apply plain_name_neq_empty. by apply (last_plain (r0 :: r)).
Qed.

(** *** [normpath] and [relpath] *)

Lemma norm_comps_app (abs : bool) (acc cs1 cs2 : list string) :
  norm_comps abs acc (cs1 ++ cs2) = norm_comps abs (rev (norm_comps abs acc cs1)) cs2.
Proof.
  revert acc. induction cs1 as [|c cs1 IH]; intros acc; simpl.
  - by rewrite rev_involutive.
  - destruct (String.eqb c "" || String.eqb c "."); [apply IH|].
    destruct (negb (String.eqb c "..")); [apply IH|].
    destruct acc as [|top acc]; [destruct abs; apply IH|].
    destruct (String.eqb top ".."); apply IH.
Qed.

Lemma norm_comps_plain (abs : bool) (acc ns : list string) :
  Forall plain_nm ns -> norm_comps abs acc ns = (rev acc ++ ns)%list.
Proof.
  intros Hns. revert acc. induction Hns as [|c ns Hc Hns IH]; intros acc; simpl.
  - by rewrite List.app_nil_r.
  - destruct (plain_name_not_dot c Hc) as [H1 H2].
    rewrite (eqb_empty_false c (plain_name_neq_empty c Hc)), H1, H2. simpl.
    rewrite IH. simpl. by rewrite <- List.app_assoc.
Qed.

Lemma norm_comps_filter (abs : bool) (acc cs : list string) :
  norm_comps abs acc (List.filter nonempty cs) = norm_comps abs acc cs.
Proof.
  revert acc. induction cs as [|c cs IH]; intros acc; [done|].
  simpl. unfold nonempty at 1. destruct (String.eqb c "") eqn:Ec; simpl; [apply IH|].
  rewrite Ec. simpl.
  destruct (String.eqb c "."); [apply IH|].
  destruct (negb (String.eqb c "..")); [apply IH|].
  destruct acc as [|top acc]; [destruct abs; apply IH|].
  destruct (String.eqb top ".."); apply IH.
Qed.

Lemma norm_comps_valid (abs : bool) (acc cs : list string) :
  Forall valid_nm acc -> Forall (fun x => slash_free x = true) cs ->
  Forall valid_nm (norm_comps abs acc cs).
Proof.
  intros Hacc Hcs. revert acc Hacc.
  induction Hcs as [|c cs Hc Hcs IH]; intros acc Hacc; simpl.
  - by apply Forall_rev.
  - destruct (String.eqb c "") eqn:Ec; simpl; [by apply IH|].
    assert (Hv : valid_nm c) by (split; [unfold nonempty; by rewrite Ec|done]).
    destruct (String.eqb c "."); [by apply IH|].
    destruct (negb (String.eqb c "..")); [apply IH; by constructor|].
    destruct acc as [|top acc].
    { destruct abs; apply IH; first [apply Forall_nil_2 | by apply Forall_cons_2]. }
    destruct (String.eqb top ".."); apply IH; [by apply Forall_cons_2|].
    by apply Forall_cons in Hacc as [_ ?].
Qed.

Lemma is_abs_join_abs (a b : string) : is_abs a = true -> is_abs (join a b) = true.
Proof.
  intros Ha. unfold join. destruct (is_abs b) eqn:Hb; [done|].
  assert (a <> "") by (by intros ->).
  destruct (String.eqb a "" || endswith_slash a); by rewrite is_abs_app.
Qed.

Lemma names_slash_app (x : string) : names ("/" +:+ x) = names x.
Proof. unfold names. by unfold_app. Qed.

(** The names of a normalised absolute path. *)
Lemma names_normpath_abs (s : string) :
  is_abs s = true -> names (normpath s) = norm_comps true [] (split s).
Proof.
  intros Hs. unfold normpath. rewrite Hs.
  assert (s <> "") by (by intros ->). rewrite (eqb_empty_false s) by done.
  set (B := norm_comps true [] (split s)).
  assert (HB : Forall valid_nm B)
    by (apply norm_comps_valid; [done|apply split_slash_free_elems]).
  destruct (startswith s "//" && negb (startswith s "///")).
  - change ("//" +:+ unsplit B) with ("/" +:+ ("/" +:+ unsplit B)).
    rewrite eqb_empty_false by (unfold_app; done).
    by rewrite !names_slash_app, names_unsplit_valid.
  - rewrite eqb_empty_false by (unfold_app; done).
    by rewrite names_slash_app, names_unsplit_valid.
Qed.

Lemma common_prefix_len_app (a b : list string) :
  common_prefix_len a (a ++ b) = length a.
Proof.
  induction a as [|x a IH]; [by destruct b|]. simpl.
  by rewrite String.eqb_refl, IH.
Qed.

(** The path of an entry below [start], taken relative to [start]. *)
Lemma relpath_join_unsplit (cwd start : string) (ns : list string) :
  is_abs cwd = true -> Forall plain_nm ns -> ns <> [] ->
  relpath cwd (join start (unsplit ns)) start = Some (unsplit ns).
Proof.
  intros Hcwd Hns Hne.
  pose proof (is_abs_unsplit_plain ns Hns) as Hrel.
  pose proof (unsplit_plain_neq_empty ns Hns Hne) as Hune.
  unfold relpath.
  rewrite (eqb_empty_false _ (join_neq_empty start _ Hune)).
  fold (names (abspath cwd start)). fold (names (abspath cwd (join start (unsplit ns)))).
  unfold abspath. rewrite (join_assoc cwd start _ Hrel).
  set (J := join cwd start).
  assert (HJ : is_abs J = true) by (by apply is_abs_join_abs).
  rewrite (names_normpath_abs J HJ).
  rewrite (names_normpath_abs _ (is_abs_join_abs J (unsplit ns) HJ)).
  destruct (split_join_unsplit J ns Hns Hne) as (pre & -> & Hpre).
  rewrite norm_comps_app, (norm_comps_plain _ _ ns Hns), rev_involutive.
  rewrite <- (norm_comps_filter true [] pre), Hpre.
  unfold names. rewrite norm_comps_filter.
  set (B := norm_comps true [] (split J)).
  rewrite common_prefix_len_app, Nat.sub_diag, drop_app_length. simpl.
  destruct ns as [|n ns]; [done|].
  rewrite foldl_join_unsplit by done.
  by rewrite join_rel.
Qed.

End PathFacts.

(** ** The file system *)

Section OsFacts.
Import Os Os.Notations.
Local Open Scope string_scope.
Context `{Platform}.

Lemma outcome_cases {A} (o : outcome A) :
  (exists a, o = Ret a (final_fs o)) \/ (exists e, o = Raise e (final_fs o)).
Proof. destruct o; [left|right]; eauto. Qed.

Lemma value_ret {A} (o : outcome A) (a : A) :
  value o = Some a -> o = Ret a (final_fs o).
Proof. destruct o; simpl; congruence. Qed.

Lemma raised_raise {A} (o : outcome A) (e : exn) :
  raised o = Some e -> o = Raise e (final_fs o).
Proof. destruct o; simpl; congruence. Qed.

Lemma final_fs_raise {A : Type} (e : exn) (m : fs) : final_fs (Raise (A := A) e m) = m.
Proof. reflexivity. Qed.

Lemma value_is_ret {A} (o : outcome A) :
  is_Some (value o) -> exists a, o = Ret a (final_fs o).
Proof. destruct o; simpl; [eauto|by intros [? ?]]. Qed.

Lemma walk_to_app (m : fs) (cur : path) (cs1 cs2 : list string) :
  walk_to m cur (cs1 ++ cs2)
  = match walk_to m cur cs1 with
    | inl e => inl e
    | inr p => walk_to m p cs2
    end.
Proof.
  revert cur. induction cs1 as [|c cs1 IH]; intros cur; simpl; [reflexivity|].
  destruct (node_at m cur) as [[d|]|]; try reflexivity.
  destruct (String.eqb c "."); [apply IH|].
  destruct (String.eqb c ".."); apply IH.
Qed.

(** Resolution only looks at which locations are directories. *)
Lemma walk_to_mono (m m' : fs) (cur : path) (cs : list string) (p : path) :
  (forall q, is_dir_at m q = true -> is_dir_at m' q = true) ->
  walk_to m cur cs = inr p -> walk_to m' cur cs = inr p.
Proof.
  intros Hsub. revert cur. induction cs as [|c cs IH]; intros cur; simpl; [done|].
  destruct (node_at m cur) as [[d|]|] eqn:Hn; try discriminate.
  assert (Hd : is_dir_at m' cur = true)
    by (apply Hsub; unfold is_dir_at; by rewrite Hn).
  unfold is_dir_at in Hd. destruct (node_at m' cur) as [[d|]|]; try discriminate.
  destruct (String.eqb c "."); [apply IH|].
  destruct (String.eqb c ".."); apply IH.
Qed.

Lemma resolve_mono (m m' : fs) (s : string) (p : path) :
  (forall q, is_dir_at m q = true -> is_dir_at m' q = true) ->
  resolve m s = inr p -> resolve m' s = inr p.
Proof.
  intros Hsub. unfold resolve. destruct (String.eqb s ""); [done|].
  by apply walk_to_mono.
Qed.

Lemma resolve_nonempty (m : fs) (s : string) (p : path) :
  resolve m s = inr p -> s <> "".
Proof. unfold resolve. intros Hr ->. discriminate. Qed.

Lemma walk_to_names (m : fs) (x : string) (p : path) :
  walk_to m [] (Path.components x) = inr p ->
  walk_to m [] (Path.names x) = inr p.
Proof.
  unfold Path.components. fold (Path.names x).
  destruct (Path.endswith_slash x); [|by rewrite List.app_nil_r].
  rewrite walk_to_app. destruct (walk_to m [] (Path.names x)) as [e|q]; [done|].
  simpl. destruct (node_at m q) as [[d|]|]; done.
Qed.

Lemma walk_to_components (m : fs) (x : string) (p : path) :
  walk_to m [] (Path.names x) = inr p -> is_dir_at m p = true ->
  walk_to m [] (Path.components x) = inr p.
Proof.
  intros Hw Hd. unfold Path.components. fold (Path.names x).
  rewrite walk_to_app, Hw.
  destruct (Path.endswith_slash x); [|done].
  simpl. unfold is_dir_at in Hd. destruct (node_at m p) as [[d|]|]; done.
Qed.

Lemma components_join_plain (x b : string) :
  Path.plain_name b = true ->
  Path.components (Path.join x b) = (Path.names x ++ [b])%list.
Proof.
  intros Hb. unfold Path.components. fold (Path.names (Path.join x b)).
  rewrite PathFacts.names_join by (by apply PathFacts.plain_name_not_abs).
  rewrite PathFacts.endswith_slash_join by (by apply PathFacts.plain_name_neq_empty).
  rewrite PathFacts.slash_free_last_char by (by apply PathFacts.plain_name_slash_free).
  by rewrite (PathFacts.names_plain b Hb), List.app_nil_r.
Qed.

Lemma walk_to_plain (m : fs) (pa : path) (b : string) :
  Path.plain_name b = true ->
  walk_to m pa [b] = if is_dir_at m pa then inr (pa ++ [b])%list
                     else match node_at m pa with
                          | None => inl FileNotFoundError
                          | _ => inl NotADirectoryError
                          end.
Proof.
  intros Hb. destruct (PathFacts.plain_name_not_dot b Hb) as [H1 H2].
  simpl. unfold is_dir_at. rewrite H1, H2.
  destruct (node_at m pa) as [[d|]|]; reflexivity.
Qed.


Lemma resolve_locate (m : fs) (a : string) (p : path) :
  resolve m a = inr p -> locate m a = inr p.
Proof.
  unfold resolve, locate. destruct (String.eqb a ""); [done|]. apply walk_to_names.
Qed.

Lemma locate_resolve (m : fs) (a : string) (p : path) :
  a <> "" -> locate m a = inr p -> is_dir_at m p = true -> resolve m a = inr p.
Proof.
  intros Ha Hl Hd. unfold resolve. rewrite (PathFacts.eqb_empty_false a Ha).
  by apply walk_to_components.
Qed.

(** Resolving [join a b] for an entry name [b]: go where [a] leads, which
    must be a directory, and step to [b]. *)
Lemma resolve_join_iff (m : fs) (a b : string) (p : path) :
  Path.plain_name b = true ->
  resolve m (Path.join a b) = inr p
  <-> exists pa, locate m a = inr pa /\ is_dir_at m pa = true /\ p = (pa ++ [b])%list.
Proof.
  intros Hb.
  pose proof (PathFacts.plain_name_neq_empty b Hb) as Hbne.
  pose proof (PathFacts.plain_name_not_abs b Hb) as Hrel.
  unfold resolve, locate.
  rewrite (PathFacts.eqb_empty_false _ (PathFacts.join_neq_empty a b Hbne)).
  rewrite (PathFacts.join_assoc cwd a b Hrel).
  rewrite (components_join_plain _ b Hb), walk_to_app.
  destruct (walk_to m [] (Path.names (Path.join cwd a))) as [e|pa] eqn:Hw.
  - split; [done|]. by intros (pa & ? & _).
  - rewrite (walk_to_plain m pa b Hb). split.
    + destruct (is_dir_at m pa) eqn:Hd.
      * intros [= <-]. by exists pa.
      * destruct (node_at m pa); done.
    + intros (pa' & [= <-] & Hd & ->). by rewrite Hd.
Qed.

Lemma locate_join_iff (m : fs) (a b : string) (p : path) :
  Path.plain_name b = true ->
  locate m (Path.join a b) = inr p
  <-> exists pa, locate m a = inr pa /\ is_dir_at m pa = true /\ p = (pa ++ [b])%list.
Proof.
  intros Hb.
  pose proof (PathFacts.plain_name_not_abs b Hb) as Hrel.
  unfold locate.
  rewrite (PathFacts.join_assoc cwd a b Hrel).
  rewrite (PathFacts.names_join _ b Hrel), (PathFacts.names_plain b Hb), walk_to_app.
  destruct (walk_to m [] (Path.names (Path.join cwd a))) as [e|pa] eqn:Hw.
  - split; [done|]. by intros (pa & ? & _).
  - rewrite (walk_to_plain m pa b Hb). split.
    + destruct (is_dir_at m pa) eqn:Hd.
      * intros [= <-]. by exists pa.
      * destruct (node_at m pa); done.
    + intros (pa' & [= <-] & Hd & ->). by rewrite Hd.
Qed.

Lemma resolve_join (m : fs) (a b : string) (pa : path) :
  locate m a = inr pa -> is_dir_at m pa = true -> Path.plain_name b = true ->
  resolve m (Path.join a b) = inr (pa ++ [b])%list.
Proof. intros Ha Hd Hb. apply resolve_join_iff; eauto. Qed.

Lemma is_dir_at_root (m : fs) : is_dir_at m [] = true.
Proof. reflexivity. Qed.

Lemma node_at_insert_ne (m : fs) (k q : path) (n : node) :
  k <> q -> k <> [] -> node_at (<[k := n]> m) q = node_at m q.
Proof.
  intros Hne Hk. destruct q as [|c q]; [reflexivity|]. simpl.
  by rewrite lookup_insert_ne.
Qed.

Lemma node_at_insert_eq (m : fs) (k : path) (n : node) :
  k <> [] -> node_at (<[k := n]> m) k = Some n.
Proof. intros Hk. destruct k; [done|]. simpl. by rewrite lookup_insert_eq. Qed.

Lemma not_dir_nonroot (m : fs) (k : path) : is_dir_at m k = false -> k <> [].
Proof. intros Hd ->. discriminate. Qed.

(** Writing a file where no directory is keeps the directories. *)
Lemma is_dir_at_insert_file (m : fs) (k q : path) (d : data) :
  is_dir_at m k = false -> is_dir_at (<[k := File d]> m) q = is_dir_at m q.
Proof.
  intros Hk. pose proof (not_dir_nonroot m k Hk) as Hne.
  unfold is_dir_at. destruct (decide (k = q)) as [<-|Hkq].
  - rewrite node_at_insert_eq by done. unfold is_dir_at in Hk.
    by destruct (node_at m k) as [[?|]|].
  - by rewrite node_at_insert_ne.
Qed.

Lemma node_at_delete_ne (m : fs) (k q : path) :
  k <> q -> node_at (delete k m) q = node_at m q.
Proof.
  intros Hne. destruct q as [|c q]; [reflexivity|]. simpl.
  by rewrite lookup_delete_ne.
Qed.

Lemma is_dir_at_delete_file (m : fs) (k q : path) :
  is_dir_at m k = false -> is_dir_at (delete k m) q = is_dir_at m q.
Proof.
  intros Hk. pose proof (not_dir_nonroot m k Hk) as Hne.
  unfold is_dir_at. destruct (decide (k = q)) as [<-|Hkq].
  - unfold is_dir_at in Hk. destruct k as [|c k]; [done|]. simpl in *.
    rewrite lookup_delete_eq. by destruct (m !! (c :: k)) as [[?|]|].
  - by rewrite node_at_delete_ne.
Qed.

Lemma resolve_insert_file (m : fs) (k : path) (d : data) (s : string) (p : path) :
  is_dir_at m k = false ->
  resolve (<[k := File d]> m) s = inr p <-> resolve m s = inr p.
Proof.
  intros Hk. split; apply resolve_mono; intros q;
    by rewrite is_dir_at_insert_file.
Qed.

Lemma resolve_delete_file (m : fs) (k : path) (s : string) (p : path) :
  is_dir_at m k = false ->
  resolve (delete k m) s = inr p <-> resolve m s = inr p.
Proof.
  intros Hk. split; apply resolve_mono; intros q;
    by rewrite is_dir_at_delete_file.
Qed.

(** What [write_data] does when it returns. *)
Lemma write_data_ret (s : string) (d : data) (m m' : fs) :
  write_data s d m = Ret tt m'
  <-> exists k, resolve m s = inr k /\ is_dir_at m k = false
                /\ m' = <[k := File d]> m.
Proof.
  unfold write_data, is_dir_at. split.
  - destruct (resolve m s) as [e|k]; [done|].
    destruct (node_at m k) as [[d'|]|] eqn:Hn; try done;
      intros [= <-]; exists k; by rewrite Hn.
  - intros (k & -> & Hd & ->).
    by destruct (node_at m k) as [[d'|]|].
Qed.

(** When it raises, nothing was written. *)
Lemma write_data_raise (s : string) (d : data) (m m' : fs) (e : exn) :
  write_data s d m = Raise e m' -> m' = m.
Proof.
  unfold write_data. destruct (resolve m s) as [e'|k]; [by intros [= _ <-]|].
  destruct (node_at m k) as [[d'|]|]; by intros [= _ <-] || done.
Qed.

Lemma read_data_pure (s : string) (m : fs) : final_fs (read_data s m) = m.
Proof.
  unfold read_data. by destruct (stat m s) as [e|[p [d|]]].
Qed.

(** Reading back what was just written. *)
Lemma read_data_insert (m : fs) (k : path) (d : data) (s : string) :
  resolve m s = inr k -> is_dir_at m k = false ->
  read_data s (<[k := File d]> m) = Ret d (<[k := File d]> m).
Proof.
  intros Hr Hk. unfold read_data, stat.
  rewrite (proj2 (resolve_insert_file m k d s k Hk) Hr).
  by rewrite node_at_insert_eq by (by eapply not_dir_nonroot).
Qed.

End OsFacts.

(** *** Where the file system changes *)

Section Frames.
Import Os Os.Notations.
Local Open Scope string_scope.
Context `{Platform}.

Local Abbreviation plain_nm := (fun c : string => Path.plain_name c = true).
Local Abbreviation valid_nm :=
  (fun c : string => Path.nonempty c = true /\ Path.slash_free c = true).

Lemma grows_in_refl (R : path) (m : fs) : grows_in R m m.
Proof. by split. Qed.

Lemma grows_in_trans (R : path) (m1 m2 m3 : fs) :
  grows_in R m1 m2 -> grows_in R m2 m3 -> grows_in R m1 m3.
Proof.
  intros [Ha Hb] [Hc Hd]. split.
  - intros q Hq. by rewrite Hc, Ha.
  - intros q Hq. by apply Hd, Hb.
Qed.

Lemma grows_in_weaken (R R' : path) (m m' : fs) :
  R `prefix_of` R' -> grows_in R' m m' -> grows_in R m m'.
Proof.
  intros HR [Ha Hb]. split; [|done].
  intros q Hq. apply Ha. intros Hq'. apply Hq. by etrans.
Qed.

(** Creating a directory where nothing is. *)
Lemma grows_in_insert_dir (R : path) (m : fs) (k : path) :
  R `prefix_of` k -> node_at m k = None -> grows_in R m (<[k := Dir]> m).
Proof.
  intros HR Hk. assert (Hne : k <> []) by (by intros ->).
  split.
  - intros q Hq. apply lookup_insert_ne. by intros <-.
  - intros q Hq. unfold is_dir_at in *. destruct (decide (k = q)) as [<-|Hkq].
    + by rewrite node_at_insert_eq.
    + by rewrite node_at_insert_ne.
Qed.

(** Writing a file where no directory is. *)
Lemma grows_in_insert_file (R : path) (m : fs) (k : path) (d : data) :
  R `prefix_of` k -> is_dir_at m k = false -> grows_in R m (<[k := File d]> m).
Proof.
  intros HR Hk. split.
  - intros q Hq. apply lookup_insert_ne. by intros <-.
  - intros q Hq. by rewrite is_dir_at_insert_file.
Qed.

(** Where a walk arrives does not depend on the file system. *)
Lemma walk_to_det (m m' : fs) (cur : path) (cs : list string) (p p' : path) :
  walk_to m cur cs = inr p -> walk_to m' cur cs = inr p' -> p = p'.
Proof.
  revert cur. induction cs as [|c cs IH]; intros cur; simpl; [congruence|].
  destruct (node_at m cur) as [[d|]|]; try discriminate.
  destruct (node_at m' cur) as [[d|]|]; try discriminate.
  destruct (String.eqb c "."); [apply IH|].
  destruct (String.eqb c ".."); apply IH.
Qed.

Lemma resolve_det (m m' : fs) (s : string) (p p' : path) :
  resolve m s = inr p -> resolve m' s = inr p' -> p = p'.
Proof.
  unfold resolve. destruct (String.eqb s ""); [done|]. apply walk_to_det.
Qed.

(** Walking down entry names appends them. *)
Lemma walk_to_plain_names (m : fs) (cur : path) (ps : list string) (p : path) :
  Forall plain_nm ps -> walk_to m cur ps = inr p -> p = (cur ++ ps)%list.
Proof.
  intros Hps. revert cur. induction Hps as [|c ps Hc Hps IH]; intros cur; simpl.
  - intros [= <-]. by rewrite List.app_nil_r.
  - destruct (PathFacts.plain_name_not_dot c Hc) as [H1 H2]. rewrite H1, H2.
    destruct (node_at m cur) as [[d|]|]; try discriminate.
    intros Hw. rewrite (IH _ Hw). by rewrite <- List.app_assoc.
Qed.

Lemma valid_step_plain (c : string) :
  valid_nm c -> String.eqb c "." = false -> String.eqb c ".." = false ->
  Path.plain_name c = true.
Proof.
  intros [Hn Hs] H1 H2. unfold Path.plain_name. by rewrite Hn, H1, H2, Hs.
Qed.

Lemma removelast_Forall {A} (P : A -> Prop) (l : list A) :
  Forall P l -> Forall P (removelast l).
Proof.
  induction 1 as [|x l Hx Hl IH]; [done|].
  simpl. destruct l; [done|]. by apply Forall_cons_2.
Qed.

(** A walk only ever arrives at entry names. *)
Lemma walk_to_plain_result (m : fs) (cur : path) (cs : list string) (p : path) :
  Forall plain_nm cur -> Forall valid_nm cs ->
  walk_to m cur cs = inr p -> Forall plain_nm p.
Proof.
  intros Hcur Hcs. revert cur Hcur.
  induction Hcs as [|c cs Hc Hcs IH]; intros cur Hcur; simpl; [by intros [= <-]|].
  destruct (node_at m cur) as [[d|]|]; try discriminate.
  destruct (String.eqb c ".") eqn:H1; [by apply IH|].
  destruct (String.eqb c "..") eqn:H2; [apply IH; by apply removelast_Forall|].
  apply IH. apply Forall_app. split; [done|].
  apply Forall_cons_2; [by apply valid_step_plain|apply Forall_nil_2].
Qed.

Lemma components_valid (s : string) : Forall valid_nm (Path.components s).
Proof.
  unfold Path.components. fold (Path.names s). apply Forall_app. split.
  - apply PathFacts.names_valid.
  - destruct (Path.endswith_slash s); [|apply Forall_nil_2].
    apply Forall_cons_2; [done|apply Forall_nil_2].
Qed.

Lemma resolve_plain_result (m : fs) (s : string) (p : path) :
  resolve m s = inr p -> Forall plain_nm p.
Proof.
  unfold resolve. destruct (String.eqb s ""); [done|].
  apply walk_to_plain_result; [apply Forall_nil_2|apply components_valid].
Qed.


(** *** [makedirs] *)

Lemma make_parents_app (cur : path) (cs1 cs2 : list string) (m : fs) :
  make_parents cur (cs1 ++ cs2) m
  = match make_parents cur cs1 m with
    | Ret p m1 => make_parents p cs2 m1
    | Raise e m1 => Raise e m1
    end.
Proof.
  revert cur m. induction cs1 as [|c cs1 IH]; intros cur m; simpl; [done|].
  destruct (node_at m cur) as [[d|]|]; try done.
  destruct (String.eqb c "."); [apply IH|].
  destruct (String.eqb c ".."); [apply IH|].
  destruct (node_at m (cur ++ [c])); apply IH.
Qed.

(** Along directories that exist, [makedirs] creates nothing. *)
Lemma make_parents_existing (m : fs) (cur : path) (cs : list string) (p : path) :
  walk_to m cur cs = inr p -> is_dir_at m p = true ->
  make_parents cur cs m = Ret p m.
Proof.
  revert cur. induction cs as [|c cs IH]; intros cur; simpl; [by intros [= <-]|].
  destruct (node_at m cur) as [[d|]|]; try discriminate.
  destruct (String.eqb c "."); [apply IH|].
  destruct (String.eqb c ".."); [apply IH|].
  intros Hw Hp.
  assert (Hd : is_dir_at m (cur ++ [c]) = true).
  { destruct cs as [|c' cs]; simpl in Hw.
    - by injection Hw as <-.
    - unfold is_dir_at. by destruct (node_at m (cur ++ [c])) as [[d|]|]. }
  unfold is_dir_at in Hd.
  destruct (node_at m (cur ++ [c])) as [[d|]|]; try discriminate.
  by apply IH.
Qed.

Lemma make_parents_step (cur : path) (c : string) (cs : list string) (m : fs) :
  Path.plain_name c = true ->
  make_parents cur (c :: cs) m
  = match node_at m cur with
    | None => Raise FileNotFoundError m
    | Some (File _) => Raise NotADirectoryError m
    | Some Dir =>
        match node_at m (cur ++ [c])%list with
        | None => make_parents (cur ++ [c])%list cs (<[(cur ++ [c])%list := Dir]> m)
        | Some _ => make_parents (cur ++ [c])%list cs m
        end
    end.
Proof.
  intros Hc. destruct (PathFacts.plain_name_not_dot c Hc) as [H1 H2].
  simpl. by rewrite H1, H2.
Qed.

(** Below [cur], the missing directories are created on the way down the
    entry names [c :: ps], and nothing else changes. *)
Lemma make_parents_plain (cur : path) (c : string) (ps : list string) (m : fs) :
  Forall plain_nm (c :: ps) ->
  grows_in (cur ++ [c]) m (final_fs (make_parents cur (c :: ps) m))
  /\ forall p m', make_parents cur (c :: ps) m = Ret p m' -> p = (cur ++ c :: ps)%list.
Proof.
  revert cur c m. induction ps as [|c' ps IH]; intros cur c m Hps.
  - apply Forall_cons in Hps as [Hc _].
    rewrite make_parents_step by done.
    destruct (node_at m cur) as [[d|]|]; simpl;
      try (split; [apply grows_in_refl|done]).
    destruct (node_at m (cur ++ [c])) eqn:Hn; simpl.
    + split; [apply grows_in_refl|]. by intros p m' [= <- _].
    + split; [by apply grows_in_insert_dir|]. by intros p m' [= <- _].
  - apply Forall_cons in Hps as [Hc Hps].
    rewrite make_parents_step by done.
    destruct (node_at m cur) as [[d|]|]; cbv iota;
      try (split; [apply grows_in_refl|done]).
    assert (Hpre : (cur ++ [c])%list `prefix_of` ((cur ++ [c]) ++ [c'])%list) by (by eexists).
    destruct (node_at m (cur ++ [c])) eqn:Hn.
    + destruct (IH (cur ++ [c])%list c' m Hps) as [Hg Hp]. split.
      * by eapply grows_in_weaken.
      * intros p m' Hr. rewrite (Hp p m' Hr). by rewrite <- List.app_assoc.
    + destruct (IH (cur ++ [c])%list c' (<[(cur ++ [c])%list := Dir]> m) Hps) as [Hg Hp]. split.
      * eapply grows_in_trans; [by apply (grows_in_insert_dir _ m (cur ++ [c])%list)|].
        by eapply grows_in_weaken.
      * intros p m' Hr. rewrite (Hp p m' Hr). by rewrite <- List.app_assoc.
Qed.


Lemma last_app_cons {A} (l : list A) (x : A) (t : list A) :
  last (l ++ x :: t) = last (x :: t).
Proof.
  rewrite last_app. destruct (last (x :: t)) eqn:E; [done|].
  by apply last_None in E.
Qed.

Lemma last_plain_cons (c : string) (tail : list string) :
  Forall plain_nm (c :: tail) ->
  exists lt, last (c :: tail) = Some lt /\ Path.plain_name lt = true
             /\ (c :: tail = removelast (c :: tail) ++ [lt])%list.
Proof.
  intros Hps. destruct (last (c :: tail)) as [lt|] eqn:Hl.
  - exists lt. pose proof Hl as Hl'. apply last_Some in Hl as [l' Hl].
    rewrite Hl in Hps. apply Forall_app in Hps as [_ [Hlt _]%Forall_cons].
    split; [done|]. split; [done|]. rewrite Hl at 2.
    by rewrite removelast_last.
  - by apply last_None in Hl.
Qed.

(** [makedirs] of a path that leaves the existing directory [d] by the
    entry names [c :: tail] changes the file system below [d/c] only. *)
Lemma makedirs_grows (s : string) (ok : bool) (m : fs)
    (route : list string) (d : path) (c : string) (tail : list string) :
  Path.names (Path.join cwd s) = (route ++ c :: tail)%list ->
  Forall plain_nm (c :: tail) ->
  walk_to m [] route = inr d -> is_dir_at m d = true ->
  grows_in (d ++ [c]) m (final_fs (makedirs s ok m)).
Proof.
  intros Hnames Hps Hroute Hd. unfold makedirs.
  destruct (String.eqb s ""); [apply grows_in_refl|].
  rewrite Hnames. rewrite removelast_app by done. rewrite make_parents_app.
  rewrite (make_parents_existing m [] route d Hroute Hd).
  rewrite last_app_cons.
  destruct (last_plain_cons c tail Hps) as (lt & Hlast & Hlt & Hsplit).
  rewrite Hlast. destruct (PathFacts.plain_name_not_dot lt Hlt) as [H1 H2].
  rewrite H1, H2.
  destruct tail as [|t1 tail].
  - simpl. unfold is_dir_at in Hd.
    destruct (node_at m d) as [[x|]|]; try discriminate.
    injection Hlast as <-.
    destruct (node_at m (d ++ [c])) as [[x|]|] eqn:Hn; simpl;
      try apply grows_in_refl.
    + destruct ok; apply grows_in_refl.
    + by apply grows_in_insert_dir.
  - change (removelast (c :: t1 :: tail)) with (c :: removelast (t1 :: tail)).
    assert (Hps' : Forall plain_nm (c :: removelast (t1 :: tail))).
    { apply Forall_cons in Hps as [Hc Hps]. apply Forall_cons_2; [done|].
      by apply removelast_Forall. }
    destruct (make_parents_plain d c (removelast (t1 :: tail)) m Hps') as [Hg Hp].
    destruct (make_parents d (c :: removelast (t1 :: tail)) m) as [p m1|e m1];
      [|exact Hg].
    simpl in Hg. rewrite (Hp p m1 eq_refl).
    set (p' := (d ++ c :: removelast (t1 :: tail))%list).
    destruct (node_at m1 p') as [[x|]|]; try exact Hg.
    destruct (node_at m1 (p' ++ [lt])) as [[x|]|] eqn:Hn; simpl; try exact Hg.
    + by destruct ok.
    + eapply grows_in_trans; [exact Hg|].
      apply grows_in_insert_dir; [|done].
      exists (removelast (t1 :: tail) ++ [lt])%list. unfold p'.
      by rewrite <- !List.app_assoc.
Qed.

(** *** Entry names stay entry names *)

Lemma wf_fs_insert (m : fs) (k : path) (n : node) :
  wf_fs m -> Forall plain_nm k -> wf_fs (<[k := n]> m).
Proof. intros Hm Hk. by apply map_Forall_insert_2. Qed.

Lemma wf_fs_delete (m : fs) (k : path) : wf_fs m -> wf_fs (delete k m).
Proof. intros Hm. by apply map_Forall_delete. Qed.

Lemma make_parents_wf (cur : path) (cs : list string) (m : fs) :
  wf_fs m -> Forall plain_nm cur -> Forall valid_nm cs ->
  wf_fs (final_fs (make_parents cur cs m))
  /\ forall p m', make_parents cur cs m = Ret p m' -> Forall plain_nm p.
Proof.
  intros Hm Hcur Hcs. revert cur m Hm Hcur.
  induction Hcs as [|c cs Hc Hcs IH]; intros cur m Hm Hcur; simpl.
  - split; [done|]. by intros p m' [= <- _].
  - destruct (node_at m cur) as [[d|]|]; try (split; done).
    destruct (String.eqb c ".") eqn:H1; [by apply IH|].
    destruct (String.eqb c "..") eqn:H2; [apply IH; [done|by apply removelast_Forall]|].
    assert (Hnxt : Forall plain_nm (cur ++ [c])).
    { apply Forall_app. split; [done|].
      apply Forall_cons_2; [by apply valid_step_plain|apply Forall_nil_2]. }
    destruct (node_at m (cur ++ [c])); apply IH; try done.
    by apply wf_fs_insert.
Qed.

Lemma last_valid (cs : list string) (c : string) :
  Forall valid_nm cs -> last cs = Some c -> valid_nm c.
Proof.
  intros Hcs [l' ->]%last_Some. by apply Forall_app in Hcs as [_ [? _]%Forall_cons].
Qed.

Lemma makedirs_wf (s : string) (ok : bool) (m : fs) :
  wf_fs m -> wf_fs (final_fs (makedirs s ok m)).
Proof.
  intros Hm. unfold makedirs.
  destruct (String.eqb s ""); [done|].
  pose proof (PathFacts.names_valid (Path.join cwd s)) as Hv.
  destruct (make_parents_wf [] (removelast (Path.names (Path.join cwd s))) m Hm)
    as [Hwf Hp]; [apply Forall_nil_2|by apply removelast_Forall|].
  destruct (make_parents [] (removelast (Path.names (Path.join cwd s))) m)
    as [cur m1|e m1]; [|done].
  simpl in Hwf. specialize (Hp cur m1 eq_refl).
  destruct (node_at m1 cur) as [[x|]|]; try done.
  match goal with |- context [node_at m1 ?t] => set (target := t) end.
  assert (Ht : Forall plain_nm target).
  { unfold target. destruct (last (Path.names (Path.join cwd s))) as [c|] eqn:Hl; [|done].
    pose proof (last_valid _ c Hv Hl) as Hc.
    destruct (String.eqb c ".") eqn:H1; [done|].
    destruct (String.eqb c "..") eqn:H2; [by apply removelast_Forall|].
    apply Forall_app. split; [done|].
    apply Forall_cons_2; [by apply valid_step_plain|apply Forall_nil_2]. }
  destruct (node_at m1 target) as [[x|]|]; simpl; try done.
  - by destruct ok.
  - by apply wf_fs_insert.
Qed.

(** *** Writing files *)

Lemma write_data_wf (s : string) (d : data) (m : fs) :
  wf_fs m -> wf_fs (final_fs (write_data s d m)).
Proof.
  intros Hm. unfold write_data.
  destruct (resolve m s) as [e|p] eqn:Hr; [done|].
  pose proof (resolve_plain_result m s p Hr) as Hp.
  destruct (node_at m p) as [[x|]|]; simpl; try done; by apply wf_fs_insert.
Qed.

Lemma copy2_wf (src dst : string) (m : fs) :
  wf_fs m -> wf_fs (final_fs (copy2 src dst m)).
Proof.
  intros Hm. unfold copy2.
  destruct (same_file m src _); [done|].
  unfold bind. pose proof (read_data_pure src m) as Hr.
  destruct (read_data src m) as [d m1|e m1]; simpl in Hr; subst m1; [|done].
  by apply write_data_wf.
Qed.

(** A write whose path leaves the existing directory [d] by the entry
    names [c :: tail] lands below [d/c]. *)
Lemma resolve_below (m : fs) (s : string) (k : path)
    (route : list string) (d : path) (ps : list string) :
  Path.names (Path.join cwd s) = (route ++ ps)%list ->
  Forall plain_nm ps ->
  walk_to m [] route = inr d ->
  resolve m s = inr k -> k = (d ++ ps)%list.
Proof.
  intros Hnames Hps Hroute Hr. unfold resolve in Hr.
  destruct (String.eqb s ""); [done|].
  apply walk_to_names in Hr. rewrite Hnames, walk_to_app, Hroute in Hr.
  by apply walk_to_plain_names in Hr.
Qed.

Lemma write_data_grows (s : string) (x : data) (m : fs)
    (route : list string) (d : path) (c : string) (tail : list string) :
  Path.names (Path.join cwd s) = (route ++ c :: tail)%list ->
  Forall plain_nm (c :: tail) ->
  walk_to m [] route = inr d ->
  grows_in (d ++ [c]) m (final_fs (write_data s x m)).
Proof.
  intros Hnames Hps Hroute. unfold write_data.
  destruct (resolve m s) as [e|k] eqn:Hr; [apply grows_in_refl|].
  rewrite (resolve_below m s k route d (c :: tail) Hnames Hps Hroute Hr).
  set (k' := (d ++ c :: tail)%list).
  assert (Hpre : (d ++ [c])%list `prefix_of` k').
  { exists tail. unfold k'. by rewrite <- List.app_assoc. }
  destruct (node_at m k') as [[y|]|] eqn:Hn; simpl;
    try apply grows_in_refl; apply grows_in_insert_file; try done;
    unfold is_dir_at; by rewrite Hn.
Qed.


Lemma copy2_grows (src dst : string) (m : fs)
    (route : list string) (d : path) (c : string) (tail : list string) :
  Path.names (Path.join cwd dst) = (route ++ c :: tail)%list ->
  Forall plain_nm (c :: tail) ->
  Path.plain_name (Path.basename src) = true ->
  walk_to m [] route = inr d ->
  grows_in (d ++ [c]) m (final_fs (copy2 src dst m)).
Proof.
  intros Hnames Hps Hb Hroute. unfold copy2.
  destruct (same_file m src _); [apply grows_in_refl|].
  unfold bind. pose proof (read_data_pure src m) as Hr.
  destruct (read_data src m) as [x m1|e m1]; simpl in Hr; subst m1;
    [|apply grows_in_refl].
  destruct (isdir m dst).
  - apply (write_data_grows _ x m route d c (tail ++ [Path.basename src])%list);
      [|by apply Forall_app_2 with (l1 := c :: tail); [|apply Forall_cons_2]|done].
    rewrite PathFacts.join_assoc by (by apply PathFacts.plain_name_not_abs).
    rewrite PathFacts.names_join by (by apply PathFacts.plain_name_not_abs).
    rewrite Hnames, (PathFacts.names_plain _ Hb). by rewrite <- List.app_assoc.
  - by apply (write_data_grows _ x m route d c tail).
Qed.

(** *** Emptying a directory *)

Lemma children_spec (m : fs) (p : path) (c : string) (n : node) :
  (c, n) ∈ children m p <-> m !! (p ++ [c])%list = Some n.
Proof.
  unfold children. rewrite list_elem_of_omap. split.
  - intros ([q n'] & Hin & Hf). apply elem_of_map_to_list in Hin.
    destruct (last q) as [c'|]; [|done].
    destruct (decide (q = (p ++ [c'])%list)) as [->|]; [|done].
    by injection Hf as <- <-.
  - intros Hm. exists ((p ++ [c])%list, n). split; [by apply elem_of_map_to_list|].
    rewrite last_snoc. by rewrite decide_True.
Qed.

Lemma remove_deletes (s : string) (m m' : fs) :
  remove s m = Ret tt m' -> exists k, resolve m s = inr k /\ m' = delete k m.
Proof.
  unfold remove, stat. destruct (resolve m s) as [e|k]; [done|].
  destruct (node_at m k) as [[d|]|]; try done. intros [= <-]. by exists k.
Qed.

Lemma rmdir_deletes (s : string) (m m' : fs) :
  rmdir s m = Ret tt m' -> exists k, resolve m s = inr k /\ m' = delete k m.
Proof.
  unfold rmdir, stat. destruct (resolve m s) as [e|k]; [done|].
  destruct (node_at m k) as [[d|]|]; [by destruct k| |done].
  destruct k as [|c k]; [done|].
  destruct (children m (c :: k)); [|done]. intros [= <-]. by exists (c :: k).
Qed.

(** A loop of deletions that went through: every target is gone, and
    nothing was added. *)
Lemma for_each_deletes (op : string -> io unit) (dir : string) (top : path)
    (l : list string) (m m' : fs) :
  (forall s m1 m2, op s m1 = Ret tt m2 -> exists k, resolve m1 s = inr k /\ m2 = delete k m1) ->
  (forall c k m1, c ∈ l -> resolve m1 (Path.join dir c) = inr k -> k = (top ++ [c])%list) ->
  for_each l (fun c => op (Path.join dir c)) m = Ret tt m' ->
  (forall c, c ∈ l -> m' !! (top ++ [c])%list = None)
  /\ (forall q, m' !! q = None \/ m' !! q = m !! q).
Proof.
  intros Hop. revert m. induction l as [|c l IH]; intros m Htgt; simpl.
  - intros [= <-]. split; [by intros c Hc%elem_of_nil|by right].
  - unfold bind. destruct (op (Path.join dir c) m) as [[] m1|e m1] eqn:Hc; [|done].
    intros Hrest.
    destruct (Hop _ _ _ Hc) as (k & Hk & ->).
    apply Htgt in Hk; [|by left]. subst k.
    destruct (IH (delete (top ++ [c])%list m)) as [Hgone Hsub]; [|done|].
    { intros c' k m1 Hc'. apply Htgt. by right. }
    split.
    + intros c' [->|Hc']%elem_of_cons; [|by apply Hgone].
      destruct (Hsub (top ++ [c])%list) as [E|E]; [done|].
      by rewrite E, lookup_delete_eq.
    + intros q. destruct (Hsub q) as [E|E]; [by left|].
      rewrite E. destruct (decide ((top ++ [c])%list = q)) as [<-|Hne].
      * left. by rewrite lookup_delete_eq.
      * right. by rewrite lookup_delete_ne.
Qed.

Lemma listed_files_spec (m : fs) (p : path) (c : string) :
  c ∈ listed_files m p <-> exists d, m !! (p ++ [c])%list = Some (File d).
Proof.
  unfold listed_files. rewrite list_elem_of_omap. split.
  - intros ([c' [d|]] & Hin & Hc); [|done]. injection Hc as ->.
    exists d. by apply children_spec.
  - intros [d Hd]. exists (c, File d). split; [by apply children_spec|done].
Qed.

Lemma listed_dirs_spec (m : fs) (p : path) (c : string) :
  c ∈ listed_dirs m p <-> m !! (p ++ [c])%list = Some Dir.
Proof.
  unfold listed_dirs. rewrite list_elem_of_omap. split.
  - intros ([c' [d|]] & Hin & Hc); [done|]. injection Hc as ->.
    by apply children_spec.
  - intros Hd. exists (c, Dir). split; [by apply children_spec|done].
Qed.

(** No directory lies deeper than [deepest]. *)
Lemma deepest_spec (m : fs) (q : path) : m !! q = Some Dir -> length q <= deepest m.
Proof.
  intros Hq%elem_of_map_to_list. unfold deepest.
  induction (map_to_list m) as [|[q' n'] l IH]; [by apply elem_of_nil in Hq|].
  simpl. apply elem_of_cons in Hq as [[= <- <-]|Hq]; [lia|].
  specialize (IH Hq). destruct n'; lia.
Qed.

(** What [walk_down] lists: the files that lie below [p] through
    directories only, not more than [depth] of them. *)
Lemma walk_down_spec (depth : nat) (m : fs) (p q : path) :
  q ∈ walk_down depth m p
  <-> exists ds c,
        q = (p ++ ds ++ [c])%list /\ length ds < depth
        /\ (exists d, m !! q = Some (File d))
        /\ forall k, 0 < k <= length ds -> m !! (p ++ take k ds)%list = Some Dir.
Proof.
  revert p. induction depth as [|n IH]; intros p; simpl.
  { split; [by intros ?%elem_of_nil|]. intros (ds & c & _ & Hlt & _). lia. }
  rewrite elem_of_app. split.
  - intros [Hfile|Hdeep].
    + apply list_elem_of_In, in_map_iff in Hfile as (c & <- & Hc).
      apply list_elem_of_In, listed_files_spec in Hc.
      exists [], c. simpl. split; [done|]. split; [lia|]. split; [done|]. intros k. lia.
    + apply list_elem_of_In, in_concat in Hdeep as (l & Hl & Hq).
      apply in_map_iff in Hl as (dir & <- & Hdir).
      apply list_elem_of_In, listed_dirs_spec in Hdir.
      apply list_elem_of_In, IH in Hq as (ds & c & -> & Hlt & Hf & Hdirs).
      exists (dir :: ds), c. rewrite <- List.app_assoc. simpl.
      split; [done|]. split; [lia|].
      split; [by rewrite <- List.app_assoc in Hf|].
      intros [|k] Hk; [lia|]. simpl.
      destruct k as [|k]; [by rewrite take_0|].
      specialize (Hdirs (S k)). rewrite <- List.app_assoc in Hdirs. apply Hdirs.
      simpl in Hk. lia.
  - intros (ds & c & -> & Hlt & Hf & Hdirs). destruct ds as [|dir ds].
    + left. simpl. apply list_elem_of_In, in_map_iff. exists c. split; [done|].
      by apply list_elem_of_In, listed_files_spec.
    + right. apply list_elem_of_In, in_concat.
      exists (walk_down n m (p ++ [dir])). split.
      * apply in_map_iff. exists dir. split; [done|].
        apply list_elem_of_In, listed_dirs_spec.
        specialize (Hdirs 1). simpl in Hdirs. rewrite take_0 in Hdirs.
        apply Hdirs. lia.
      * apply list_elem_of_In, IH. exists ds, c. rewrite <- List.app_assoc. simpl.
        split; [done|]. split; [simpl in Hlt; lia|]. split; [done|].
        intros k Hk. specialize (Hdirs (S k)). simpl in Hdirs.
        rewrite <- List.app_assoc. apply Hdirs. lia.
Qed.

(** [os.walk] yields every file below the top that a chain of directories
    leads to, and nothing else. *)
Lemma walk_files_spec (m : fs) (top q : path) :
  q ∈ walk_files m top
  <-> exists ds c,
        q = (top ++ ds ++ [c])%list
        /\ (exists d, m !! q = Some (File d))
        /\ forall k, 0 < k <= length ds -> m !! (top ++ take k ds)%list = Some Dir.
Proof.
  unfold walk_files. rewrite walk_down_spec. split.
  - intros (ds & c & Hq & _ & Hf & Hdirs). by exists ds, c.
  - intros (ds & c & Hq & Hf & Hdirs). exists ds, c. split; [done|].
    split; [|done].
    destruct ds as [|dir ds]; [simpl; lia|].
    specialize (Hdirs (length (dir :: ds))). rewrite firstn_all in Hdirs.
    apply deepest_spec in Hdirs; [|simpl; lia].
    rewrite length_app in Hdirs. lia.
Qed.

Lemma walk_files_below (m : fs) (top q : path) :
  q ∈ walk_files m top ->
  is_Some (m !! q) /\ exists ns, q = (top ++ ns)%list /\ ns <> [].
Proof.
  intros (ds & c & -> & [d Hd] & _)%walk_files_spec.
  split; [by eexists|]. exists (ds ++ [c])%list. split; [done|]. by destruct ds.
Qed.

(** [os.walk] finds no file below a directory that has no entries. *)
Lemma walk_files_empty (m : fs) (top : path) :
  (forall c, m !! (top ++ [c])%list = None) -> walk_files m top = [].
Proof.
  intros Hempty.
  destruct (walk_files m top) as [|q l] eqn:E; [done|].
  assert (Hq : q ∈ walk_files m top) by (rewrite E; by left).
  apply walk_files_spec in Hq as (ds & c & -> & [d Hd] & Hdirs).
  destruct ds as [|dir ds].
  - simpl in Hd. by rewrite Hempty in Hd.
  - specialize (Hdirs 1). simpl in Hdirs. rewrite take_0, Hempty in Hdirs.
    discriminate Hdirs. lia.
Qed.

End Frames.
(** ** The hash of a commit is an entry name *)

Section HashFacts.
Local Open Scope Z_scope.

Lemma blocks_nonempty (n : nat) (h bs : list Z) : h <> [] -> Sha256.blocks n h bs <> [].
Proof.
  revert h bs. induction n as [|n IH]; intros h bs Hh; simpl; [done|].
  by apply IH.
Qed.

Lemma digest_nonempty (msg : list Z) : Sha256.digest msg <> [].
Proof. unfold Sha256.digest. by apply blocks_nonempty. Qed.

Lemma hex_digit_char (x : Z) :
  0 <= x < 16 ->
  Ascii.eqb (Sha256.hex_digit x) Path.slash = false
  /\ Ascii.eqb (Sha256.hex_digit x) "."%char = false.
Proof.
  intros Hx.
  assert (Hcases : x = 0 \/ x = 1 \/ x = 2 \/ x = 3 \/ x = 4 \/ x = 5 \/ x = 6 \/ x = 7
                   \/ x = 8 \/ x = 9 \/ x = 10 \/ x = 11 \/ x = 12 \/ x = 13 \/ x = 14
                   \/ x = 15) by lia.
  repeat (destruct Hcases as [->|Hcases]; [by vm_compute|]).
  subst x. by vm_compute.
Qed.

Lemma land_nibble (x : Z) : 0 <= Z.land x 0xf < 16.
Proof.
  change 0xf with (Z.ones 4). rewrite Z.land_ones by lia.
  change (2 ^ 4) with 16. apply Z.mod_pos_bound. lia.
Qed.

Lemma hex_of_chars (n : nat) (x : Z) :
  Forall (fun c => Ascii.eqb c Path.slash = false /\ Ascii.eqb c "."%char = false)
         (String.list_ascii_of_string (Sha256.hex_of n x)).
Proof.
  induction n as [|n IH]; simpl; [apply Forall_nil_2|].
  apply Forall_cons_2; [|done]. apply hex_digit_char, land_nibble.
Qed.

Lemma hex_of_length (n : nat) (x : Z) : String.length (Sha256.hex_of n x) = n.
Proof. induction n as [|n IH]; simpl; [done|]. by rewrite IH. Qed.


Lemma substring_app_length (a b : string) :
  String.substring 0 (String.length a) (a +:+ b) = a.
Proof.
  induction a as [|c a IH]; rewrite ?PathFacts.app_cons, ?PathFacts.app_nil; simpl.
  - by destruct b.
  - by rewrite IH.
Qed.

Lemma plain_name_chars (s : string) :
  s <> EmptyString ->
  Forall (fun c => Ascii.eqb c Path.slash = false /\ Ascii.eqb c "."%char = false)
         (String.list_ascii_of_string s) ->
  Path.plain_name s = true.
Proof.
  intros Hne Hs. destruct s as [|c s]; [done|].
  simpl in Hs. pose proof Hs as [[Hc1 Hc2] Hs']%Forall_cons.
  unfold Path.plain_name, Path.nonempty, Path.slash_free. simpl.
  rewrite Hc1, Hc2. simpl.
  apply forallb_forall. intros x Hx.
  rewrite Forall_forall in Hs'. apply list_elem_of_In in Hx.
  destruct (Hs' x Hx) as [-> _]. done.
Qed.

Lemma commit_hash_plain (message author now : string) :
  Path.plain_name (Commit.commit_hash_of message author now) = true.
Proof.
  unfold Commit.commit_hash_of, Sha256.hexdigest.
  destruct (Sha256.digest _) as [|w ws] eqn:E; [by apply digest_nonempty in E|].
  cbn [foldr].
  change (String.append ?a ?b) with (a +:+ b).
  rewrite <- (hex_of_length 8 w) at 1. rewrite substring_app_length.
  apply plain_name_chars; [|apply hex_of_chars].
  intros Hempty. pose proof (hex_of_length 8 w) as Hl. by rewrite Hempty in Hl.
Qed.

End HashFacts.
(** ** Commits *)

Section CommitFacts.
Import Os Os.Notations.
Local Open Scope string_scope.
Context `{Platform}.
Variable repo_path : string.

Lemma get_staged_files_pure (m : fs) :
  final_fs (Commit.get_staged_files repo_path m) = m.
Proof.
  unfold Commit.get_staged_files, bind, get_fs.
  destruct (stat m _) as [e|[top [d|]]]; try reflexivity.
  destruct (mapM _ _); reflexivity.
Qed.

(** C5. Whenever no file is staged, [create_commit] raises the
    [ValueError] "No files staged for commit" and leaves the file system,
    and with it the set of stored commits, exactly as it was. *)
Theorem create_commit_empty_staging
    (message author now_hash now_meta : string) (m : fs) :
  Commit.get_staged_files repo_path m = Ret [] m ->
  Commit.create_commit repo_path message author now_hash now_meta m
  = Raise (ValueError "No files staged for commit") m.
Proof.
  intros Hempty. unfold Commit.create_commit, bind.
  rewrite Hempty. reflexivity.
Qed.

(** The hash of a commit that was created is the first eight hex digits
    of SHA-256 over message, author and the first clock reading. *)
Lemma create_commit_ret_hash
    (message author now_hash now_meta : string) (m m' : fs) (c : commit_metadata) :
  Commit.create_commit repo_path message author now_hash now_meta m = Ret c m' ->
  cm_hash c = Commit.commit_hash_of message author now_hash
  /\ cm_message c = message /\ cm_author c = author /\ cm_timestamp c = now_meta.
Proof.
  unfold Commit.create_commit, bind, json_dump, ret.
  destruct (Commit.get_staged_files repo_path m) as [l m0|]; [|discriminate].
  destruct l as [|f l]; [discriminate|].
  destruct (makedirs _ _ m0); [|discriminate].
  destruct (Commit.commit_files _ _ _ _ _); [|discriminate].
  destruct (write_data _ _ _); [|discriminate].
  destruct (Commit.clear_staging_area _ _); [|discriminate].
  intros [= <- _]. simpl. auto.
Qed.

End CommitFacts.

(** C1 (as the code has it). The commit hash is a function of message,
    author and the clock reading alone: two commits created with the same
    message, author and clock reading have the same hash, whatever trees
    they were created from. *)
Theorem commit_hash_from_message_author_clock `{Platform}
    (repo1 repo2 message author now now1 now2 : string)
    (m1 m1' m2 m2' : Os.fs) (c1 c2 : commit_metadata) :
  Commit.create_commit repo1 message author now now1 m1 = Os.Ret c1 m1' ->
  Commit.create_commit repo2 message author now now2 m2 = Os.Ret c2 m2' ->
  cm_hash c1 = Commit.commit_hash_of message author now /\ cm_hash c1 = cm_hash c2.
Proof.
  intros H1 H2.
  apply create_commit_ret_hash in H1 as [-> _].
  apply create_commit_ret_hash in H2 as [-> _].
  auto.
Qed.

Lemma commit_hash_from_message_author_clock_witness :
  exists c1 c2 m1 m2,
    Commit.create_commit (H := Examples.host) "/repo" "c1" "Anonymous"
      "2024-01-01T00:00:00" "2024-01-01T00:00:00.000020" Examples.staged_a
    = Os.Ret c1 m1
    /\ Commit.create_commit (H := Examples.host) "/repo" "c1" "Anonymous"
         "2024-01-01T00:00:00" "2024-01-01T00:00:00.000031" Examples.staged_b
       = Os.Ret c2 m2
    /\ cm_hash c1 = Commit.commit_hash_of "c1" "Anonymous" "2024-01-01T00:00:00"
    /\ cm_hash c1 = cm_hash c2.
Proof.
  destruct (value_is_ret
              (Commit.create_commit (H := Examples.host) "/repo" "c1" "Anonymous"
                 "2024-01-01T00:00:00" "2024-01-01T00:00:00.000020" Examples.staged_a))
    as [c1 E1]; [vm_compute; eauto|].
  destruct (value_is_ret
              (Commit.create_commit (H := Examples.host) "/repo" "c1" "Anonymous"
                 "2024-01-01T00:00:00" "2024-01-01T00:00:00.000031" Examples.staged_b))
    as [c2 E2]; [vm_compute; eauto|].
  exists c1, c2. eexists _, _. split; [exact E1|]. split; [exact E2|].
  exact (commit_hash_from_message_author_clock _ _ _ _ _ _ _ _ _ _ _ _ _ E1 E2).
Defined.

(** C1 as stated fails: the same tree, message and author (the code keeps
    no parent) committed at two different times get two different hashes,
    while the file lists of the two commits are equal. *)
Lemma commit_hash_changes_with_clock :
  match Os.value (Commit.create_commit (H := Examples.host) "/repo" "c1" "Anonymous"
                    "2024-01-01T00:00:00" "2024-01-01T00:00:00" Examples.staged_a),
        Os.value (Commit.create_commit (H := Examples.host) "/repo" "c1" "Anonymous"
                    "2024-01-01T00:00:01" "2024-01-01T00:00:01" Examples.staged_a)
  with
  | Some c1, Some c2 =>
      cm_files c1 = cm_files c2 /\ cm_message c1 = cm_message c2
      /\ cm_author c1 = cm_author c2 /\ cm_hash c1 <> cm_hash c2
  | _, _ => False
  end.
Proof. vm_compute. repeat split; discriminate. Qed.

Example commit_hash_changes_with_clock_values :
  Commit.commit_hash_of "c1" "Anonymous" "2024-01-01T00:00:00" = "298b2221"%string
  /\ Commit.commit_hash_of "c1" "Anonymous" "2024-01-01T00:00:01" = "c7cba225"%string.
Proof. vm_compute. split; reflexivity. Qed.

Lemma create_commit_empty_staging_witness :
  Commit.create_commit (H := Examples.host) "/repo" "c1" "Anonymous"
    "2024-01-01T00:00:00" "2024-01-01T00:00:00" Examples.commit_ready
  = Os.Raise (Os.ValueError "No files staged for commit") Examples.commit_ready.
Proof.
  apply (create_commit_empty_staging (H := Examples.host)).
  compute_done.
Defined.
(** ** The two phases of a commit *)

Section CommitPhases.
Import Os Os.Notations.
Local Open Scope string_scope.
Context `{Platform}.
Variable repo_path : string.
Hypothesis cwd_abs : Path.is_abs cwd = true.

Local Abbreviation plain_nm := (fun c : string => Path.plain_name c = true).
Local Abbreviation route := (Path.names (Path.join cwd (Commit.dot_dir repo_path))).
Local Abbreviation staging_dir := (Commit.staging_dir repo_path).
Local Abbreviation commits_dir := (Commit.commits_dir repo_path).

(** A staged file name as [get_staged_files] returns it: entry names
    joined by slashes. *)
Local Abbreviation entry_path :=
  (fun sf : string => exists ns, sf = Path.unsplit ns /\ Forall plain_nm ns /\ ns <> []).

Lemma create_commit_phases (message author now_hash now_meta : string) (m : fs) :
  Commit.create_commit repo_path message author now_hash now_meta m
  = (let* md := Commit.write_commit repo_path message author now_hash now_meta in
     Commit.clear_staging_area repo_path ;; ret md) m.
Proof.
  unfold Commit.create_commit, Commit.write_commit, bind.
  destruct (Commit.get_staged_files repo_path m) as [l m0|]; [|done].
  destruct l as [|f l]; [done|].
  destruct (makedirs _ _ m0); [|done].
  destruct (Commit.commit_files _ _ _ _ _); [|done].
  by destruct (json_dump _ _ _).
Qed.

Lemma names_under_dot_dir (b : string) (tail : list string) :
  Path.plain_name b = true -> Forall plain_nm tail ->
  Path.names (Path.join cwd (Path.join (Path.join (Commit.dot_dir repo_path) b)
                                       (Path.unsplit tail)))
  = (route ++ b :: tail)%list.
Proof.
  intros Hb Htail.
  pose proof (PathFacts.is_abs_unsplit_plain tail Htail) as Hrel.
  pose proof (PathFacts.plain_name_not_abs b Hb) as Hbrel.
  rewrite (PathFacts.join_assoc cwd _ _ Hrel), (PathFacts.join_assoc cwd _ _ Hbrel).
  rewrite (PathFacts.names_join_unsplit _ tail Htail).
  rewrite (PathFacts.names_join _ b Hbrel), (PathFacts.names_plain b Hb).
  by rewrite <- List.app_assoc.
Qed.

Lemma names_staging_dir :
  Path.names (Path.join cwd staging_dir) = (route ++ ["staging"])%list.
Proof.
  unfold Commit.staging_dir.
  rewrite (PathFacts.join_assoc cwd _ "staging") by done.
  rewrite PathFacts.names_join by done.
  by rewrite (PathFacts.names_plain "staging").
Qed.

(** Where the staging directory is. *)
Lemma staging_top (m : fs) (top : path) :
  resolve m staging_dir = inr top ->
  exists d, walk_to m [] route = inr d /\ is_dir_at m d = true
            /\ top = (d ++ ["staging"])%list.
Proof.
  unfold Commit.staging_dir. intros Hr.
  apply resolve_join_iff in Hr as (d & Hd & Hdir & ->); [|done].
  by exists d.
Qed.

Lemma stat_staging_dir (m : fs) (top : path) :
  stat m staging_dir = inr (top, Dir) ->
  resolve m staging_dir = inr top /\ is_dir_at m top = true.
Proof.
  unfold stat, is_dir_at. destruct (resolve m staging_dir) as [e|p]; [done|].
  destruct (node_at m p) as [n|] eqn:Hn; [|done]. intros [= -> ->]. by rewrite Hn.
Qed.


(** The staged file names are paths of entry names. *)
Lemma get_staged_files_shape (m m' : fs) (staged : list string) :
  wf_fs m ->
  Commit.get_staged_files repo_path m = Ret staged m' ->
  Forall entry_path staged.
Proof.
  intros Hwf. unfold Commit.get_staged_files, bind, get_fs.
  destruct (stat m staging_dir) as [e|[top [x|]]];
    try (intros [= <- _]; apply Forall_nil_2).
  destruct (mapM _ (walk_files m top)) as [l|] eqn:Hmap; [|done].
  intros [= <- _]. apply mapM_Some in Hmap.
  eapply Forall2_Forall_r; [exact Hmap|].
  apply Forall_forall. intros q Hq sf Hsf.
  destruct (walk_files_below m top q Hq) as [[n Hn] (ns & -> & Hne)].
  assert (Hns : Forall plain_nm ns).
  { specialize (Hwf _ _ Hn). simpl in Hwf. by apply Forall_app in Hwf as [_ ?]. }
  exists ns. split; [|done].
  unfold walked_name in Hsf. rewrite drop_app_length in Hsf.
  rewrite (PathFacts.foldl_join_unsplit _ ns Hns Hne) in Hsf.
  rewrite (PathFacts.relpath_join_unsplit cwd _ ns cwd_abs Hns Hne) in Hsf.
  by injection Hsf as <-.
Qed.


(** *** The write phase changes the commits directory only *)

Lemma grows_in_bind {A B} (R : path) (c : io A) (k : A -> io B) (m : fs) :
  grows_in R m (final_fs (c m)) ->
  (forall a m1, c m = Ret a m1 -> grows_in R m m1 -> grows_in R m1 (final_fs (k a m1))) ->
  grows_in R m (final_fs (bind c k m)).
Proof.
  unfold bind. destruct (c m) as [a m1|e m1]; simpl; [|done].
  intros Hc Hk. eapply grows_in_trans; [exact Hc|]. by apply Hk.
Qed.

Lemma wf_fs_bind {A B} (c : io A) (k : A -> io B) (m : fs) :
  wf_fs (final_fs (c m)) ->
  (forall a m1, c m = Ret a m1 -> wf_fs m1 -> wf_fs (final_fs (k a m1))) ->
  wf_fs (final_fs (bind c k m)).
Proof.
  unfold bind. destruct (c m) as [a m1|e m1]; simpl; [|done].
  intros Hc Hk. by apply Hk.
Qed.

Lemma route_mono (R : path) (m m1 : fs) (d : path) :
  grows_in R m m1 ->
  walk_to m [] route = inr d /\ is_dir_at m d = true ->
  walk_to m1 [] route = inr d /\ is_dir_at m1 d = true.
Proof.
  intros [_ Hdirs] [Hw Hd]. split; [|by apply Hdirs].
  by apply (walk_to_mono m m1).
Qed.

Lemma calculate_file_hash_pure (s : string) (m : fs) :
  final_fs (Commit.calculate_file_hash s m) = m.
Proof.
  unfold Commit.calculate_file_hash, bind. pose proof (read_data_pure s m) as Hr.
  by destruct (read_data s m).
Qed.

Lemma names_join_tail (x : string) (tail : list string) :
  Forall plain_nm tail ->
  Path.names (Path.join cwd (Path.join x (Path.unsplit tail)))
  = (Path.names (Path.join cwd x) ++ tail)%list.
Proof.
  intros Htail.
  rewrite (PathFacts.join_assoc cwd _ _ (PathFacts.is_abs_unsplit_plain tail Htail)).
  by apply PathFacts.names_join_unsplit.
Qed.

Lemma names_commit_dir (h : string) :
  Path.plain_name h = true ->
  Path.names (Path.join cwd (Path.join commits_dir h))
  = (route ++ ["commits"; h])%list.
Proof.
  intros Hh. unfold Commit.commits_dir.
  rewrite (PathFacts.join_assoc cwd _ h) by (by apply PathFacts.plain_name_not_abs).
  rewrite (PathFacts.join_assoc cwd _ "commits") by done.
  rewrite PathFacts.names_join by (by apply PathFacts.plain_name_not_abs).
  rewrite PathFacts.names_join by done.
  rewrite (PathFacts.names_plain "commits"), (PathFacts.names_plain h) by done.
  by rewrite <- List.app_assoc.
Qed.

Lemma commit_dir_shape (h : string) :
  Path.plain_name h = true ->
  Path.endswith_slash (Path.join commits_dir h) = false
  /\ Path.names (Path.join commits_dir h) <> [].
Proof.
  intros Hh. split.
  - rewrite PathFacts.endswith_slash_join by (by apply PathFacts.plain_name_neq_empty).
    by apply PathFacts.slash_free_last_char, PathFacts.plain_name_slash_free.
  - rewrite PathFacts.names_join by (by apply PathFacts.plain_name_not_abs).
    rewrite (PathFacts.names_plain h Hh). by intros [_ ?]%app_eq_nil.
Qed.

Lemma commit_files_cons (commit_dir sf : string) (rest : list string)
    (acc : list (string * string)) :
  Commit.commit_files repo_path commit_dir (sf :: rest) acc
  = (makedirs (Path.dirname (Path.join commit_dir sf)) true ;;
     copy2 (Path.join staging_dir sf) (Path.join commit_dir sf) ;;
     let* file_hash := Commit.calculate_file_hash (Path.join staging_dir sf) in
     Commit.commit_files repo_path commit_dir rest (acc ++ [(sf, file_hash)])%list).
Proof. reflexivity. Qed.

Lemma commit_files_grows (h : string) (staged : list string)
    (acc : list (string * string)) (m : fs) (d : path) :
  Path.plain_name h = true -> Forall entry_path staged ->
  walk_to m [] route = inr d /\ is_dir_at m d = true ->
  grows_in (d ++ ["commits"]) m
    (final_fs (Commit.commit_files repo_path (Path.join commits_dir h) staged acc m)).
Proof.
  intros Hh Hstaged. revert acc m.
  induction Hstaged as [|sf rest (ns & -> & Hns & Hne) _ IH]; intros acc m Hd;
    [apply grows_in_refl|].
  destruct (commit_dir_shape h Hh) as [Hslash Hnames].
  rewrite commit_files_cons.
  assert (Hdest : Path.names (Path.join cwd (Path.join (Path.join commits_dir h)
                                                       (Path.unsplit ns)))
                  = (route ++ "commits" :: h :: ns)%list).
  { rewrite (names_join_tail _ ns Hns), (names_commit_dir h Hh).
    by rewrite <- List.app_assoc. }
  apply grows_in_bind.
  { rewrite (PathFacts.dirname_join_unsplit _ ns Hslash Hnames Hns Hne).
    pose proof (PathFacts.removelast_plain ns Hns) as Hr.
    destruct (removelast ns) as [|r0 r] eqn:Er.
    - apply (makedirs_grows _ true m route d "commits" [h]);
        [by apply names_commit_dir| |apply Hd..].
      apply Forall_cons_2; [done|]. by apply Forall_cons_2.
    - apply (makedirs_grows _ true m route d "commits" (h :: r0 :: r));
        [| |apply Hd..].
      + rewrite (names_join_tail _ (r0 :: r) Hr), (names_commit_dir h Hh).
        by rewrite <- List.app_assoc.
      + apply Forall_cons_2; [done|]. by apply Forall_cons_2. }
  intros _ m1 _ Hg1. pose proof (route_mono _ _ _ _ Hg1 Hd) as Hd1.
  apply grows_in_bind.
  { apply (copy2_grows _ _ m1 route d "commits" (h :: ns)); [done| | |apply Hd1].
    - apply Forall_cons_2; [done|]. by apply Forall_cons_2.
    - rewrite (PathFacts.basename_join_unsplit _ ns Hns Hne).
      by apply PathFacts.last_plain. }
  intros _ m2 _ Hg2. pose proof (route_mono _ _ _ _ Hg2 Hd1) as Hd2.
  apply grows_in_bind.
  { rewrite calculate_file_hash_pure. apply grows_in_refl. }
  intros file_hash m3 _ Hg3. apply IH. by apply (route_mono _ _ _ _ Hg3).
Qed.

Lemma commit_files_wf (commit_dir : string) (staged : list string)
    (acc : list (string * string)) (m : fs) :
  wf_fs m -> wf_fs (final_fs (Commit.commit_files repo_path commit_dir staged acc m)).
Proof.
  revert acc m. induction staged as [|sf rest IH]; intros acc m Hwf; [done|].
  rewrite commit_files_cons.
  apply wf_fs_bind; [by apply makedirs_wf|]. intros _ m1 _ Hwf1.
  apply wf_fs_bind; [by apply copy2_wf|]. intros _ m2 _ Hwf2.
  apply wf_fs_bind; [by rewrite calculate_file_hash_pure|]. intros fh m3 _ Hwf3.
  by apply IH.
Qed.


Lemma get_staged_files_ret (m m' : fs) (staged : list string) :
  Commit.get_staged_files repo_path m = Ret staged m' -> m' = m.
Proof.
  intros Hget. pose proof (get_staged_files_pure repo_path m) as Hp.
  by rewrite Hget in Hp.
Qed.

Lemma write_commit_grows (message author now_hash now_meta : string)
    (m : fs) (d : path) :
  wf_fs m ->
  walk_to m [] route = inr d /\ is_dir_at m d = true ->
  grows_in (d ++ ["commits"]) m
    (final_fs (Commit.write_commit repo_path message author now_hash now_meta m)).
Proof.
  intros Hwf Hd. unfold Commit.write_commit.
  pose proof (commit_hash_plain message author now_hash) as Hh.
  set (h := Commit.commit_hash_of message author now_hash) in *.
  apply grows_in_bind.
  { rewrite get_staged_files_pure. apply grows_in_refl. }
  intros staged m0 Hget _.
  pose proof (get_staged_files_ret _ _ _ Hget) as ->.
  pose proof (get_staged_files_shape _ _ _ Hwf Hget) as Hshape.
  destruct staged as [|sf rest]; [apply grows_in_refl|].
  apply grows_in_bind.
  { apply (makedirs_grows _ false m route d "commits" [h]);
      [by apply names_commit_dir| |apply Hd..].
    apply Forall_cons_2; [done|]. by apply Forall_cons_2. }
  intros _ m1 _ Hg1. pose proof (route_mono _ _ _ _ Hg1 Hd) as Hd1.
  apply grows_in_bind; [by apply commit_files_grows|].
  intros files_metadata m2 _ Hg2. pose proof (route_mono _ _ _ _ Hg2 Hd1) as Hd2.
  apply grows_in_bind; [|intros; apply grows_in_refl].
  unfold json_dump.
  apply (write_data_grows _ _ m2 route d "commits" [h; "metadata.json"]);
    [| |apply Hd2].
  - change "metadata.json" with (Path.unsplit ["metadata.json"]) at 1.
    rewrite names_join_tail by (by apply Forall_cons_2).
    rewrite (names_commit_dir h Hh). by rewrite <- List.app_assoc.
  - apply Forall_cons_2; [done|]. apply Forall_cons_2; [done|]. by apply Forall_cons_2.
Qed.

Lemma write_commit_wf (message author now_hash now_meta : string) (m : fs) :
  wf_fs m ->
  wf_fs (final_fs (Commit.write_commit repo_path message author now_hash now_meta m)).
Proof.
  intros Hwf. unfold Commit.write_commit.
  apply wf_fs_bind; [by rewrite get_staged_files_pure|].
  intros staged m0 _ Hwf0. destruct staged as [|sf rest]; [done|].
  apply wf_fs_bind; [by apply makedirs_wf|]. intros _ m1 _ Hwf1.
  apply wf_fs_bind; [by apply commit_files_wf|]. intros fm m2 _ Hwf2.
  apply wf_fs_bind; [by apply write_data_wf|]. by intros _ m3 _ Hwf3.
Qed.

(** The write phase leaves the staging directory and all below it alone. *)
Lemma write_commit_keeps_staging (message author now_hash now_meta : string)
    (m : fs) (top q : path) :
  wf_fs m -> resolve m staging_dir = inr top -> top `prefix_of` q ->
  final_fs (Commit.write_commit repo_path message author now_hash now_meta m) !! q
  = m !! q.
Proof.
  intros Hwf (d & Hroute & Hd & ->)%staging_top [rest ->].
  destruct (write_commit_grows message author now_hash now_meta m d Hwf)
    as [Hsame _]; [done|].
  apply Hsame. intros [rest' Heq].
  rewrite <- !List.app_assoc in Heq. by apply app_inv_head in Heq.
Qed.

(** *** Clearing *)

(** After a clearing that went through, no file is staged. *)
Lemma clear_staging_area_empties (m m' : fs) :
  wf_fs m ->
  Commit.clear_staging_area repo_path m = Ret tt m' ->
  Commit.get_staged_files repo_path m' = Ret [] m'.
Proof.
  intros Hwf. unfold Commit.clear_staging_area, bind, get_fs.
  destruct (stat m staging_dir) as [e|[top [x|]]] eqn:Hstat;
    try (intros [= <-]; unfold Commit.get_staged_files, bind, get_fs;
         by rewrite Hstat).
  destruct (stat_staging_dir m top Hstat) as [Hres Hdir].
  set (files := omap _ (children m top)).
  set (dirs := omap _ (children m top)).
  destruct (for_each files _ m) as [[] m2|e m2] eqn:Hfiles; [|done].
  intros Hdirs.
  assert (Htgt : forall c k m1, is_Some (m !! (top ++ [c])%list) ->
            resolve m1 (Path.join staging_dir c) = inr k -> k = (top ++ [c])%list).
  { intros c k m1 [n Hn] Hk.
    assert (Hc : Path.plain_name c = true).
    { specialize (Hwf _ _ Hn). simpl in Hwf.
      by apply Forall_app in Hwf as [_ [? _]%Forall_cons]. }
    symmetry. eapply resolve_det; [|exact Hk].
    apply resolve_join; [by apply resolve_locate|done|done]. }
  assert (Hin_files : forall c, c ∈ files <-> exists x, m !! (top ++ [c])%list = Some (File x)).
  { intros c. unfold files. rewrite list_elem_of_omap. split.
    - intros ([c' [x|]] & Hin & Hf); [|done]. injection Hf as ->.
      exists x. by apply children_spec.
    - intros [x Hx]. exists (c, File x). split; [by apply children_spec|done]. }
  assert (Hin_dirs : forall c, c ∈ dirs <-> m !! (top ++ [c])%list = Some Dir).
  { intros c. unfold dirs. rewrite list_elem_of_omap. split.
    - intros ([c' [x|]] & Hin & Hf); [done|]. injection Hf as ->.
      by apply children_spec.
    - intros Hx. exists (c, Dir). split; [by apply children_spec|done]. }
  destruct (for_each_deletes remove staging_dir top files m m2) as [Hgone1 Hsub1];
    [apply remove_deletes| |exact Hfiles|].
  { intros c k m1 [x Hx]%Hin_files. apply Htgt. by eexists. }
  destruct (for_each_deletes rmdir staging_dir top dirs m2 m') as [Hgone2 Hsub2];
    [apply rmdir_deletes| |exact Hdirs|].
  { intros c k m1 Hx%Hin_dirs. apply Htgt. by eexists. }
  assert (Hempty : forall c, m' !! (top ++ [c])%list = None).
  { intros c. destruct (Hsub2 (top ++ [c])%list) as [E|E]; [done|]. rewrite E.
    destruct (m !! (top ++ [c])%list) as [[x|]|] eqn:Hn.
    - apply Hgone1, Hin_files. by exists x.
    - rewrite <- E. by apply Hgone2, Hin_dirs.
    - destruct (Hsub1 (top ++ [c])%list) as [E1|E1]; [done|]. by rewrite E1. }
  unfold Commit.get_staged_files, bind, get_fs.
  destruct (stat m' staging_dir) as [e|[top' [x|]]] eqn:Hstat'; try done.
  destruct (stat_staging_dir m' top' Hstat') as [Hres' _].
  rewrite (resolve_det _ _ _ _ _ Hres' Hres).
  by rewrite (walk_files_empty m' top Hempty).
Qed.


(** *** The commit that the write phase leaves *)

Lemma write_commit_ret (message author now_hash now_meta : string)
    (m m1 : fs) (md : commit_metadata) :
  Commit.write_commit repo_path message author now_hash now_meta m = Ret md m1 ->
  cm_hash md = Commit.commit_hash_of message author now_hash
  /\ exists m0,
       json_dump (DMetadata md)
         (Path.join (Path.join commits_dir (cm_hash md)) "metadata.json") m0
       = Ret tt m1.
Proof.
  unfold Commit.write_commit, bind, ret.
  destruct (Commit.get_staged_files repo_path m) as [l m0|]; [|done].
  destruct l as [|f l]; [done|].
  destruct (makedirs _ _ _) as [? ma|]; [|done].
  destruct (Commit.commit_files _ _ _ _ _) as [fm mb|]; [|done].
  destruct (json_dump _ _ mb) as [[] mc|] eqn:Hdump; [|done].
  intros [= <- <-]. split; [done|]. by exists mb.
Qed.

Lemma get_commit_details_written (md : commit_metadata) (m0 m1 : fs) :
  json_dump (DMetadata md)
    (Path.join (Path.join commits_dir (cm_hash md)) "metadata.json") m0 = Ret tt m1 ->
  Commit.get_commit_details repo_path (cm_hash md) m1 = Ret (Some (DMetadata md)) m1.
Proof.
  unfold json_dump. intros (k & Hk & Hd & ->)%write_data_ret.
  unfold Commit.get_commit_details, bind, get_fs.
  pose proof (proj2 (resolve_insert_file m0 k (Doc (DMetadata md)) _ k Hd) Hk) as Hk'.
  pose proof (not_dir_nonroot m0 k Hd) as Hne.
  unfold exists_, stat. rewrite Hk', node_at_insert_eq by done. simpl.
  unfold json_load, bind. by rewrite (read_data_insert m0 k _ _ Hk Hd).
Qed.

(** C4 (as the code has it). [create_commit] runs in two phases. When it
    returns, the write phase had gone through first: the commit directory
    with the copies and the metadata was in place, readable under the
    commit's hash, with everything at or below the staging directory still
    as it was; only then the staging area was cleared, and afterwards no
    file is staged. When a write of the first phase raises, the call
    raises the same exception in the same state, and everything at or
    below the staging directory is as it was; what was written of the
    commit stays. *)
Theorem create_commit_writes_then_clears
    (message author now_hash now_meta : string) (m : fs) :
  wf_fs m ->
  (forall md m',
     Commit.create_commit repo_path message author now_hash now_meta m = Ret md m' ->
     exists m1,
       Commit.write_commit repo_path message author now_hash now_meta m = Ret md m1
       /\ Commit.get_commit_details repo_path (cm_hash md) m1
          = Ret (Some (DMetadata md)) m1
       /\ (forall top q, resolve m staging_dir = inr top -> top `prefix_of` q ->
                         m1 !! q = m !! q)
       /\ Commit.clear_staging_area repo_path m1 = Ret tt m'
       /\ Commit.get_staged_files repo_path m' = Ret [] m')
  /\ (forall e m1,
        Commit.write_commit repo_path message author now_hash now_meta m = Raise e m1 ->
        Commit.create_commit repo_path message author now_hash now_meta m = Raise e m1
        /\ forall top q, resolve m staging_dir = inr top -> top `prefix_of` q ->
                         m1 !! q = m !! q).
Proof.
  intros Hwf.
  pose proof (write_commit_wf message author now_hash now_meta m Hwf) as Hwf1.
  pose proof (fun top q => write_commit_keeps_staging message author now_hash now_meta
                             m top q Hwf) as Hkeep.
  split.
  - intros md m'. rewrite create_commit_phases. unfold bind at 1.
    destruct (Commit.write_commit _ _ _ _ _ m) as [md1 m1|e m1] eqn:Hw; [|done].
    simpl in Hwf1, Hkeep. unfold bind, ret.
    destruct (Commit.clear_staging_area repo_path m1) as [[] m2|e m2] eqn:Hc; [|done].
    intros [= -> ->]. exists m1.
    destruct (write_commit_ret _ _ _ _ _ _ _ Hw) as [_ [m0 Hdump]].
    split; [done|]. split; [by eapply get_commit_details_written|].
    split; [done|]. split; [done|].
    by apply (clear_staging_area_empties m1).
  - intros e m1 Hw. rewrite create_commit_phases. unfold bind at 1. rewrite Hw.
    split; [done|]. rewrite Hw in Hkeep. exact Hkeep.
Qed.

End CommitPhases.

Section CommitExamples.
Import Os.
Local Open Scope string_scope.

(** C4 as the specification has it does not hold: with the file
    [metadata.json/x] staged, the metadata cannot be written and
    [create_commit] raises, but the commit directory that was not there
    before now is, with the copy of the staged file in it. *)
Lemma create_commit_leaves_partial_commit :
  value (Examples.get_staged_files Examples.staged_metadata_dir) = Some ["metadata.json/x"]
  /\ exists_ (H := Examples.host) Examples.staged_metadata_dir Examples.commit_dir = false
  /\ raised (Examples.create_commit Examples.staged_metadata_dir) = Some IsADirectoryError
  /\ exists_ (H := Examples.host) (final_fs (Examples.create_commit Examples.staged_metadata_dir))
       (Path.join Examples.commit_dir "metadata.json/x") = true.
Proof. repeat split; compute_done. Qed.

(** The two phases on [a.txt] staged, and on the staged [metadata.json/x]
    where the write phase raises. *)
Lemma create_commit_writes_then_clears_witness :
  value (Examples.get_staged_files (final_fs (Examples.create_commit Examples.staged_a))) = Some []
  /\ final_fs (Examples.create_commit Examples.staged_metadata_dir)
       !! ["repo"; ".source-control"; "staging"; "metadata.json"; "x"]
     = Some (File (Raw "v1")).
Proof.
  assert (Habs : Path.is_abs (cwd (Platform := Examples.host)) = true) by reflexivity.
  split.
  - assert (Hwf : wf_fs Examples.staged_a) by (unfold wf_fs; compute_done).
    assert (Hval : is_Some (value (Examples.create_commit Examples.staged_a))) by compute_done.
    destruct (value_is_ret _ Hval) as [md Hret].
    destruct (create_commit_writes_then_clears (H := Examples.host) "/repo" Habs
                "msg" "me" "t1" "t2" Examples.staged_a Hwf) as [Hok _].
    destruct (Hok md _ Hret) as (m1 & _ & _ & _ & _ & Hempty).
    unfold Examples.get_staged_files. by rewrite Hempty.
  - assert (Hwf : wf_fs Examples.staged_metadata_dir) by (unfold wf_fs; compute_done).
    assert (Hraised : raised (Commit.write_commit (H := Examples.host) "/repo"
                                "msg" "me" "t1" "t2" Examples.staged_metadata_dir)
                      = Some IsADirectoryError) by compute_done.
    apply raised_raise in Hraised.
    assert (Htop : resolve (H := Examples.host) Examples.staged_metadata_dir
                     (Commit.staging_dir "/repo")
                   = inr ["repo"; ".source-control"; "staging"]) by compute_done.
    assert (Hstaged : Examples.staged_metadata_dir
                        !! ["repo"; ".source-control"; "staging"; "metadata.json"; "x"]
                      = Some (File (Raw "v1"))) by compute_done.
    destruct (create_commit_writes_then_clears (H := Examples.host) "/repo" Habs
                "msg" "me" "t1" "t2" Examples.staged_metadata_dir Hwf) as [_ Hfail].
    destruct (Hfail _ _ Hraised) as [Hcreate Hkeep].
    unfold Examples.create_commit. rewrite Hcreate, final_fs_raise.
    rewrite (Hkeep _ _ Htop); [exact Hstaged|].
    by exists ["metadata.json"; "x"].
Defined.

(** A staged file in a subdirectory: the commit is written, then the
    clearing stops at the directory that is not empty. *)
Example create_commit_nested_directory :
  value (Examples.get_staged_files Examples.staged_subdir) = Some ["a.txt"; "sub/f.txt"]
  /\ raised (Examples.create_commit Examples.staged_subdir) = Some (OSError "ENOTEMPTY")
  /\ exists_ (H := Examples.host) (final_fs (Examples.create_commit Examples.staged_subdir))
       (Path.join Examples.commit_dir "metadata.json") = true
  /\ value (Examples.get_staged_files (final_fs (Examples.create_commit Examples.staged_subdir))) = Some ["sub/f.txt"].
Proof. repeat split; compute_done. Qed.

End CommitExamples.

(** ** Diffs *)

Section DiffFacts.
Import Os Os.Notations.
Local Open Scope string_scope.
Context `{Platform}.

Lemma startswith_one (c a : Ascii.ascii) (s : string) :
  Path.startswith (String c s) (String a "") = Ascii.eqb a c.
Proof. cbn [Path.startswith]. apply andb_true_r. Qed.

Lemma count_starting_cons (c : string) (line : string) (rest : list string) :
  Diff.count_starting c (line :: rest)
  = (if Path.startswith line c then 1 else 0) + Diff.count_starting c rest.
Proof.
  unfold Diff.count_starting. simpl. by destruct (Path.startswith line c).
Qed.

(** A diff that is not empty starts with the two header lines. *)
Lemma unified_diff_headers (a b : list string) (fromfile tofile : string)
    (diff : list string) :
  Diff.unified_diff a b fromfile tofile = inr diff -> diff <> [] ->
  exists body,
    diff = ("--- " +:+ fromfile +:+ Diff.nl) :: ("+++ " +:+ tofile +:+ Diff.nl) :: body.
Proof.
  unfold Diff.unified_diff.
  destruct (grouped_opcodes a b) as [|g gs]; [by intros [= <-]|].
  destruct (Diff.hunks a b (g :: gs)) as [e|body]; [done|].
  intros [= <-] _. by exists body.
Qed.

(** C10. Whenever [generate_file_diff] reports any diff line, the first two
    are the headers ["--- name"] and ["+++ name"], and both counters count
    their header: [added_lines] is one more than the number of ['+'] lines
    of the body and [removed_lines] one more than the number of its ['-']
    lines, so both are at least 1, also when the change only adds or only
    removes lines. *)
Theorem diff_counts_include_headers (file1_path file2_path : string)
    (m m' : fs) (r : Diff.file_diff) :
  Diff.generate_file_diff file1_path file2_path m = Ret r m' ->
  Diff.diff_lines r <> [] ->
  exists body,
    Diff.diff_lines r
    = ("--- " +:+ Path.basename file1_path +:+ Diff.nl)
        :: ("+++ " +:+ Path.basename file2_path +:+ Diff.nl) :: body
    /\ Diff.added_lines r = 1 + Diff.count_starting "+" body
    /\ Diff.removed_lines r = 1 + Diff.count_starting "-" body
    /\ 1 <= Diff.added_lines r /\ 1 <= Diff.removed_lines r.
Proof.
  unfold Diff.generate_file_diff, bind, lift, ret.
  destruct (Diff.read_file_lines file1_path m) as [l1 m1|]; [|done].
  destruct (Diff.read_file_lines file2_path m1) as [l2 m2|]; [|done].
  destruct (Diff.unified_diff l1 l2 _ _) as [e|diff] eqn:Hdiff; [done|].
  intros [= <- _]. simpl. intros Hne.
  destruct (unified_diff_headers _ _ _ _ _ Hdiff Hne) as [body ->].
  exists body. rewrite !count_starting_cons.
  rewrite !PathFacts.app_cons, !startswith_one. simpl.
  repeat split; lia.
Qed.

End DiffFacts.

Lemma diff_counts_include_headers_witness :
  exists r m',
    Diff.generate_file_diff (H := Examples.host) "/d/old" "/d/new" Examples.diff_tree
    = Os.Ret r m'
    /\ Diff.diff_lines r <> []
    /\ 1 <= Diff.added_lines r /\ 1 <= Diff.removed_lines r.
Proof.
  destruct (value_is_ret
              (Diff.generate_file_diff (H := Examples.host) "/d/old" "/d/new"
                 Examples.diff_tree)) as [r E]; [vm_compute; eauto|].
  assert (Hne : Diff.diff_lines r <> []).
  { intros Hnil. apply (f_equal Os.value) in E. simpl in E.
    assert (Hv : Diff.diff_lines <$>
                 Os.value (Diff.generate_file_diff (H := Examples.host) "/d/old" "/d/new"
                             Examples.diff_tree) = Some [])
      by (rewrite E; simpl; by rewrite Hnil).
    vm_compute in Hv. discriminate. }
  exists r. eexists. split; [exact E|]. split; [exact Hne|].
  destruct (diff_counts_include_headers (H := Examples.host) _ _ _ _ _ E Hne)
    as (body & _ & _ & _ & Ha & Hr).
  done.
Defined.

(** The only change adds a line, and one removal is still reported. *)
Example diff_only_addition :
  match Os.value (Diff.generate_file_diff (H := Examples.host) "/d/old" "/d/new"
                    Examples.diff_tree) with
  | Some r =>
      Diff.diff_lines r
      = ["--- old" +:+ Diff.nl; "+++ new" +:+ Diff.nl; "@@ -1 +1,2 @@" +:+ Diff.nl;
         " x" +:+ Diff.nl; "+y" +:+ Diff.nl]%string
      /\ Diff.added_lines r = 2 /\ Diff.removed_lines r = 1
  | _ => False
  end.
Proof. vm_compute. repeat split; reflexivity. Qed.

(** The only change removes a line, and one addition is still reported. *)
Example diff_only_removal :
  match Os.value (Diff.generate_file_diff (H := Examples.host) "/d/new" "/d/old"
                    Examples.diff_tree) with
  | Some r =>
      Diff.diff_lines r
      = ["--- new" +:+ Diff.nl; "+++ old" +:+ Diff.nl; "@@ -1,2 +1 @@" +:+ Diff.nl;
         " x" +:+ Diff.nl; "-y" +:+ Diff.nl]%string
      /\ Diff.added_lines r = 1 /\ Diff.removed_lines r = 2
  | _ => False
  end.
Proof. vm_compute. repeat split; reflexivity. Qed.

(** ** Branches *)

Section BranchFacts.
Import Os Os.Notations.
Local Open Scope string_scope.
Context `{Platform}.
Variable repo_path : string.

Lemma json_load_pure (s : string) (m : fs) : final_fs (json_load s m) = m.
Proof.
  unfold json_load, bind. pose proof (read_data_pure s m) as Hp.
  destruct (read_data s m) as [d m'|e m']; simpl in *; subst; [|done].
  destruct d as [b|j]; [|done]. by destruct (json_parse b).
Qed.

(** A document that loads from [s] sits in a file, where [s] resolves. *)
Lemma json_load_ret (s : string) (m m' : fs) (j : document) :
  json_load s m = Ret j m' ->
  m' = m /\ exists k, resolve m s = inr k /\ is_dir_at m k = false.
Proof.
  intros Hl. pose proof (json_load_pure s m) as Hp. rewrite Hl in Hp.
  simpl in Hp. split; [done|]. revert Hl. unfold json_load, bind, read_data, stat.
  destruct (resolve m s) as [e|k]; [done|].
  unfold is_dir_at. destruct (node_at m k) as [[d|]|] eqn:Hn; try done.
  intros _. exists k. by rewrite Hn.
Qed.

(** Loading back the document that was just dumped. *)
Lemma json_load_insert (s : string) (m : fs) (k : path) (j : document) :
  resolve m s = inr k -> is_dir_at m k = false ->
  json_load s (<[k := File (Doc j)]> m) = Ret j (<[k := File (Doc j)]> m).
Proof.
  intros Hr Hk. unfold json_load, bind.
  by rewrite (read_data_insert m k (Doc j) s Hr Hk).
Qed.

Lemma load_config_ret (m m' : fs) (bc : branches_config) :
  Branch.load_config repo_path m = Ret bc m' ->
  m' = m /\ exists k, resolve m (Branch.branches_file repo_path) = inr k
                      /\ is_dir_at m k = false.
Proof.
  unfold Branch.load_config, bind.
  destruct (json_load _ m) as [j m1|] eqn:Hl; [|done].
  apply json_load_ret in Hl as [-> Hk].
  destruct j; try done. by intros [= <- <-].
Qed.

Lemma load_config_insert (m : fs) (k : path) (bc : branches_config) :
  resolve m (Branch.branches_file repo_path) = inr k -> is_dir_at m k = false ->
  Branch.load_config repo_path (<[k := File (Doc (DBranches bc))]> m)
  = Ret bc (<[k := File (Doc (DBranches bc))]> m).
Proof.
  intros Hr Hk. unfold Branch.load_config, bind.
  by rewrite (json_load_insert _ m k _ Hr Hk).
Qed.

(** What [create_branch] does on the way to the clock: with a valid, unused
    name and an existing base it reaches [now] on the unchanged file
    system, and goes on from there. *)
Lemma create_branch_with_reaches_clock (now : io string) (branch_name : string)
    (base : option string) (m : fs) (bc : branches_config) (base_info : branch_info) :
  Branch.load_config repo_path m = Ret bc m ->
  Branch.valid_branch_name branch_name = true ->
  branches bc !! branch_name = None ->
  branches bc !! Branch.or_else base (current_branch bc) = Some base_info ->
  Branch.create_branch_with repo_path now branch_name base m
  = (let* created := now in
     let new_branch_config :=
       BranchInfo (head_commit base_info) (Some created)
                  (Some (Branch.or_else base (current_branch bc))) in
     json_dump
       (DBranches (BranchesConfig (current_branch bc)
                     (<[branch_name := new_branch_config]> (branches bc))))
       (Branch.branches_file repo_path) ;;
     ret new_branch_config) m.
Proof.
  intros Hload Hvalid Hfresh Hbase.
  unfold Branch.valid_branch_name in Hvalid. apply andb_true_iff in Hvalid as [Hne Hslash].
  unfold Branch.create_branch_with. rewrite Hne. apply negb_true_iff in Hslash.
  rewrite Hslash. simpl. unfold bind at 1. rewrite Hload, Hfresh, Hbase.
  reflexivity.
Qed.

(** The defect behind C6. For every valid, unused branch name and every
    existing base branch, [create_branch] raises [AttributeError] at the
    clock expression and writes nothing: no branch is created. *)
Theorem create_branch_raises (branch_name : string) (base : option string)
    (m : fs) (bc : branches_config) (base_info : branch_info) :
  Branch.load_config repo_path m = Ret bc m ->
  Branch.valid_branch_name branch_name = true ->
  branches bc !! branch_name = None ->
  branches bc !! Branch.or_else base (current_branch bc) = Some base_info ->
  Branch.create_branch repo_path branch_name base m
  = Raise (AttributeError "module 'datetime' has no attribute 'now'") m.
Proof.
  intros Hload Hvalid Hfresh Hbase. unfold Branch.create_branch.
  by rewrite (create_branch_with_reaches_clock _ _ _ _ _ _ Hload Hvalid Hfresh Hbase).
Qed.

(** With a clock expression that does return, the same code creates the
    branch with the head its base has at that moment, and records it. *)
Lemma create_branch_with_working_clock (t branch_name : string) (base : option string)
    (m : fs) (bc : branches_config) (base_info : branch_info) :
  Branch.load_config repo_path m = Ret bc m ->
  Branch.valid_branch_name branch_name = true ->
  branches bc !! branch_name = None ->
  branches bc !! Branch.or_else base (current_branch bc) = Some base_info ->
  exists m' new_branch,
    Branch.create_branch_with repo_path (ret t) branch_name base m = Ret new_branch m'
    /\ head_commit new_branch = head_commit base_info
    /\ Branch.get_branch_head repo_path (Some branch_name) m'
       = Ret (head_commit base_info) m'.
Proof.
  intros Hload Hvalid Hfresh Hbase.
  rewrite (create_branch_with_reaches_clock _ _ _ _ _ _ Hload Hvalid Hfresh Hbase).
  destruct (load_config_ret _ _ _ Hload) as [_ (k & Hk & Hd)].
  unfold bind, ret, json_dump, write_data, is_dir_at in *. rewrite Hk.
  destruct (node_at m k) as [[d|]|] eqn:Hn; try done.
  all: eexists _, _; split; [reflexivity|]; split; [reflexivity|].
  all: unfold Branch.get_branch_head, bind.
  all: rewrite load_config_insert by (done || (unfold is_dir_at; by rewrite Hn)).
  all: simpl.
  all: unfold Branch.valid_branch_name in Hvalid; apply andb_true_iff in Hvalid as [-> _].
  all: by rewrite lookup_insert_eq.
Qed.

End BranchFacts.

(** C6 at a concrete input: on the registry a fresh [Branch] object leaves
    (only [main], which is current), [create_branch("feat")] raises
    [AttributeError] and the registry is unchanged. *)
Lemma create_branch_feat_raises :
  Branch.create_branch (H := Examples.host) "/repo" "feat" None Examples.branch_ready
  = Os.Raise (Os.AttributeError "module 'datetime' has no attribute 'now'")
             Examples.branch_ready
  /\ Branch.load_config (H := Examples.host) "/repo" Examples.branch_ready
     = Os.Ret Branch.initial_branches Examples.branch_ready.
Proof. split; compute_done. Qed.

Lemma create_branch_raises_witness :
  Branch.create_branch (H := Examples.host) "/repo" "feat" (Some "main") Examples.branch_ready
  = Os.Raise (Os.AttributeError "module 'datetime' has no attribute 'now'")
             Examples.branch_ready.
Proof.
  apply (create_branch_raises (H := Examples.host) "/repo" "feat" (Some "main")
           Examples.branch_ready Branch.initial_branches (BranchInfo None None None));
    compute_done.
Defined.

(** With a working clock, a branch created from [main] keeps the head it
    copied when [main] moves on. *)
Example branch_head_not_tracked :
  let created :=
    Examples.after (Branch.create_branch_with (H := Examples.host) "/repo"
                      (Os.ret "2024-01-01T00:00:00") "feat" None) Examples.branch_ready in
  let moved :=
    Examples.after (Branch.update_branch_head (H := Examples.host) "/repo" "main" "298b2221")
                   created in
  Os.value (Branch.get_branch_head (H := Examples.host) "/repo" (Some "main") moved)
  = Some (Some "298b2221"%string)
  /\ Os.value (Branch.get_branch_head (H := Examples.host) "/repo" (Some "feat") moved)
     = Some None.
Proof. split; compute_done. Qed.

(** ** Staging *)

Section StagingFacts.
Import Os Os.Notations.
Local Open Scope string_scope.
Context `{Platform}.
Variable DSCS_DIR : string.
Variable repository : Repository.t.
Variable ignore_patterns : list string.

Local Abbreviation blob := (Staging.blob DSCS_DIR repository).

(** The first part of C7 that the code has: a path that does not exist
    makes [add] raise, and nothing is written. *)
Lemma add_missing_path_fails (filepath : string) (m : fs) :
  exists_ m (Path.abspath cwd filepath) = false ->
  Staging.add DSCS_DIR repository ignore_patterns filepath m
  = Raise (ValueError ("Path does not exist: " +:+ Path.abspath cwd filepath)) m.
Proof.
  intros Hex. unfold Staging.add, bind, get_fs. by rewrite Hex.
Qed.

(** The last part of C7 that the code has: an ignored path is skipped,
    without an exception and without a write. *)
Lemma add_ignored_path_skipped (filepath : string) (m : fs) :
  exists_ m (Path.abspath cwd filepath) = true ->
  Ignore.should_ignore repository ignore_patterns (Path.abspath cwd filepath) = inr true ->
  Staging.add DSCS_DIR repository ignore_patterns filepath m = Ret tt m.
Proof.
  intros Hex Hign. unfold Staging.add, bind, get_fs, lift. by rewrite Hex, Hign.
Qed.

Lemma exists_iff (m : fs) (s : string) :
  exists_ m s = true <-> exists k, resolve m s = inr k /\ is_Some (node_at m k).
Proof.
  unfold exists_, stat. destruct (resolve m s) as [e|k].
  - split; [done|]. by intros (k & ? & _).
  - destruct (node_at m k) as [n|] eqn:Hn.
    + split; [|done]. intros _. exists k. by rewrite Hn.
    + split; [done|]. intros (k' & [= <-] & Hs). rewrite Hn in Hs. by destruct Hs.
Qed.

Lemma remove_ret (s : string) (m m' : fs) :
  remove s m = Ret tt m'
  <-> exists k d, resolve m s = inr k /\ node_at m k = Some (File d) /\ m' = delete k m.
Proof.
  unfold remove, stat. destruct (resolve m s) as [e|k].
  - split; [done|]. by intros (k & d & ? & _).
  - destruct (node_at m k) as [[d|]|] eqn:Hn.
    + split.
      * intros [= <-]. by exists k, d.
      * by intros (k' & d' & [= <-] & _ & ->).
    + split; [done|]. intros (k' & d' & [= <-] & Hd & _). congruence.
    + split; [done|]. intros (k' & d' & [= <-] & Hd & _). congruence.
Qed.

Lemma is_file_not_dir (m : fs) (k : path) (d : data) :
  node_at m k = Some (File d) -> is_dir_at m k = false.
Proof. unfold is_dir_at. by intros ->. Qed.

(** What the blob removal of [reset] leaves. *)
Lemma remove_if_exists_ret (s : string) (m m' : fs) :
  Staging.remove_if_exists s m = Ret tt m' ->
  exists_ m' s = false
  /\ (forall q, is_dir_at m' q = is_dir_at m q)
  /\ (forall q k, resolve m s = inr k -> q <> k -> node_at m' q = node_at m q)
  /\ (exists_ m s = false -> m' = m).
Proof.
  unfold Staging.remove_if_exists, bind, get_fs.
  destruct (exists_ m s) eqn:Hex.
  - intros (k & d & Hk & Hn & ->)%remove_ret.
    pose proof (is_file_not_dir m k d Hn) as Hd.
    split; [|split; [|split]].
    + apply not_true_is_false. intros (k' & Hk' & Hs)%exists_iff.
      apply (resolve_delete_file m k s k' Hd) in Hk'.
      assert (k' = k) as -> by congruence.
      destruct k as [|c k]; [done|]. simpl in Hs. rewrite lookup_delete_eq in Hs.
      by destruct Hs.
    + intros q. by apply is_dir_at_delete_file.
    + intros q k' Hk' Hne. assert (k' = k) as -> by congruence.
      by apply node_at_delete_ne.
    + done.
  - intros [= <-]. by repeat split.
Qed.


(** Blobs and the index are different files. *)
Lemma blob_not_index (m : fs) (h : string) (k : path) :
  Path.plain_name h = true ->
  resolve m (blob h) = inr k ->
  resolve m (Staging.index_path DSCS_DIR repository) = inr k -> False.
Proof.
  intros Hh Hb Hi.
  apply resolve_join_iff in Hb as (ps & Hps & _ & ->); [|done].
  apply locate_join_iff in Hps as (pd & Hpd & _ & ->); [|done].
  apply resolve_join_iff in Hi as (pd' & Hpd' & _ & Heq); [|done].
  assert (pd' = pd) as -> by congruence.
  apply (f_equal length) in Heq. rewrite !length_app in Heq. simpl in Heq. lia.
Qed.

Lemma blob_inj (m : fs) (h h' : string) (k : path) :
  Path.plain_name h = true -> Path.plain_name h' = true ->
  resolve m (blob h) = inr k -> resolve m (blob h') = inr k -> h = h'.
Proof.
  intros Hh Hh' Hb Hb'.
  apply resolve_join_iff in Hb as (ps & Hps & _ & ->); [|done].
  apply resolve_join_iff in Hb' as (ps' & Hps' & _ & Heq); [|done].
  apply app_inj_tail in Heq as [_ Heq]. done.
Qed.

(** C8 (as the code has it). [reset(p)] for a staged path [p] removes
    [p]'s index entry and the blob kept under [p]'s hash, whether or not
    another entry has the same hash; every remaining entry whose hash is
    different keeps the blob it had. *)
Theorem reset_path (filepath rel_path : string) (m m' : fs)
    (index : gmap string index_entry) (entry : index_entry) :
  Staging.read_index DSCS_DIR repository m = Ret (DIndex index) m ->
  Path.nonempty filepath = true ->
  Path.relpath cwd filepath (Repository.path repository) = Some rel_path ->
  index !! rel_path = Some entry ->
  Staging.reset DSCS_DIR repository (Some filepath) m = Ret tt m' ->
  Staging.read_index DSCS_DIR repository m' = Ret (DIndex (delete rel_path index)) m'
  /\ (Path.plain_name (ie_hash entry) = true ->
      exists_ m' (blob (ie_hash entry)) = false)
  /\ (forall other e,
        delete rel_path index !! other = Some e ->
        Path.plain_name (ie_hash e) = true -> Path.plain_name (ie_hash entry) = true ->
        ie_hash e <> ie_hash entry ->
        exists_ m (blob (ie_hash e)) = true ->
        exists_ m' (blob (ie_hash e)) = true).
Proof.
  intros Hidx Hfp Hrel Hin.
  unfold Staging.reset, bind. rewrite Hidx. simpl. rewrite Hfp, Hrel, Hin.
  fold (blob (ie_hash entry)).
  destruct (Staging.remove_if_exists (blob (ie_hash entry)) m) as [[] m1|] eqn:Hrm; [|done].
  unfold ret, json_dump.
  intros (ki & Hki & Hdi & ->)%write_data_ret.
  destruct (remove_if_exists_ret _ _ _ Hrm) as (Hgone & Hdirs & Hkeep & Hsame).
  split; [|split].
  - unfold Staging.read_index, try_except. by rewrite (json_load_insert _ _ _ _ Hki Hdi).
  - intros Hplain. apply not_true_is_false. intros (k & Hk & Hs)%exists_iff.
    apply (resolve_insert_file m1 ki _ _ k Hdi) in Hk.
    destruct (decide (ki = k)) as [->|Hne].
    + by eapply blob_not_index.
    + rewrite node_at_insert_ne in Hs by (done || by eapply not_dir_nonroot).
      assert (exists_ m1 (blob (ie_hash entry)) = true) by (apply exists_iff; eauto).
      congruence.
  - intros other e _ Hpe Hpentry Hneq (k & Hk & Hs)%exists_iff.
    apply exists_iff. exists k.
    assert (Hk1 : resolve m1 (blob (ie_hash e)) = inr k).
    { eapply resolve_mono; [|exact Hk]. intros q. by rewrite Hdirs. }
    split; [by apply resolve_insert_file|].
    destruct (decide (ki = k)) as [->|Hne].
    + rewrite node_at_insert_eq by (by eapply not_dir_nonroot). done.
    + rewrite node_at_insert_ne by (done || by eapply not_dir_nonroot).
      destruct (exists_ m (blob (ie_hash entry))) eqn:Hex.
      * apply exists_iff in Hex as (k0 & Hk0 & _).
        rewrite (Hkeep k k0 Hk0); [done|].
        intros ->. apply Hneq. by eapply blob_inj.
      * by rewrite (Hsame eq_refl).
Qed.

End StagingFacts.

(** C7 at a concrete input. The repository object is a
    [Repository("/repo")] that carries [DSCS_DIR = ".dscs"] (the class
    defines no such attribute, and without it the constructor of [Staging]
    raises before [add] can be called). [/tmp/x] exists and lies outside
    the repository; [add] does not fail but stages it, under the index key
    ["../tmp/x"]. *)
Lemma add_outside_repository_is_staged :
  Os.value (Examples.add "/tmp/x" Examples.staging_ready) = Some tt
  /\ Os.value
       (Staging.read_index (H := Examples.host) Examples.DSCS_DIR Examples.repo
          (Examples.after (Examples.add "/tmp/x") Examples.staging_ready))
     = Some (DIndex {[ "../tmp/x"%string := IndexEntry (Sha256.hexdigest "outside") 0 ]}).
Proof. split; compute_done. Qed.

(** The sibling [Commit.stage_file] refuses the same path. *)
Example stage_file_outside_repository_fails :
  Commit.stage_file (H := Examples.host) "/repo" "/tmp/x" Examples.commit_ready
  = Os.Raise (Os.ValueError "Cannot stage files outside the repository")
             Examples.commit_ready.
Proof. compute_done. Qed.

Lemma reset_path_witness :
  let m := Examples.staged_ac in
  let m' := Examples.after (Examples.reset (Some "/repo/a.txt"%string)) m in
  Examples.read_index m'
  = Os.Ret (DIndex {[ "c.txt"%string := IndexEntry (Sha256.hexdigest "v2") 0 ]}) m'
  /\ Examples.blob_exists m' (Sha256.hexdigest "v1") = false
  /\ Examples.blob_exists m' (Sha256.hexdigest "v2") = true.
Proof.
  intros m m'.
  pose (index := ({[ "a.txt"%string := IndexEntry (Sha256.hexdigest "v1") 0;
                     "c.txt"%string := IndexEntry (Sha256.hexdigest "v2") 0 ]}
                  : gmap string index_entry)).
  assert (H1 : Examples.read_index m = Os.Ret (DIndex index) m) by compute_done.
  assert (H2 : Path.nonempty "/repo/a.txt" = true) by compute_done.
  assert (H3 : Path.relpath (cwd (Platform := Examples.host)) "/repo/a.txt"
                 (Repository.path Examples.repo) = Some "a.txt"%string) by compute_done.
  assert (H4 : index !! "a.txt"%string = Some (IndexEntry (Sha256.hexdigest "v1") 0))
    by compute_done.
  assert (H5 : Examples.reset (Some "/repo/a.txt"%string) m = Os.Ret tt m')
    by compute_done.
  assert (H6 : Examples.blob_exists m (Sha256.hexdigest "v2") = true) by compute_done.
  clearbody m m'.
  destruct (reset_path (H := Examples.host) Examples.DSCS_DIR Examples.repo
              "/repo/a.txt" "a.txt" m m' index (IndexEntry (Sha256.hexdigest "v1") 0)
              H1 H2 H3 H4 H5)
    as (Hindex & Hgone & Hkept).
  split; [|split].
  - unfold Examples.read_index. rewrite Hindex. f_equal; try compute_done.
  - apply Hgone. compute_done.
  - apply (Hkept "c.txt"%string (IndexEntry (Sha256.hexdigest "v2") 0));
      [compute_done|compute_done|compute_done|compute_done|exact H6].
Defined.

(** C8 as stated fails: [a.txt] and [b.txt] are staged with the same
    content, hence under one blob; [reset("a.txt")] removes that blob, and
    the remaining entry [b.txt] has none. *)
Lemma reset_releases_shared_blob :
  let m := Examples.staged_ab in
  let m' := Examples.after (Examples.reset (Some "/repo/a.txt"%string)) m in
  Os.value (Examples.read_index m)
  = Some (DIndex {[ "a.txt"%string := IndexEntry (Sha256.hexdigest "v1") 0;
                    "b.txt"%string := IndexEntry (Sha256.hexdigest "v1") 0 ]})
  /\ Examples.blob_exists m (Sha256.hexdigest "v1") = true
  /\ Os.value (Examples.reset (Some "/repo/a.txt"%string) m) = Some tt
  /\ Os.value (Examples.read_index m')
     = Some (DIndex {[ "b.txt"%string := IndexEntry (Sha256.hexdigest "v1") 0 ]})
  /\ Examples.blob_exists m' (Sha256.hexdigest "v1") = false.
Proof. repeat split; compute_done. Qed.

(** ** The object store *)

Section RepositoryFacts.
Import Os Os.Notations.
Local Open Scope string_scope.
Context `{Platform}.
Variable r : Repository.t.



End RepositoryFacts.



(** ** Merging *)

Section MergeFacts.
Import Os Os.Notations.
Local Open Scope string_scope.
Context `{Platform}.
Variable DSCS_DIR : string.
Variable repository : Repository.t.
Variable compare : string -> string -> io (list diff_item).

Local Abbreviation conflicts_path := (Merge.conflicts_path DSCS_DIR repository).
Local Abbreviation merge_path := (Merge.merge_path DSCS_DIR repository).
Local Abbreviation branch_path := (Merge.branch_path DSCS_DIR repository).
Local Abbreviation full_path := (Merge.full_path repository).

Local Abbreviation about := Merge.path_is.
Local Abbreviation touches := Merge.touches.

Lemma conflict_of_path (d : diff_item) (c : conflict) :
  Merge.conflict_of d = Some c -> c_path c = d_path d.
Proof.
  unfold Merge.conflict_of.
  destruct (bool_decide _); [|done]. destruct (bool_decide _); [|done].
  by intros [= <-].
Qed.

Lemma detect_conflicts_cons (d : diff_item) (l : list diff_item) :
  Merge.detect_conflicts (d :: l)
  = match Merge.conflict_of d with
    | Some c => c :: Merge.detect_conflicts l
    | None => Merge.detect_conflicts l
    end.
Proof. reflexivity. Qed.

Lemma filter_cons_if {A} (f : A -> bool) (x : A) (l : list A) :
  List.filter f (x :: l) = if f x then x :: List.filter f l else List.filter f l.
Proof. reflexivity. Qed.

(** The conflicts about a path come from the differences about it. *)
Lemma detect_conflicts_filter (p : string) (differences : list diff_item) :
  List.filter (about p) (Merge.detect_conflicts differences)
  = Merge.detect_conflicts (List.filter (touches p) differences).
Proof.
  induction differences as [|d l IH]; [reflexivity|].
  rewrite detect_conflicts_cons, (filter_cons_if (touches p)).
  destruct (Merge.conflict_of d) as [c|] eqn:Hc.
  - rewrite filter_cons_if. unfold Merge.path_is at 1, Merge.touches at 1.
    rewrite (conflict_of_path d c Hc).
    destruct (bool_decide (d_path d = Some p));
      by rewrite ?detect_conflicts_cons, ?Hc, IH.
  - destruct (touches p d); by rewrite ?detect_conflicts_cons, ?Hc, IH.
Qed.

Lemma list_conflicts_insert (m : fs) (k : path) (cs : list conflict) :
  resolve m conflicts_path = inr k -> is_dir_at m k = false ->
  Merge.list_conflicts DSCS_DIR repository (<[k := File (Doc (DConflicts cs))]> m)
  = Ret cs (<[k := File (Doc (DConflicts cs))]> m).
Proof.
  intros Hr Hk. unfold Merge.list_conflicts, try_except, bind.
  by rewrite (json_load_insert _ m k _ Hr Hk).
Qed.

(** What [merge] goes on to do when the comparison of the branches
    returns. If it reports exactly one difference for a path, a
    modification whose two sides differ, [MergeConflictError] is raised
    after the full list of detected conflicts is written to the conflict
    record; that list has exactly one conflict for the path, it is what
    [list_conflicts] reads back, and no other file (branch heads, history,
    working tree) is changed. *)
Lemma merge_with_conflict_aborts (source_branch target_branch : string) (m : fs)
    (differences : list diff_item) (p : string) (d : diff_item) (pm : path) :
  exists_ m (branch_path source_branch) = true ->
  exists_ m (branch_path target_branch) = true ->
  compare source_branch target_branch m = Ret differences m ->
  List.filter (touches p) differences = [d] ->
  d_type d = Some "modify" ->
  d_source_content d <> d_target_content d ->
  locate m merge_path = inr pm -> is_dir_at m pm = true ->
  is_dir_at m (pm ++ ["conflicts.json"]) = false ->
  let conflicts := Merge.detect_conflicts differences in
  let m' := <[(pm ++ ["conflicts.json"])%list := File (Doc (DConflicts conflicts))]> m in
  Merge.merge_with DSCS_DIR repository compare source_branch (Some target_branch) m
  = Raise (MergeConflictError
             ("Merge conflicts detected between " +:+ source_branch
                +:+ " and " +:+ target_branch)) m'
  /\ List.filter (about p) conflicts
     = [Conflict (Some p) "content_conflict" (d_source_content d) (d_target_content d)]
  /\ Merge.list_conflicts DSCS_DIR repository m' = Ret conflicts m'
  /\ (forall q, q <> (pm ++ ["conflicts.json"])%list -> m' !! q = m !! q).
Proof.
  intros Hsrc Htgt Hcmp Hone Htype Hdiff Hpm Hdir Hfile conflicts m'.
  subst conflicts m'. set (conflicts := Merge.detect_conflicts differences).
  assert (Hres : resolve m conflicts_path = inr (pm ++ ["conflicts.json"])%list)
    by (by apply resolve_join).
  assert (Habout : List.filter (about p) conflicts
     = [Conflict (Some p) "content_conflict" (d_source_content d) (d_target_content d)]).
  { unfold conflicts. rewrite detect_conflicts_filter, Hone.
    assert (Hin : In d (List.filter (touches p) differences))
      by (rewrite Hone; by left).
    apply List.filter_In in Hin as [_ Hp]. apply bool_decide_eq_true_1 in Hp.
    unfold Merge.detect_conflicts, Merge.conflict_of. simpl.
    by rewrite (bool_decide_eq_true_2 _ Htype), (bool_decide_eq_true_2 _ Hdiff), Hp. }
  split; [|split; [done|split]].
  - unfold Merge.merge_with, bind, ret, get_fs, raise.
    rewrite Hsrc, Htgt. simpl. rewrite Hcmp. fold conflicts.
    destruct conflicts as [|c cs]; [done|].
    unfold Merge.store_conflicts, json_dump, write_data. rewrite Hres.
    unfold is_dir_at in Hfile.
    by destruct (node_at m (pm ++ ["conflicts.json"])) as [[?|]|].
  - by apply list_conflicts_insert.
  - intros q Hq. by rewrite lookup_insert_ne.
Qed.

(** As the code stands the comparison never returns: once both branches
    are found, [merge] raises the [TypeError] of [Diff.__init__], with
    nothing compared and nothing written. *)
Lemma merge_raises (source_branch target_branch : string) (m : fs) :
  exists_ m (branch_path source_branch) = true ->
  exists_ m (branch_path target_branch) = true ->
  Merge.merge DSCS_DIR repository source_branch (Some target_branch) m
  = Raise (TypeError "expected str, bytes or os.PathLike object, not Repository") m.
Proof.
  intros Hsrc Htgt. unfold Merge.merge, Merge.merge_with, bind, ret, get_fs.
  by rewrite Hsrc, Htgt.
Qed.

(** No call of [merge] returns a result. *)
Lemma merge_never_returns (source_branch : string) (target_branch : option string)
    (m m' : fs) (r : merge_result) :
  Merge.merge DSCS_DIR repository source_branch target_branch m <> Ret r m'.
Proof.
  unfold Merge.merge, Merge.merge_with, bind, get_fs.
  destruct (match target_branch with
            | Some t => ret t
            | None => Repository.get_current_branch repository
            end m) as [t m1|e m1]; [|done].
  destruct (exists_ m1 (branch_path source_branch)); [|done].
  by destruct (exists_ m1 (branch_path t)).
Qed.
End MergeFacts.

Section ResolveFacts.
Import Os Os.Notations.
Local Open Scope string_scope.
Context `{Platform}.
Variable DSCS_DIR : string.
Variable repository : Repository.t.

Local Abbreviation conflicts_path := (Merge.conflicts_path DSCS_DIR repository).
Local Abbreviation full_path := (Merge.full_path repository).

Lemma resolve_opt_same_dirs (m m' : fs) (s : string) :
  (forall q, is_dir_at m' q = is_dir_at m q) ->
  resolve_opt m' s = resolve_opt m s.
Proof.
  intros Hd. unfold resolve_opt.
  destruct (resolve m s) as [e|p] eqn:Hm.
  - destruct (resolve m' s) as [e'|p'] eqn:Hm'; [done|].
    rewrite (resolve_mono m' m s p') in Hm; [done| |done].
    intros q. by rewrite Hd.
  - rewrite (resolve_mono m m' s p); [done| |done]. intros q. by rewrite Hd.
Qed.

Lemma resolve_opt_some (m : fs) (s : string) (p : path) :
  resolve_opt m s = Some p <-> resolve m s = inr p.
Proof. unfold resolve_opt. destruct (resolve m s); split; congruence. Qed.

Lemma find_none_filter (fp : string) (cs : list conflict) :
  List.find (Merge.path_is fp) cs = None ->
  List.filter (fun c => negb (Merge.path_is fp c)) cs = cs.
Proof.
  induction cs as [|c cs IH]; [done|]. simpl.
  destruct (Merge.path_is fp c); [done|]. simpl. intros Hf. by rewrite IH.
Qed.

Lemma filter_filter_and {A} (f g : A -> bool) (l : list A) :
  List.filter g (List.filter f l) = List.filter (fun x => f x && g x) l.
Proof.
  induction l as [|x l IH]; [done|]. rewrite !filter_cons_if.
  destruct (f x); simpl; by rewrite IH.
Qed.

Lemma remaining_cons (fp content : string) (rest : list (string * string))
    (cs : list conflict) :
  Merge.remaining ((fp, content) :: rest) cs
  = Merge.remaining rest (List.filter (fun c => negb (Merge.path_is fp c)) cs).
Proof.
  unfold Merge.remaining. rewrite filter_filter_and. apply List.filter_ext.
  intros c. unfold Merge.resolved_by. simpl. by rewrite negb_orb.
Qed.

Lemma apply_resolutions_ret (resolutions : list (string * string))
    (cs cs' : list conflict) (m m' : fs) :
  Merge.apply_resolutions repository resolutions cs m = Ret cs' m' ->
  NoDup (Merge.targets repository m resolutions cs) ->
  cs' = Merge.remaining resolutions cs
  /\ (forall q, is_dir_at m' q = is_dir_at m q)
  /\ (forall q, Some q ∉ Merge.targets repository m resolutions cs ->
                node_at m' q = node_at m q)
  /\ (forall fp content, In (fp, content) (Merge.written resolutions cs) ->
        exists k, resolve m (full_path fp) = inr k
                  /\ node_at m' k = Some (File (Raw content))).
Proof.
  revert cs m. induction resolutions as [|[fp content] rest IH]; intros cs m.
  - intros [= <- <-] _. unfold Merge.remaining. simpl.
    split; [|by repeat split].
    induction cs as [|c cs IHc]; [done|]. simpl. by rewrite <- IHc.
  - intros Hret Hnd. simpl in Hret.
    destruct (List.find (Merge.path_is fp) cs) as [c0|] eqn:Hfind.
    + set (cs1 := List.filter (fun c => negb (Merge.path_is fp c)) cs) in *.
      assert (Hwe : Merge.written ((fp, content) :: rest) cs
                    = (fp, content) :: Merge.written rest cs1)
        by (simpl; by rewrite Hfind).
      assert (Hte : Merge.targets repository m ((fp, content) :: rest) cs
                    = resolve_opt m (full_path fp) :: Merge.targets repository m rest cs1)
        by (unfold Merge.targets; by rewrite Hwe).
      rewrite Hwe, Hte in *. clear Hwe Hte.
      unfold bind in Hret.
      destruct (write_data (full_path fp) (Raw content) m) as [[] m1|] eqn:Hw; [|done].
      apply write_data_ret in Hw as (k & Hk & Hndir & ->).
      set (m1 := <[k := File (Raw content)]> m) in *.
      assert (Hd1 : forall q, is_dir_at m1 q = is_dir_at m q)
        by (intros q; by apply is_dir_at_insert_file).
      assert (Ht : Merge.targets repository m1 rest cs1 = Merge.targets repository m rest cs1).
      { unfold Merge.targets. apply map_ext. intros [fp' c'].
        by apply resolve_opt_same_dirs. }
      assert (Hko : resolve_opt m (full_path fp) = Some k) by (by apply resolve_opt_some).
      rewrite Hko in *. apply NoDup_cons in Hnd as [Hnotin Hnd].
      destruct (IH cs1 m1 Hret ltac:(by rewrite Ht)) as (Hcs & Hdirs & Hframe & Hwr).
      rewrite Ht in Hframe.
      assert (Hkne : k <> []) by (by eapply not_dir_nonroot).
      split; [by rewrite remaining_cons|]. split; [|split].
      * intros q. by rewrite Hdirs, Hd1.
      * intros q Hq. apply not_elem_of_cons in Hq as [Hqk Hq].
        rewrite (Hframe q Hq). unfold m1. rewrite node_at_insert_ne; [done| |done].
        congruence.
      * intros fp' content' [[= <- <-]|Hin].
        -- exists k. split; [done|]. rewrite (Hframe k Hnotin).
           unfold m1. by rewrite node_at_insert_eq.
        -- destruct (Hwr fp' content' Hin) as (k' & Hk' & Hn').
           exists k'. split; [|done]. by apply (resolve_insert_file m k (Raw content)).
    + assert (Hwe : Merge.written ((fp, content) :: rest) cs = Merge.written rest cs)
        by (simpl; by rewrite Hfind).
      assert (Hte : Merge.targets repository m ((fp, content) :: rest) cs
                    = Merge.targets repository m rest cs)
        by (unfold Merge.targets; by rewrite Hwe).
      rewrite Hwe, Hte in *.
      destruct (IH cs m Hret Hnd) as (Hcs & Hdirs & Hframe & Hwr).
      split; [|done].
      by rewrite remaining_cons, (find_none_filter fp cs Hfind).
Qed.


Lemma find_path_is_some (fp : string) (cs : list conflict) :
  In (Some fp) (map c_path cs) -> List.find (Merge.path_is fp) cs <> None.
Proof.
  intros (c & Hc & Hin)%in_map_iff Hnone.
  pose proof (List.find_none _ _ Hnone c Hin) as Hf.
  unfold Merge.path_is in Hf. by apply bool_decide_eq_false_1 in Hf.
Qed.

(** With distinct keys, the items written are those whose key is the
    path of a pending conflict. *)
Lemma written_spec (resolutions : list (string * string)) (cs : list conflict)
    (fp content : string) :
  NoDup (map fst resolutions) ->
  In (fp, content) resolutions -> In (Some fp) (map c_path cs) ->
  In (fp, content) (Merge.written resolutions cs).
Proof.
  revert cs. induction resolutions as [|[fp0 c0] rest IH]; intros cs Hnd Hin Hp; [done|].
  simpl in Hnd. apply NoDup_cons in Hnd as [Hfresh Hnd]. simpl.
  destruct Hin as [[= -> ->]|Hin].
  - destruct (List.find (Merge.path_is fp) cs) eqn:Hf; [by left|].
    by destruct (find_path_is_some fp cs Hp).
  - assert (Hne : fp <> fp0).
    { intros ->. apply Hfresh. apply list_elem_of_In.
      apply in_map_iff. by exists (fp0, content). }
    destruct (List.find (Merge.path_is fp0) cs) eqn:Hf.
    + right. apply IH; [done|done|].
      apply in_map_iff in Hp as (c1 & Hc & Hcin). apply in_map_iff. exists c1.
      split; [done|]. apply List.filter_In. split; [done|].
      apply negb_true_iff, bool_decide_eq_false_2. congruence.
    + by apply IH.
Qed.

Lemma remaining_spec (resolutions : list (string * string)) (cs : list conflict)
    (c : conflict) :
  In c (Merge.remaining resolutions cs)
  <-> In c cs /\ forall fp content, In (fp, content) resolutions -> c_path c <> Some fp.
Proof.
  unfold Merge.remaining. rewrite List.filter_In, negb_true_iff.
  unfold Merge.resolved_by. split; intros [Hin Hno]; (split; [done|]).
  - intros fp content Hr Hc.
    assert (existsb (fun '(file_path, _) => Merge.path_is file_path c) resolutions = true);
      [|congruence].
    apply existsb_exists. exists (fp, content). split; [done|].
    by apply bool_decide_eq_true_2.
  - apply not_true_is_false. intros ([fp content] & Hr & Hp)%existsb_exists.
    apply bool_decide_eq_true_1 in Hp. by apply (Hno fp content).
Qed.

Lemma json_load_not_found (s : string) (m m0 : fs) :
  json_load s m = Raise FileNotFoundError m0 -> exists_ m s = false.
Proof.
  unfold json_load, bind, read_data, exists_.
  destruct (stat m s) as [e|[p [d|]]]; [done| |done].
  destruct d as [b|j]; [|done]. by destruct (json_parse b).
Qed.

Lemma apply_resolutions_dirs (resolutions : list (string * string))
    (cs cs' : list conflict) (m m' : fs) :
  Merge.apply_resolutions repository resolutions cs m = Ret cs' m' ->
  forall q, is_dir_at m' q = is_dir_at m q.
Proof.
  revert cs m. induction resolutions as [|[fp content] rest IH]; intros cs m; simpl.
  - by intros [= _ <-].
  - destruct (List.find (Merge.path_is fp) cs); [|by apply IH].
    unfold bind.
    destruct (write_data (full_path fp) (Raw content) m) as [[] m1|] eqn:Hw; [|done].
    apply write_data_ret in Hw as (k & _ & Hndir & ->).
    intros Hret q. rewrite (IH _ _ Hret q). by apply is_dir_at_insert_file.
Qed.

(** The two ways [resolve_conflicts] returns: at once when there is no
    conflict record, or after the loop, having rewritten or removed it. *)
Lemma resolve_conflicts_cases (resolutions : list (string * string))
    (conflicts : list conflict) (m m' : fs) :
  Merge.list_conflicts DSCS_DIR repository m = Ret conflicts m ->
  Merge.resolve_conflicts DSCS_DIR repository resolutions m = Ret tt m' ->
  (conflicts = [] /\ m' = m /\ exists_ m conflicts_path = false)
  \/ exists kc m1 cs',
       resolve m conflicts_path = inr kc /\ is_dir_at m kc = false
       /\ Merge.apply_resolutions repository resolutions conflicts m = Ret cs' m1
       /\ ((cs' <> [] /\ m' = <[kc := File (Doc (DConflicts cs'))]> m1)
           \/ (cs' = [] /\ m' = delete kc m1)).
Proof.
  unfold Merge.list_conflicts, Merge.resolve_conflicts, try_except, bind.
  destruct (json_load conflicts_path m) as [j m0|e m0] eqn:Hload.
  - apply json_load_ret in Hload as [-> (kc & Hkc & Hdir)].
    destruct j as [cs| | |]; simpl; try done. intros [= ->].
    destruct (Merge.apply_resolutions repository resolutions conflicts m)
      as [cs' m1|] eqn:Happ; [|done].
    intros Hfin. right. exists kc, m1, cs'. split; [done|]. split; [done|]. split; [done|].
    pose proof (apply_resolutions_dirs _ _ _ _ _ Happ) as Hd1.
    assert (Hkc1 : resolve m1 conflicts_path = inr kc).
    { eapply resolve_mono; [|exact Hkc]. intros q. by rewrite Hd1. }
    destruct cs' as [|c cs'].
    + right. split; [done|].
      apply remove_ret in Hfin as (k & d & Hk & _ & ->). congruence.
    + left. split; [done|]. unfold json_dump in Hfin.
      apply write_data_ret in Hfin as (k & Hk & _ & ->). congruence.
  - pose proof (json_load_pure conflicts_path m) as Hpure. rewrite Hload in Hpure.
    simpl in Hpure. subst m0.
    destruct e; simpl; try done. intros [= <-] [= <-].
    left. split; [done|]. split; [done|]. by eapply json_load_not_found.
Qed.

(** C9. For every pending conflict set and every resolution map (distinct
    keys, the files written being distinct and none of them the conflict
    record), a call of [resolve_conflicts] that returns has written the
    supplied content for each key that is the path of a pending conflict,
    and has removed exactly those paths from the set: what [list_conflicts]
    reads afterwards is the rest, and the conflict record exists if and
    only if that rest is not empty. *)
Theorem resolve_conflicts_spec (resolutions : list (string * string))
    (conflicts : list conflict) (m m' : fs) :
  Merge.list_conflicts DSCS_DIR repository m = Ret conflicts m ->
  Merge.resolve_conflicts DSCS_DIR repository resolutions m = Ret tt m' ->
  NoDup (map fst resolutions) ->
  NoDup (Merge.targets repository m resolutions conflicts) ->
  resolve_opt m conflicts_path ∉ Merge.targets repository m resolutions conflicts ->
  let remaining := Merge.remaining resolutions conflicts in
  Merge.list_conflicts DSCS_DIR repository m' = Ret remaining m'
  /\ (exists_ m' conflicts_path = true <-> remaining <> [])
  /\ (forall fp content,
        In (fp, content) resolutions -> In (Some fp) (map c_path conflicts) ->
        exists k, resolve m (full_path fp) = inr k
                  /\ m' !! k = Some (File (Raw content)))
  /\ (forall c, In c remaining
                <-> In c conflicts
                    /\ forall fp content, In (fp, content) resolutions -> c_path c <> Some fp).
Proof.
  intros Hlist Hret Hkeys Hnd Hrec remaining.
  destruct (resolve_conflicts_cases _ _ _ _ Hlist Hret)
    as [(-> & -> & Hex)|(kc & m1 & cs' & Hkc & Hdir & Happ & Hfin)].
  { subst remaining. unfold Merge.remaining. simpl.
    split; [done|]. split; [by rewrite Hex|]. split; [done|].
    intros c. simpl. tauto. }
  destruct (apply_resolutions_ret _ _ _ _ _ Happ Hnd) as (Hcs & Hd1 & Hframe & Hwr).
  fold remaining in Hcs. subst cs'.
  assert (Hkc1 : resolve m1 conflicts_path = inr kc).
  { eapply resolve_mono; [|exact Hkc]. intros q. by rewrite Hd1. }
  assert (Hdir1 : is_dir_at m1 kc = false) by (by rewrite Hd1).
  assert (Hkco : resolve_opt m conflicts_path = Some kc) by (by apply resolve_opt_some).
  rewrite Hkco in Hrec.
  assert (Hkne : kc <> []) by (by eapply not_dir_nonroot).
  assert (Hwritten : forall fp content,
            In (fp, content) resolutions -> In (Some fp) (map c_path conflicts) ->
            exists k, resolve m (full_path fp) = inr k /\ k <> kc /\ k <> []
                      /\ node_at m1 k = Some (File (Raw content))).
  { intros fp content Hin Hp.
    pose proof (written_spec _ _ _ _ Hkeys Hin Hp) as Hw.
    destruct (Hwr fp content Hw) as (k & Hk & Hn). exists k. split; [done|].
    split; [|split; [|done]].
    - intros ->. apply Hrec. apply list_elem_of_In. unfold Merge.targets.
      apply in_map_iff. exists (fp, content). split; [|done].
      by apply resolve_opt_some.
    - intros ->. done. }
  split; [|split; [|split]]; [| | |apply remaining_spec].
  - destruct Hfin as [[Hne ->]|[Hnil ->]].
    + by apply list_conflicts_insert.
    + rewrite Hnil.
      unfold Merge.list_conflicts, try_except, json_load, read_data, stat; unfold bind.
      rewrite (proj2 (resolve_delete_file m1 kc _ kc Hdir1) Hkc1).
      destruct kc as [|c kc]; [done|]. simpl. by rewrite lookup_delete_eq.
  - destruct Hfin as [[Hne ->]|[Hnil ->]].
    + split; [done|]. intros _. apply exists_iff. exists kc.
      split; [by apply resolve_insert_file|]. by rewrite node_at_insert_eq.
    + split; [|done]. intros (k & Hk & Hs)%exists_iff.
      apply (resolve_delete_file m1 kc _ k Hdir1) in Hk.
      assert (k = kc) as -> by congruence.
      destruct kc as [|c kc]; [done|]. simpl in Hs. rewrite lookup_delete_eq in Hs.
      by destruct Hs.
  - intros fp content Hin Hp.
    destruct (Hwritten fp content Hin Hp) as (k & Hk & Hne & Hnr & Hn).
    exists k. split; [done|].
    destruct k as [|c k]; [done|]. simpl in Hn.
    destruct Hfin as [[_ ->]|[_ ->]].
    + by rewrite lookup_insert_ne.
    + by rewrite lookup_delete_ne.
Qed.
End ResolveFacts.

(** C3 at a concrete input. The branches [feat] and [main] both exist;
    [merge("feat", "main")] raises [TypeError] where it builds the [Diff],
    whatever the two branches hold: no conflict is detected, none is
    recorded, and the file system is as it was. *)
Theorem merge_feat_main_raises :
  Examples.merge "feat" (Some "main"%string) Examples.merge_ready
  = Os.Raise (Os.TypeError "expected str, bytes or os.PathLike object, not Repository")
             Examples.merge_ready
  /\ Examples.list_conflicts Examples.merge_ready = Os.Ret [] Examples.merge_ready.
Proof. split; compute_done. Qed.

(** With a comparison that returns (one modification of [a.txt] whose two
    sides differ, one addition), the rest of [merge] records the one
    conflict and changes nothing else. *)
Example merge_compared_conflict_aborts :
  let m := Examples.merge_ready in
  let o := Examples.merge_compared "feat" (Some "main"%string) m in
  Os.raised o
  = Some (Os.MergeConflictError "Merge conflicts detected between feat and main")
  /\ Examples.list_conflicts (Os.final_fs o)
     = Os.Ret [Conflict (Some "a.txt"%string) "content_conflict"
                 (Some "v3"%string) (Some "v2"%string)] (Os.final_fs o)
  /\ (forall q, q <> ["repo"; ".dscs"; "merges"; "conflicts.json"]%string ->
                Os.final_fs o !! q = m !! q).
Proof.
  intros m o.
  pose (d := DiffItem (Some "modify"%string) (Some "a.txt"%string)
               (Some "v3"%string) (Some "v2"%string) None).
  pose (pm := ["repo"; ".dscs"; "merges"]%string).
  assert (H1 : Os.exists_ (H := Examples.host) m
                 (Merge.branch_path Examples.DSCS_DIR Examples.repo "feat") = true)
    by compute_done.
  assert (H2 : Os.exists_ (H := Examples.host) m
                 (Merge.branch_path Examples.DSCS_DIR Examples.repo "main") = true)
    by compute_done.
  assert (H3 : Examples.compare "feat" "main" m = Os.Ret Examples.example_differences m)
    by reflexivity.
  assert (H4 : List.filter (Merge.touches "a.txt") Examples.example_differences = [d])
    by compute_done.
  assert (H5 : d_type d = Some "modify"%string) by reflexivity.
  assert (H6 : d_source_content d <> d_target_content d) by compute_done.
  assert (H7 : Os.locate (H := Examples.host) m
                 (Merge.merge_path Examples.DSCS_DIR Examples.repo) = inr pm)
    by compute_done.
  assert (H8 : Os.is_dir_at m pm = true) by compute_done.
  assert (H9 : Os.is_dir_at m (pm ++ ["conflicts.json"%string]) = false) by compute_done.
  clearbody m.
  destruct (merge_with_conflict_aborts (H := Examples.host) Examples.DSCS_DIR Examples.repo
              Examples.compare "feat" "main" m Examples.example_differences
              "a.txt" d pm H1 H2 H3 H4 H5 H6 H7 H8 H9)
    as (Hmerge & _ & Hlist & Hframe).
  unfold o, Examples.merge_compared, Examples.list_conflicts. rewrite Hmerge.
  split; [reflexivity|]. split; [exact Hlist|exact Hframe].
Qed.

Lemma resolve_conflicts_spec_witness :
  let m := Examples.conflicts_pending in
  let m' := Examples.after (Examples.resolve_conflicts [("a.txt", "merged")]%string) m in
  Examples.list_conflicts m'
  = Os.Ret [Conflict (Some "b.txt"%string) "content_conflict"
              (Some "x"%string) (Some "y"%string)] m'
  /\ Os.exists_ (H := Examples.host) m'
       (Merge.conflicts_path Examples.DSCS_DIR Examples.repo) = true
  /\ m' !! ["repo"; "a.txt"]%string = Some (Os.File (Os.Raw "merged")).
Proof.
  intros m m'.
  assert (H1 : Examples.list_conflicts m = Os.Ret Examples.two_conflicts m)
    by compute_done.
  assert (H2 : Examples.resolve_conflicts [("a.txt", "merged")]%string m = Os.Ret tt m')
    by compute_done.
  assert (H3 : NoDup (map fst [("a.txt", "merged")]%string)) by compute_done.
  assert (H4 : NoDup (Merge.targets (H := Examples.host) Examples.repo m
                        [("a.txt", "merged")]%string Examples.two_conflicts))
    by compute_done.
  assert (H5 : Os.resolve_opt (H := Examples.host) m
                 (Merge.conflicts_path Examples.DSCS_DIR Examples.repo)
               ∉ Merge.targets (H := Examples.host) Examples.repo m
                   [("a.txt", "merged")]%string Examples.two_conflicts)
    by compute_done.
  assert (Hr : Os.resolve (H := Examples.host) m (Merge.full_path Examples.repo "a.txt")
               = inr ["repo"; "a.txt"]%string) by compute_done.
  clearbody m m'.
  destruct (resolve_conflicts_spec (H := Examples.host) Examples.DSCS_DIR Examples.repo
              [("a.txt", "merged")]%string Examples.two_conflicts m m' H1 H2 H3 H4 H5)
    as (Hlist & Hex & Hwr & _).
  split; [exact Hlist|]. split; [by apply Hex|].
  destruct (Hwr "a.txt"%string "merged"%string) as (k & Hk & Hk'); [by left|by left|].
  assert (k = ["repo"; "a.txt"]%string) as <-; [|exact Hk'].
  congruence.
Defined.

(** Once the last pending path is resolved the conflict record is gone. *)
Example resolve_all_conflicts_deletes_record :
  let m' :=
    Examples.after
      (Examples.resolve_conflicts [("a.txt", "merged"); ("b.txt", "both")]%string)
      Examples.conflicts_pending in
  Os.value (Examples.list_conflicts m') = Some []
  /\ Os.exists_ (H := Examples.host) m'
       (Merge.conflicts_path Examples.DSCS_DIR Examples.repo) = false
  /\ m' !! ["repo"; "b.txt"]%string = Some (Os.File (Os.Raw "both")).
Proof. repeat split; compute_done. Qed.
(** ** The branch registry: switching, heads, construction *)

Section BranchRegistry.
Import Os Os.Notations.
Local Open Scope string_scope.
Context `{Platform}.
Variable repo_path : string.

Local Abbreviation load_config := (Branch.load_config repo_path).
Local Abbreviation branches_file := (Branch.branches_file repo_path).

(** Dumping a configuration: the file system after it, and what loads. *)
Lemma dump_config_ret (bc : branches_config) (m m' : fs) :
  json_dump (DBranches bc) branches_file m = Ret tt m' ->
  load_config m' = Ret bc m'.
Proof.
  unfold json_dump. intros (k & Hk & Hd & ->)%write_data_ret.
  by apply load_config_insert.
Qed.

Lemma get_branch_head_loaded (m : fs) (bc : branches_config) (name : string) :
  load_config m = Ret bc m -> Path.nonempty name = true ->
  value (Branch.get_branch_head repo_path (Some name) m)
  = head_commit <$> branches bc !! name.
Proof.
  intros Hload Hname. unfold Branch.get_branch_head, bind. rewrite Hload. simpl.
  rewrite Hname. by destruct (branches bc !! name).
Qed.

Lemma get_current_branch_loaded (m : fs) (bc : branches_config) :
  load_config m = Ret bc m ->
  Branch.get_current_branch repo_path m = Ret (current_branch bc) m.
Proof. intros Hload. unfold Branch.get_current_branch, bind. by rewrite Hload. Qed.

Lemma load_config_ret_same (m m' : fs) (bc : branches_config) :
  load_config m = Ret bc m' -> load_config m = Ret bc m.
Proof. intros Hload. by destruct (load_config_ret _ _ _ _ Hload) as [-> _]. Qed.

(** X1. When [switch_branch(b)] returns, it returns [b], [b] is a
    registered branch, [get_current_branch] now answers [b], and every
    branch has the head it had. *)
Theorem switch_branch_then_current (b r : string) (m m' : fs) :
  Branch.switch_branch repo_path b m = Ret r m' ->
  r = b
  /\ is_Some (value (Branch.get_branch_head repo_path (Some b) m'))
  /\ Branch.get_current_branch repo_path m' = Ret b m'
  /\ forall name, Path.nonempty name = true ->
       value (Branch.get_branch_head repo_path (Some name) m')
       = value (Branch.get_branch_head repo_path (Some name) m).
Proof.
  unfold Branch.switch_branch, bind.
  destruct (load_config m) as [bc m0|] eqn:Hload; [|done].
  pose proof (load_config_ret_same _ _ _ Hload) as Hload0.
  destruct (load_config_ret _ _ _ _ Hload) as [-> _].
  destruct (branches bc !! b) as [info|] eqn:Hb; [|done].
  destruct (json_dump _ _ m) as [[] m1|] eqn:Hdump; [|done].
  intros [= <- <-]. apply dump_config_ret in Hdump.
  split; [done|]. split; [|split].
  - unfold Branch.get_branch_head, bind. rewrite Hdump. simpl.
    destruct (Path.nonempty b); simpl; by rewrite Hb.
  - by rewrite (get_current_branch_loaded _ _ Hdump).
  - intros name Hname.
    by rewrite (get_branch_head_loaded _ _ _ Hdump Hname),
               (get_branch_head_loaded _ _ _ Hload0 Hname).
Qed.

(** X2. When [update_branch_head(b, h)] returns, [get_branch_head(b)]
    answers [h], every other branch has the head it had, and the current
    branch is the same. *)
Theorem update_branch_head_then_head (b h : string) (m m' : fs) :
  Path.nonempty b = true ->
  Branch.update_branch_head repo_path b h m = Ret tt m' ->
  Branch.get_branch_head repo_path (Some b) m' = Ret (Some h) m'
  /\ (forall name, Path.nonempty name = true -> name <> b ->
        value (Branch.get_branch_head repo_path (Some name) m')
        = value (Branch.get_branch_head repo_path (Some name) m))
  /\ value (Branch.get_current_branch repo_path m')
     = value (Branch.get_current_branch repo_path m).
Proof.
  intros Hne. unfold Branch.update_branch_head, bind.
  destruct (load_config m) as [bc m0|] eqn:Hload; [|done].
  pose proof (load_config_ret_same _ _ _ Hload) as Hload0.
  destruct (load_config_ret _ _ _ _ Hload) as [-> _].
  destruct (branches bc !! b) as [info|] eqn:Hb; [|done].
  intros Hdump. apply dump_config_ret in Hdump.
  split; [|split].
  - unfold Branch.get_branch_head, bind. rewrite Hdump. simpl. rewrite Hne.
    by rewrite lookup_insert_eq.
  - intros name Hname Hneq.
    rewrite (get_branch_head_loaded _ _ _ Hdump Hname),
            (get_branch_head_loaded _ _ _ Hload0 Hname). simpl.
    by rewrite lookup_insert_ne.
  - by rewrite (get_current_branch_loaded _ _ Hdump),
               (get_current_branch_loaded _ _ Hload0).
Qed.

(** X3. A name that is not registered makes [switch_branch],
    [update_branch_head] and [get_branch_head] raise the same
    [ValueError], and nothing is written. *)
Theorem unknown_branch_raises (b h : string) (m : fs) (bc : branches_config) :
  load_config m = Ret bc m ->
  Path.nonempty b = true ->
  branches bc !! b = None ->
  let missing := ValueError ("Branch '" +:+ b +:+ "' does not exist.") in
  Branch.switch_branch repo_path b m = Raise missing m
  /\ Branch.update_branch_head repo_path b h m = Raise missing m
  /\ Branch.get_branch_head repo_path (Some b) m = Raise missing m.
Proof.
  intros Hload Hne Hb missing.
  unfold Branch.switch_branch, Branch.update_branch_head, Branch.get_branch_head, bind.
  rewrite Hload. simpl. by rewrite Hne, Hb.
Qed.

(** X4. With no branch name given, or an empty one, [get_branch_head]
    answers for the current branch. *)
Theorem get_branch_head_defaults_to_current (m : fs) (bc : branches_config) :
  load_config m = Ret bc m ->
  Path.nonempty (current_branch bc) = true ->
  Branch.get_branch_head repo_path None m
  = Branch.get_branch_head repo_path (Some (current_branch bc)) m
  /\ Branch.get_branch_head repo_path (Some "") m
     = Branch.get_branch_head repo_path (Some (current_branch bc)) m.
Proof.
  intros Hload Hcur. unfold Branch.get_branch_head, bind. rewrite Hload. simpl.
  by rewrite Hcur.
Qed.

(** X5. When the constructor returns, [main] is registered. If the file
    [branches.json] was there it is left as it was; if not, the registry
    written holds [main] alone, current, with no head. Where an existing
    registry lacks [main], the constructor raises [AttributeError] at the
    clock expression and writes nothing. *)
Theorem init_registers_main (m : fs) :
  (forall m', Branch.init repo_path m = Ret tt m' ->
     exists bc, load_config m' = Ret bc m'
                /\ is_Some (branches bc !! "main")
                /\ (exists_ m branches_file = true -> m' = m)
                /\ (exists_ m branches_file = false -> bc = Branch.initial_branches))
  /\ (forall bc, exists_ m branches_file = true -> load_config m = Ret bc m ->
        branches bc !! "main" = None ->
        Branch.init repo_path m
        = Raise (AttributeError "module 'datetime' has no attribute 'now'") m).
Proof.
  split.
  - intros m'. unfold Branch.init, bind, get_fs.
    destruct (exists_ m branches_file) eqn:Hex; cbn [negb]; cbv beta iota.
    + unfold ret at 1. cbv beta iota.
      destruct (load_config m) as [bc m0|] eqn:Hload; [|done].
      pose proof (load_config_ret_same _ _ _ Hload) as Hload0.
      destruct (load_config_ret _ _ _ _ Hload) as [-> _].
      destruct (branches bc !! "main") as [info|] eqn:Hmain; [|done].
      unfold ret. intros [= <-]. exists bc. by rewrite Hmain.
    + destruct (makedirs _ _ m) as [[] m1|]; [|done].
      destruct (json_dump _ _ m1) as [[] m2|] eqn:Hdump; [|done].
      apply dump_config_ret in Hdump. rewrite Hdump. simpl.
      intros [= <-]. by exists Branch.initial_branches.
  - intros bc Hex Hload Hmain. unfold Branch.init, bind, get_fs.
    rewrite Hex. cbn [negb]. cbv beta iota. unfold ret at 1. cbv beta iota.
    by rewrite Hload, Hmain.
Qed.

End BranchRegistry.

Section BranchRegistryExamples.
Import Os.
Local Open Scope string_scope.

Lemma switch_branch_then_current_witness :
  Branch.get_current_branch (H := Examples.host) "/repo"
    (Examples.after (Branch.switch_branch (H := Examples.host) "/repo" "feat")
                    Examples.two_branches)
  = Ret "feat"
      (Examples.after (Branch.switch_branch (H := Examples.host) "/repo" "feat")
                      Examples.two_branches).
Proof.
  assert (Hret : Branch.switch_branch (H := Examples.host) "/repo" "feat" Examples.two_branches
                 = Ret "feat"
                     (Examples.after (Branch.switch_branch (H := Examples.host) "/repo" "feat")
                                     Examples.two_branches)) by compute_done.
  by destruct (switch_branch_then_current (H := Examples.host) "/repo" "feat" "feat" _ _ Hret)
    as (_ & _ & Hcur & _).
Defined.

Lemma update_branch_head_then_head_witness :
  Branch.get_branch_head (H := Examples.host) "/repo" (Some "feat")
    (Examples.after (Branch.update_branch_head (H := Examples.host) "/repo" "feat" "298b2221")
                    Examples.two_branches)
  = Ret (Some "298b2221")
      (Examples.after (Branch.update_branch_head (H := Examples.host) "/repo" "feat" "298b2221")
                      Examples.two_branches).
Proof.
  assert (Hne : Path.nonempty "feat" = true) by reflexivity.
  assert (Hret : Branch.update_branch_head (H := Examples.host) "/repo" "feat" "298b2221"
                   Examples.two_branches
                 = Ret tt
                     (Examples.after
                        (Branch.update_branch_head (H := Examples.host) "/repo" "feat" "298b2221")
                        Examples.two_branches)) by compute_done.
  by destruct (update_branch_head_then_head (H := Examples.host) "/repo" "feat" "298b2221"
                 _ _ Hne Hret) as (Hhead & _).
Defined.

Lemma unknown_branch_raises_witness :
  Branch.switch_branch (H := Examples.host) "/repo" "topic" Examples.two_branches
  = Raise (ValueError "Branch 'topic' does not exist.") Examples.two_branches
  /\ Branch.update_branch_head (H := Examples.host) "/repo" "topic" "298b2221"
       Examples.two_branches
     = Raise (ValueError "Branch 'topic' does not exist.") Examples.two_branches
  /\ Branch.get_branch_head (H := Examples.host) "/repo" (Some "topic") Examples.two_branches
     = Raise (ValueError "Branch 'topic' does not exist.") Examples.two_branches.
Proof.
  assert (Hload : Branch.load_config (H := Examples.host) "/repo" Examples.two_branches
                  = Ret Examples.two_branches_config Examples.two_branches) by compute_done.
  assert (Hne : Path.nonempty "topic" = true) by reflexivity.
  assert (Hb : branches Examples.two_branches_config !! "topic" = None) by compute_done.
  exact (unknown_branch_raises (H := Examples.host) "/repo" "topic" "298b2221"
           Examples.two_branches Examples.two_branches_config Hload Hne Hb).
Defined.

Lemma get_branch_head_defaults_to_current_witness :
  Branch.get_branch_head (H := Examples.host) "/repo" None Examples.two_branches
  = Branch.get_branch_head (H := Examples.host) "/repo" (Some "main") Examples.two_branches
  /\ Branch.get_branch_head (H := Examples.host) "/repo" (Some "") Examples.two_branches
     = Branch.get_branch_head (H := Examples.host) "/repo" (Some "main") Examples.two_branches.
Proof.
  assert (Hload : Branch.load_config (H := Examples.host) "/repo" Examples.two_branches
                  = Ret Examples.two_branches_config Examples.two_branches) by compute_done.
  assert (Hne : Path.nonempty (current_branch Examples.two_branches_config) = true)
    by reflexivity.
  exact (get_branch_head_defaults_to_current (H := Examples.host) "/repo"
           Examples.two_branches Examples.two_branches_config Hload Hne).
Defined.

End BranchRegistryExamples.
(** ** The current branch of a repository *)

Section TextFacts.
Local Open Scope string_scope.

Lemma name_char_spec (c : Ascii.ascii) :
  Names.name_char c = true ->
  Path.is_space c = false /\ Ascii.eqb c Text.CR = false
  /\ N.leb (Ascii.N_of_ascii c) 0x7F = true /\ Ascii.eqb c Path.slash = false.
Proof.
  unfold Names.name_char. intros [[H1 H2]%andb_true_iff H3%negb_true_iff]%andb_true_iff.
  apply Nat.ltb_lt in H1, H2.
  split; [|split; [|split]]; [| | |done].
  - unfold Path.is_space. repeat (apply orb_false_iff; split).
    + apply Nat.eqb_neq. lia.
    + apply andb_false_iff. right. apply Nat.leb_gt. lia.
    + apply andb_false_iff. right. apply Nat.leb_gt. lia.
  - apply Ascii.eqb_neq. intros ->. vm_compute in H1. lia.
  - apply N.leb_le. unfold Ascii.nat_of_ascii in *. lia.
Qed.


Lemma simple_name_cons (c : Ascii.ascii) (s : string) :
  Names.simple_name (String c s) = Names.name_char c && Names.simple_name s.
Proof. reflexivity. Qed.

Lemma simple_name_app (a b : string) :
  Names.simple_name (a +:+ b) = Names.simple_name a && Names.simple_name b.
Proof.
  induction a as [|c a IH]; rewrite ?PathFacts.app_cons, ?PathFacts.app_nil; [done|].
  by rewrite !simple_name_cons, IH, andb_assoc.
Qed.

Lemma simple_name_slash_free (s : string) :
  Names.simple_name s = true -> Path.slash_free s = true.
Proof.
  induction s as [|c s IH]; [done|]. rewrite simple_name_cons.
  intros [Hc Hs]%andb_true_iff. destruct (name_char_spec c Hc) as (_ & _ & _ & Hslash).
  rewrite PathFacts.slash_free_cons, Hslash. by apply IH.
Qed.

(** Text without carriage returns reads as it is. *)
Lemma universal_newlines_no_cr (s : string) :
  forallb (fun c => negb (Ascii.eqb c Text.CR)) (String.list_ascii_of_string s) = true ->
  Text.universal_newlines s = s.
Proof.
  induction s as [|c s IH]; [done|]. simpl.
  intros [Hc Hs]%andb_true_iff. apply negb_true_iff in Hc. rewrite Hc.
  by rewrite IH.
Qed.

Lemma valid_utf8_ascii (l : list N) :
  forallb (fun b => N.leb b 0x7F) l = true -> Text.valid_utf8_bytes l = true.
Proof.
  induction l as [|b l IH]; [done|]. simpl.
  intros [Hb Hl]%andb_true_iff. rewrite Hb. by apply IH.
Qed.

Lemma list_ascii_app (a b : string) :
  String.list_ascii_of_string (a +:+ b)
  = (String.list_ascii_of_string a ++ String.list_ascii_of_string b)%list.
Proof.
  induction a as [|c a IH]; rewrite ?PathFacts.app_cons, ?PathFacts.app_nil; [done|].
  simpl. by rewrite IH.
Qed.

Lemma rev_string_involutive (s : string) : Path.rev_string (Path.rev_string s) = s.
Proof.
  unfold Path.rev_string. rewrite String.list_ascii_of_string_of_list_ascii.
  rewrite rev_involutive. apply String.string_of_list_ascii_of_string.
Qed.

Lemma string_of_list_app (a b : list Ascii.ascii) :
  String.string_of_list_ascii (a ++ b)
  = String.string_of_list_ascii a +:+ String.string_of_list_ascii b.
Proof.
  induction a as [|c a IH]; simpl; [by rewrite PathFacts.app_nil|].
  by rewrite IH, PathFacts.app_cons.
Qed.

Lemma rev_string_app (a b : string) :
  Path.rev_string (a +:+ b) = Path.rev_string b +:+ Path.rev_string a.
Proof.
  unfold Path.rev_string. by rewrite list_ascii_app, rev_app_distr, string_of_list_app.
Qed.

Lemma length_string_app (a b : string) :
  String.length (a +:+ b) = String.length a + String.length b.
Proof.
  induction a as [|c a IH]; rewrite ?PathFacts.app_cons, ?PathFacts.app_nil; [done|].
  simpl. by rewrite IH.
Qed.

(** *** Stripping white space *)

Section StripLeading.
Variable one : Ascii.ascii -> bool.
Variable two : Ascii.ascii -> Ascii.ascii -> bool.
Variable three : Ascii.ascii -> Ascii.ascii -> Ascii.ascii -> bool.

Local Abbreviation sl := (Path.strip_leading one two three).
Local Abbreviation stays := (Path.stays one two three).

(** Induction that follows [strip_leading]: it goes on from one, two or
    three characters further. *)
Lemma string_ind3 (P : string -> Prop) :
  P "" ->
  (forall c1 s1, P s1 ->
     (forall c2 s2, s1 = String c2 s2 ->
        P s2 /\ forall c3 s3, s2 = String c3 s3 -> P s3) ->
     P (String c1 s1)) ->
  forall s, P s.
Proof.
  intros Hnil Hstep s.
  enough (HQ : P s /\ forall c2 s2, s = String c2 s2 ->
                 P s2 /\ forall c3 s3, s2 = String c3 s3 -> P s3) by apply HQ.
  induction s as [|c s [IHP IHt]]; [by split|].
  split; [by apply Hstep|].
  intros c2 s2 [= -> ->]. split; [done|].
  intros c3 s3 Hs. by apply (IHt c3 s3).
Qed.

Lemma stays_fixed (s : string) : stays s -> sl s = s.
Proof.
  destruct s as [|c1 [|c2 [|c3 s3]]]; simpl; [done| | |].
  - by intros [-> _].
  - by intros [-> [-> _]].
  - by intros [-> [-> ->]].
Qed.

Lemma strip_leading_stays (s : string) : stays (sl s).
Proof.
  induction s as [|c1 s1 IH1 IHt] using string_ind3; [done|].
  simpl. destruct (one c1) eqn:H1; [done|].
  destruct s1 as [|c2 s2]; [by split|].
  destruct (IHt c2 s2 eq_refl) as [IH2 IHt2].
  destruct (two c1 c2) eqn:H2; [done|].
  destruct s2 as [|c3 s3]; [by repeat split|].
  pose proof (IHt2 c3 s3 eq_refl) as IH3.
  destruct (three c1 c2 c3) eqn:H3; [done|].
  by repeat split.
Qed.

Lemma strip_leading_idem (s : string) : sl (sl s) = sl s.
Proof. apply stays_fixed, strip_leading_stays. Qed.

Lemma strip_leading_suffix (s : string) : exists pre, s = pre +:+ sl s.
Proof.
  induction s as [|c1 s1 [p1 IH1] IHt] using string_ind3; [by exists ""|].
  simpl. destruct (one c1).
  { exists (String c1 p1). by rewrite PathFacts.app_cons, <- IH1. }
  destruct s1 as [|c2 s2]; [by exists ""|].
  destruct (IHt c2 s2 eq_refl) as [[p2 IH2] IHt2].
  destruct (two c1 c2).
  { exists (String c1 (String c2 p2)). by rewrite !PathFacts.app_cons, <- IH2. }
  destruct s2 as [|c3 s3]; [by exists ""|].
  destruct (IHt2 c3 s3 eq_refl) as [p3 IH3].
  destruct (three c1 c2 c3); [|by exists ""].
  exists (String c1 (String c2 (String c3 p3))). by rewrite !PathFacts.app_cons, <- IH3.
Qed.

Lemma stays_prefix (t rest : string) : stays (t +:+ rest) -> t <> "" -> stays t.
Proof.
  destruct t as [|c1 [|c2 [|c3 t3]]]; [done| | |];
    rewrite ?PathFacts.app_cons, ?PathFacts.app_nil; intros Hs _.
  - destruct rest; simpl in *; tauto.
  - destruct rest; simpl in *; tauto.
  - simpl in *. tauto.
Qed.

(** A string that is not empty and that [strip_leading] changes is not
    what it leaves. *)
Lemma fixed_stays (s : string) : sl s = s -> stays s.
Proof. intros <-. apply strip_leading_stays. Qed.

End StripLeading.

Lemma lstrip_idem (s : string) : Path.lstrip (Path.lstrip s) = Path.lstrip s.
Proof. apply strip_leading_idem. Qed.

Lemma rstrip_idem (s : string) : Path.rstrip (Path.rstrip s) = Path.rstrip s.
Proof. unfold Path.rstrip. by rewrite rev_string_involutive, strip_leading_idem. Qed.

(** [rstrip] cuts at the end only. *)
Lemma rstrip_prefix (s : string) : exists suf, s = Path.rstrip s +:+ suf.
Proof.
  unfold Path.rstrip.
  destruct (strip_leading_suffix Path.is_space (fun c2 c1 => Path.is_space2 c1 c2)
              (fun c3 c2 c1 => Path.is_space3 c1 c2 c3) (Path.rev_string s)) as [pre Hpre].
  exists (Path.rev_string pre).
  rewrite <- rev_string_app, <- Hpre. by rewrite rev_string_involutive.
Qed.

(** What [strip] returns has no white space left at either end. *)
Lemma strip_clean (s : string) :
  Path.lstrip (Path.strip s) = Path.strip s /\ Path.rstrip (Path.strip s) = Path.strip s.
Proof.
  unfold Path.strip. split; [|apply rstrip_idem].
  set (a := Path.lstrip s).
  destruct (rstrip_prefix a) as [suf Hsuf].
  destruct (decide (Path.rstrip a = "")) as [->|Hne]; [done|].
  apply stays_fixed. apply (stays_prefix _ _ _ _ suf); [|done].
  rewrite <- Hsuf. apply strip_leading_stays.
Qed.

Lemma strip_idem (s : string) : Path.strip (Path.strip s) = Path.strip s.
Proof.
  destruct (strip_clean s) as [Hl Hr]. unfold Path.strip at 1. by rewrite Hl.
Qed.

Lemma ascii_no_space_spec (c x y : Ascii.ascii) :
  Names.ascii_no_space c = true ->
  Path.is_space c = false
  /\ Path.is_space2 c x = false /\ Path.is_space3 c x y = false
  /\ Path.is_space2 x c = false /\ Path.is_space3 y x c = false.
Proof.
  unfold Names.ascii_no_space. intros [Hs Ha]%andb_true_iff.
  apply negb_true_iff in Hs. apply N.leb_le in Ha.
  assert (Hn : Ascii.nat_of_ascii c < 128) by (unfold Ascii.nat_of_ascii; lia).
  split; [done|]. unfold Path.is_space2, Path.is_space3.
  assert (E : forall k, 128 <= k -> Nat.eqb (Ascii.nat_of_ascii c) k = false)
    by (intros k Hk; apply Nat.eqb_neq; lia).
  assert (E' : Nat.leb 128 (Ascii.nat_of_ascii c) = false) by (apply Nat.leb_gt; lia).
  change 0x80 with 128 in *.
  rewrite !E by (vm_compute; lia). rewrite E'.
  by rewrite ?andb_false_r, ?andb_false_l, ?orb_false_r.
Qed.

(** A string of such characters is its own [strip]. *)
Lemma strip_no_space (s : string) :
  forallb Names.ascii_no_space (String.list_ascii_of_string s) = true ->
  Path.strip s = s.
Proof.
  intros Hs. unfold Path.strip, Path.rstrip, Path.lstrip.
  rewrite (stays_fixed _ _ _ s).
  - rewrite stays_fixed; [apply rev_string_involutive|].
    assert (Hr : forallb Names.ascii_no_space
                   (String.list_ascii_of_string (Path.rev_string s)) = true).
    { unfold Path.rev_string. rewrite String.list_ascii_of_string_of_list_ascii.
      rewrite forallb_forall in *. intros c Hc. apply Hs. by apply in_rev. }
    destruct (Path.rev_string s) as [|c1 [|c2 [|c3 t]]]; simpl in *; [done| | |];
      apply andb_true_iff in Hr as [H1 _].
    + by destruct (ascii_no_space_spec c1 c1 c1 H1) as (? & _).
    + by destruct (ascii_no_space_spec c1 c2 c2 H1) as (? & _ & _ & ? & _).
    + by destruct (ascii_no_space_spec c1 c2 c3 H1) as (? & _ & _ & ? & ?).
  - destruct s as [|c1 [|c2 [|c3 t]]]; simpl in *; [done| | |];
      apply andb_true_iff in Hs as [H1 _].
    + by destruct (ascii_no_space_spec c1 c1 c1 H1) as (? & _).
    + by destruct (ascii_no_space_spec c1 c2 c2 H1) as (? & ? & _).
    + by destruct (ascii_no_space_spec c1 c2 c3 H1) as (? & ? & ? & _).
Qed.

Lemma simple_name_chars (s : string) (P : Ascii.ascii -> bool) :
  (forall c, Names.name_char c = true -> P c = true) ->
  Names.simple_name s = true -> forallb P (String.list_ascii_of_string s) = true.
Proof.
  intros HP. unfold Names.simple_name. rewrite !forallb_forall.
  intros Hs c Hc. by apply HP, Hs.
Qed.

Lemma forallb_string_app (P : Ascii.ascii -> bool) (a b : string) :
  forallb P (String.list_ascii_of_string (a +:+ b))
  = forallb P (String.list_ascii_of_string a) && forallb P (String.list_ascii_of_string b).
Proof.
  induction a as [|c a IH]; rewrite ?PathFacts.app_cons, ?PathFacts.app_nil; [done|].
  simpl. by rewrite IH, andb_assoc.
Qed.

Lemma valid_utf8_chars (s : string) :
  forallb (fun c => N.leb (Ascii.N_of_ascii c) 0x7F) (String.list_ascii_of_string s) = true ->
  Text.valid_utf8 s = true.
Proof.
  intros Hs. unfold Text.valid_utf8. apply valid_utf8_ascii.
  induction (String.list_ascii_of_string s) as [|c l IH]; [done|].
  simpl in *. apply andb_true_iff in Hs as [-> Hl]. by apply IH.
Qed.

(** What [HEAD] gives back for a simple name. *)
Lemma head_text_name (b : string) :
  Names.simple_name b = true ->
  Text.valid_utf8 ("refs/branches/" +:+ b) = true
  /\ Path.basename (Path.strip (Text.universal_newlines ("refs/branches/" +:+ b))) = b.
Proof.
  intros Hb.
  assert (Hchars : forall P : Ascii.ascii -> bool,
            (forall c, Names.name_char c = true -> P c = true) ->
            forallb P (String.list_ascii_of_string "refs/branches/") = true ->
            forallb P (String.list_ascii_of_string ("refs/branches/" +:+ b)) = true).
  { intros P HP Hpre. rewrite forallb_string_app, Hpre. by apply simple_name_chars. }
  split.
  - apply valid_utf8_chars, Hchars; [|done]. intros c Hc. by apply name_char_spec.
  - rewrite universal_newlines_no_cr.
    2: { apply Hchars; [|done]. intros c Hc. apply negb_true_iff. by apply name_char_spec. }
    rewrite strip_no_space.
    2: { apply Hchars; [|done]. intros c Hc. unfold Names.ascii_no_space.
         destruct (name_char_spec c Hc) as (-> & _ & -> & _). done. }
    unfold Path.basename.
    change ("refs/branches/" +:+ b) with ("refs" +:+ "/" +:+ ("branches" +:+ "/" +:+ b)).
    rewrite !PathFacts.split_app_slash.
    rewrite (PathFacts.split_slash_free b (simple_name_slash_free b Hb)). done.
Qed.

End TextFacts.

Section CurrentBranch.
Import Os Os.Notations.
Local Open Scope string_scope.
Context `{Platform}.
Variable r : Repository.t.

(** X6. A branch name of printable ASCII characters without space or
    slash that [set_current_branch] stored is the name
    [get_current_branch] returns. *)
Theorem set_then_get_current_branch (branch_name : string) (m m' : fs) :
  Names.simple_name branch_name = true ->
  Repository.set_current_branch r branch_name m = Ret tt m' ->
  Repository.get_current_branch r m' = Ret branch_name m'.
Proof.
  intros Hb. unfold Repository.set_current_branch.
  intros (k & Hk & Hd & ->)%write_data_ret.
  destruct (head_text_name branch_name Hb) as [Hutf Hname].
  unfold Repository.get_current_branch, bind, read_text, bind.
  rewrite (read_data_insert m k _ _ Hk Hd).
  change (bytes_of (Raw ?s)) with s. rewrite Hutf. unfold ret. by rewrite Hname.
Qed.

End CurrentBranch.

Section CurrentBranchExamples.
Import Os.
Local Open Scope string_scope.

Lemma set_then_get_current_branch_witness :
  Repository.get_current_branch (H := Examples.host) Examples.repo
    (Examples.after (Repository.set_current_branch (H := Examples.host) Examples.repo "feat")
                    Examples.objects_ready)
  = Ret "feat"
      (Examples.after (Repository.set_current_branch (H := Examples.host) Examples.repo "feat")
                      Examples.objects_ready).
Proof.
  assert (Hname : Names.simple_name "feat" = true) by reflexivity.
  assert (Hret : Repository.set_current_branch (H := Examples.host) Examples.repo "feat"
                   Examples.objects_ready
                 = Ret tt
                     (Examples.after
                        (Repository.set_current_branch (H := Examples.host) Examples.repo "feat")
                        Examples.objects_ready)) by compute_done.
  exact (set_then_get_current_branch (H := Examples.host) Examples.repo "feat" _ _ Hname Hret).
Defined.

(** A name with a slash does not come back: only its last part does. *)
Example current_branch_with_slash :
  value (Repository.get_current_branch (H := Examples.host) Examples.repo
           (Examples.after
              (Repository.set_current_branch (H := Examples.host) Examples.repo "feature/login")
              Examples.objects_ready))
  = Some "login".
Proof. compute_done. Qed.

End CurrentBranchExamples.
(** ** The staging index: adding, unstaging *)

Section DigestFacts.
Local Open Scope string_scope.

(** A SHA-256 digest in hexadecimal is an entry name. *)
Lemma hexdigest_plain (s : string) : Path.plain_name (Sha256.hexdigest s) = true.
Proof.
  unfold Sha256.hexdigest.
  destruct (Sha256.digest _) as [|w ws] eqn:E; [by apply digest_nonempty in E|].
  apply plain_name_chars.
  - cbn [foldr]. change (String.append ?a ?b) with (a +:+ b).
    intros Hempty. apply (f_equal String.length) in Hempty.
    cbn [Sha256.hex_of] in Hempty. rewrite !PathFacts.app_cons in Hempty. done.
  - clear E. generalize (w :: ws). intros l.
    induction l as [|x l IH]; [apply Forall_nil_2|].
    cbn [foldr]. change (String.append ?a ?b) with (a +:+ b).
    rewrite list_ascii_app. apply Forall_app. split; [apply hex_of_chars|done].
Qed.

End DigestFacts.

Section StagingIndex.
Import Os Os.Notations.
Local Open Scope string_scope.
Context `{Platform}.
Variable DSCS_DIR : string.
Variable repository : Repository.t.
Variable ignore_patterns : list string.

Local Abbreviation blob := (Staging.blob DSCS_DIR repository).
Local Abbreviation staging_path := (Staging.staging_path DSCS_DIR repository).
Local Abbreviation index_path := (Staging.index_path DSCS_DIR repository).
Local Abbreviation read_index := (Staging.read_index DSCS_DIR repository).

Lemma isdir_iff (m : fs) (s : string) :
  isdir m s = true <-> exists p, resolve m s = inr p /\ is_dir_at m p = true.
Proof.
  unfold isdir, stat, is_dir_at. destruct (resolve m s) as [e|p].
  - split; [done|]. by intros (p & ? & _).
  - destruct (node_at m p) as [[x|]|] eqn:Hn.
    + split; [done|]. intros (p' & [= <-] & Hd). by rewrite Hn in Hd.
    + split; [|done]. intros _. exists p. by rewrite Hn.
    + split; [done|]. intros (p' & [= <-] & Hd). by rewrite Hn in Hd.
Qed.

(** [makedirs(s, exist_ok=True)] of a directory that exists does nothing. *)
Lemma makedirs_existing (m : fs) (s : string) :
  isdir m s = true -> makedirs s true m = Ret tt m.
Proof.
  intros (p & Hr & Hd)%isdir_iff. unfold makedirs.
  rewrite (PathFacts.eqb_empty_false s (resolve_nonempty m s p Hr)).
  unfold resolve in Hr. rewrite (PathFacts.eqb_empty_false s (resolve_nonempty m s p Hr)) in Hr.
  apply walk_to_names in Hr.
  set (cs := Path.names (Path.join cwd s)) in *.
  destruct (last cs) as [c|] eqn:Hlast.
  - pose proof Hlast as [l' Hcs]%last_Some. rewrite Hcs in Hr |- *.
    rewrite removelast_last. rewrite walk_to_app in Hr.
    destruct (walk_to m [] l') as [e|cur] eqn:Hw; [done|].
    simpl in Hr. destruct (node_at m cur) as [[x|]|] eqn:Hcur; try done.
    rewrite (make_parents_existing m [] l' cur Hw) by (unfold is_dir_at; by rewrite Hcur).
    rewrite Hcur.
    assert (Htarget : (if String.eqb c "." then cur
                       else if String.eqb c ".." then removelast cur
                       else (cur ++ [c])%list) = p).
    { destruct (String.eqb c "."); [congruence|].
      destruct (String.eqb c ".."); congruence. }
    rewrite Htarget. unfold is_dir_at in Hd.
    by destruct (node_at m p) as [[x|]|].
  - apply last_None in Hlast. rewrite Hlast in Hr |- *. simpl in *.
    injection Hr as <-. done.
Qed.


Lemma dirname_blob (h : string) :
  Path.plain_name h = true -> Path.dirname (blob h) = staging_path.
Proof.
  intros Hh. unfold Staging.blob.
  change h with (Path.unsplit [h]) at 1.
  rewrite PathFacts.dirname_join_unsplit; [done| | |by apply Forall_cons_2|done].
  - unfold Staging.staging_path. rewrite PathFacts.endswith_slash_join by done. done.
  - unfold Staging.staging_path. rewrite PathFacts.names_join by done.
    by intros [_ ?]%app_eq_nil.
Qed.

(** What [copy2] does when it returns and the destination is no directory. *)
Lemma copy2_ret (src dst : string) (m m' : fs) :
  isdir m dst = false ->
  copy2 src dst m = Ret tt m' ->
  exists d k, read_data src m = Ret d m /\ resolve m dst = inr k
              /\ is_dir_at m k = false /\ m' = <[k := File d]> m.
Proof.
  intros Hdir. unfold copy2. rewrite Hdir.
  destruct (same_file m src dst); [done|]. unfold bind.
  pose proof (read_data_pure src m) as Hp.
  destruct (read_data src m) as [d m1|]; [|done]. simpl in Hp. subst m1.
  intros (k & Hk & Hd & ->)%write_data_ret. by exists d, k.
Qed.

(** Reading a file is not affected by a write to another place. *)
Lemma read_data_insert_ne (m : fs) (s : string) (k kw : path) (x : data) :
  resolve m s = inr k -> is_dir_at m kw = false -> k <> kw ->
  value (read_data s (<[kw := File x]> m)) = value (read_data s m)
  /\ raised (read_data s (<[kw := File x]> m)) = raised (read_data s m).
Proof.
  intros Hk Hd Hne. unfold read_data, stat.
  rewrite (proj2 (resolve_insert_file m kw x s k Hd) Hk), Hk.
  rewrite node_at_insert_ne by (done || by eapply not_dir_nonroot).
  by destruct (node_at m k) as [[y|]|].
Qed.

Lemma read_index_pure (m : fs) : final_fs (read_index m) = m.
Proof.
  unfold Staging.read_index, try_except.
  pose proof (json_load_pure index_path m) as Hp.
  destruct (json_load index_path m) as [j m1|e m1]; simpl in *; subst; [done|].
  by destruct e.
Qed.

(** The index reads the same after a write to another place. *)
Lemma read_index_insert_ne (m : fs) (ki kw : path) (x : data) (j : document) :
  resolve m index_path = inr ki -> is_dir_at m kw = false -> ki <> kw ->
  read_index m = Ret j m ->
  read_index (<[kw := File x]> m) = Ret j (<[kw := File x]> m).
Proof.
  intros Hki Hd Hne.
  destruct (read_data_insert_ne m index_path ki kw x Hki Hd Hne) as [Hv Hr].
  unfold Staging.read_index, try_except, json_load, bind.
  pose proof (read_data_pure index_path m) as Hp.
  pose proof (read_data_pure index_path (<[kw := File x]> m)) as Hp'.
  destruct (read_data index_path m) as [d m1|e m1];
    destruct (read_data index_path (<[kw := File x]> m)) as [d' m1'|e' m1'];
    simpl in *; subst; try discriminate.
  - injection Hv as ->. destruct d as [b|j']; [|by intros [= <-]].
    destruct (json_parse b); [by intros [= <-]|]. simpl. done.
  - injection Hr as ->. destruct e; try done. by intros [= <-].
Qed.

Lemma resolve_index_path (m : fs) :
  isdir m staging_path = true -> exists ki, resolve m index_path = inr ki.
Proof.
  intros (p & Hr & _)%isdir_iff. unfold Staging.staging_path in Hr.
  apply resolve_join_iff in Hr as (pd & Hpd & Hd & _); [|done].
  exists (pd ++ ["index"])%list. by apply resolve_join.
Qed.


Lemma read_data_ret (s : string) (m m' : fs) (d : data) :
  read_data s m = Ret d m' ->
  m' = m /\ exists k, stat m s = inr (k, File d).
Proof.
  unfold read_data. destruct (stat m s) as [e|[k [x|]]]; try done.
  intros [= <- <-]. eauto.
Qed.

(** X7. Staging a regular file that is not ignored: when [add] returns,
    the index maps the file's path relative to the repository to the
    SHA-256 of its content, all other entries being as they were, and the
    blob kept under that hash holds the content. (The staging directory is
    there, as the constructor leaves it, and the blob's place is not
    taken by a directory.) *)
Theorem add_file_then_indexed (filepath : string) (m m' : fs) (d : data)
    (index : gmap string index_entry) :
  let abs_filepath := Path.abspath cwd filepath in
  let file_hash := Sha256.hexdigest (bytes_of d) in
  isdir m staging_path = true ->
  read_data abs_filepath m = Ret d m ->
  Ignore.should_ignore repository ignore_patterns abs_filepath = inr false ->
  isdir m (blob file_hash) = false ->
  read_index m = Ret (DIndex index) m ->
  Staging.add DSCS_DIR repository ignore_patterns filepath m = Ret tt m' ->
  exists rel_path,
    Path.relpath cwd abs_filepath (Repository.path repository) = Some rel_path
    /\ read_index m'
       = Ret (DIndex (<[rel_path := IndexEntry file_hash (getctime (blob file_hash))]> index)) m'
    /\ read_data (blob file_hash) m' = Ret d m'.
Proof.
  intros abs_filepath file_hash Hstaging Hread Hign Hblob Hindex.
  pose proof (hexdigest_plain (bytes_of d)) as Hplain. fold file_hash in Hplain.
  destruct (read_data_ret _ _ _ _ Hread) as [_ [kf Hstat]].
  unfold Staging.add, bind, get_fs, lift. fold abs_filepath.
  unfold exists_. rewrite Hstat, Hign. cbn [negb]. cbv beta iota.
  unfold Staging.stage_single_file, Staging.calculate_file_hash, bind.
  rewrite Hread. unfold ret at 1. cbv beta iota. fold file_hash.
  destruct (Path.relpath cwd abs_filepath _) as [rel_path|]; [|done].
  fold (blob file_hash). rewrite (dirname_blob file_hash Hplain).
  rewrite (makedirs_existing m _ Hstaging).
  destruct (copy2 abs_filepath (blob file_hash) m) as [[] m2|] eqn:Hcopy; [|done].
  destruct (copy2_ret _ _ _ _ Hblob Hcopy) as (d' & kb & Hread' & Hkb & Hdb & ->).
  assert (d' = d) as -> by congruence.
  destruct (resolve_index_path m Hstaging) as [ki Hki].
  assert (Hne : ki <> kb).
  { intros ->. by eapply (blob_not_index DSCS_DIR repository m file_hash kb). }
  unfold Staging.update_index, bind.
  rewrite (read_index_insert_ne m ki kb d _ Hki Hdb Hne Hindex). simpl.
  unfold json_dump. intros (ki' & Hki' & Hdi & ->)%write_data_ret.
  apply (resolve_insert_file m kb d _ ki' Hdb) in Hki'.
  assert (ki' = ki) as -> by congruence.
  exists rel_path. split; [done|]. split.
  - unfold Staging.read_index, try_except.
    rewrite json_load_insert; [done| |done].
    by apply resolve_insert_file.
  - unfold read_data, stat.
    match goal with
    | |- context [resolve ?m3 (blob file_hash)] =>
        assert (Hkb2 : resolve m3 (blob file_hash) = inr kb)
    end.
    { apply resolve_insert_file; [done|]. by apply resolve_insert_file. }
    rewrite Hkb2.
    rewrite node_at_insert_ne by (done || by eapply not_dir_nonroot).
    by rewrite node_at_insert_eq by (by eapply not_dir_nonroot).
Qed.


(** *** Unstaging *)

Lemma remove_if_exists_shrinks (s : string) (m m' : fs) :
  Staging.remove_if_exists s m = Ret tt m' ->
  (forall q, is_dir_at m' q = is_dir_at m q)
  /\ (forall q, node_at m' q = None \/ node_at m' q = node_at m q).
Proof.
  intros Hrm. destruct (remove_if_exists_ret _ _ _ Hrm) as (_ & Hdirs & _ & _).
  split; [done|]. revert Hrm. unfold Staging.remove_if_exists, bind, get_fs.
  destruct (exists_ m s); [|intros [= <-]; by right].
  intros (k & d & Hk & Hn & ->)%remove_ret. intros q.
  destruct (decide (k = q)) as [<-|Hne].
  - left. destruct k as [|c k]; [done|]. simpl. by rewrite lookup_delete_eq.
  - right. by apply node_at_delete_ne.
Qed.

(** Once a path does not exist, removals of files do not bring it back. *)
Lemma exists_shrinks (m m' : fs) (s : string) :
  (forall q, is_dir_at m' q = is_dir_at m q) ->
  (forall q, node_at m' q = None \/ node_at m' q = node_at m q) ->
  exists_ m s = false -> exists_ m' s = false.
Proof.
  intros Hdirs Hsub Hex. apply not_true_is_false.
  intros (k & Hk & [n Hn])%exists_iff.
  assert (Hex' : exists_ m s = true); [|congruence].
  apply exists_iff. exists k. split.
  - eapply resolve_mono; [|exact Hk]. intros q. by rewrite Hdirs.
  - destruct (Hsub k) as [E|E]; [congruence|]. rewrite <- E, Hn. by eexists.
Qed.

Lemma remove_blobs (l : list (string * index_entry)) (m m' : fs) :
  for_each l (fun '(_, file_info) => Staging.remove_if_exists (blob (ie_hash file_info))) m
  = Ret tt m' ->
  (forall q, is_dir_at m' q = is_dir_at m q)
  /\ (forall q, node_at m' q = None \/ node_at m' q = node_at m q)
  /\ (forall rel e, (rel, e) ∈ l -> exists_ m' (blob (ie_hash e)) = false).
Proof.
  revert m. induction l as [|[rel e] l IH]; intros m; simpl.
  - intros [= <-]. split; [done|]. split; [by right|]. by intros ? ? ?%elem_of_nil.
  - unfold bind.
    destruct (Staging.remove_if_exists _ m) as [[] m1|] eqn:Hrm; [|done].
    intros Hrest. destruct (IH m1 Hrest) as (Hdirs & Hsub & Hgone).
    destruct (remove_if_exists_shrinks _ _ _ Hrm) as [Hdirs1 Hsub1].
    destruct (remove_if_exists_ret _ _ _ Hrm) as (Hgone1 & _).
    split; [|split].
    + intros q. by rewrite Hdirs, Hdirs1.
    + intros q. destruct (Hsub q) as [E|E]; [by left|]. rewrite E. apply Hsub1.
    + intros rel' e' [[= -> ->]|Hin]%elem_of_cons; [|by eapply Hgone].
      by apply (exists_shrinks m1 m').
Qed.

(** X8. [reset()] without a path (or with the empty one): when it
    returns, the index is empty, no file is staged, and the blob of every
    entry the index had is gone. *)
Theorem reset_all_empties_index (filepath : option string) (m m' : fs)
    (index : gmap string index_entry) :
  filepath = None \/ filepath = Some "" ->
  read_index m = Ret (DIndex index) m ->
  Staging.reset DSCS_DIR repository filepath m = Ret tt m' ->
  read_index m' = Ret (DIndex ∅) m'
  /\ Staging.get_staged_files DSCS_DIR repository m' = Ret [] m'
  /\ (forall rel_path e, index !! rel_path = Some e ->
         Path.plain_name (ie_hash e) = true ->
         exists_ m' (blob (ie_hash e)) = false).
Proof.
  intros Hfp Hindex.
  assert (Hreset : Staging.reset DSCS_DIR repository filepath m
            = (for_each (map_to_list index) (fun '(_, file_info) =>
                 Staging.remove_if_exists (blob (ie_hash file_info))) ;;
               json_dump (DIndex ∅) index_path) m).
  { unfold Staging.reset, bind at 1. rewrite Hindex. simpl.
    unfold bind, ret. destruct Hfp as [-> | ->]; simpl;
      by destruct (for_each _ _ m). }
  rewrite Hreset. unfold bind.
  destruct (for_each _ _ m) as [[] m1|] eqn:Hloop; [|done].
  destruct (remove_blobs _ _ _ Hloop) as (Hdirs & Hsub & Hgone).
  unfold json_dump. intros (ki & Hki & Hdi & ->)%write_data_ret.
  assert (Hread : read_index (<[ki := File (Doc (DIndex ∅))]> m1)
                  = Ret (DIndex ∅) (<[ki := File (Doc (DIndex ∅))]> m1)).
  { unfold Staging.read_index, try_except. by rewrite json_load_insert. }
  split; [done|]. split.
  - unfold Staging.get_staged_files, bind. rewrite Hread. simpl.
    unfold ret. by rewrite map_to_list_empty.
  - intros rel_path e Hin Hplain. apply not_true_is_false.
    intros (k & Hk & Hs)%exists_iff.
    apply (resolve_insert_file m1 ki _ _ k Hdi) in Hk.
    destruct (decide (ki = k)) as [->|Hne].
    + by eapply (blob_not_index DSCS_DIR repository m1 (ie_hash e) k).
    + rewrite node_at_insert_ne in Hs by (done || by eapply not_dir_nonroot).
      assert (exists_ m1 (blob (ie_hash e)) = true) by (apply exists_iff; eauto).
      rewrite (Hgone rel_path e) in *; [done|]. by apply elem_of_map_to_list.
Qed.

(** X9. [reset(p)] for a path that is not staged: when it returns, the
    index reads as before, and nothing but the index file was written. *)
Theorem reset_unstaged_path (filepath rel_path : string) (m m' : fs)
    (index : gmap string index_entry) :
  read_index m = Ret (DIndex index) m ->
  Path.nonempty filepath = true ->
  Path.relpath cwd filepath (Repository.path repository) = Some rel_path ->
  index !! rel_path = None ->
  Staging.reset DSCS_DIR repository (Some filepath) m = Ret tt m' ->
  read_index m' = Ret (DIndex index) m'
  /\ exists ki, resolve m index_path = inr ki
                /\ forall q, q <> ki -> m' !! q = m !! q.
Proof.
  intros Hindex Hfp Hrel Hin.
  unfold Staging.reset, bind. rewrite Hindex. simpl. rewrite Hfp, Hrel, Hin.
  unfold ret, json_dump. intros (ki & Hki & Hdi & ->)%write_data_ret.
  split.
  - unfold Staging.read_index, try_except. by rewrite json_load_insert.
  - exists ki. split; [done|]. intros q Hq. by apply lookup_insert_ne.
Qed.

End StagingIndex.

Section StagingIndexExamples.
Import Os.
Local Open Scope string_scope.

Lemma add_file_then_indexed_witness :
  let m' := Examples.after (Examples.add "/repo/a.txt") Examples.staging_ready in
  Examples.read_index m'
  = Ret (DIndex {[ "a.txt" := IndexEntry (Sha256.hexdigest "v1") 0 ]}) m'
  /\ read_data (H := Examples.host)
       (Staging.blob Examples.DSCS_DIR Examples.repo (Sha256.hexdigest "v1")) m'
     = Ret (Raw "v1") m'.
Proof.
  intros m'.
  assert (H1 : isdir (H := Examples.host) Examples.staging_ready
                 (Staging.staging_path Examples.DSCS_DIR Examples.repo) = true)
    by compute_done.
  assert (H2 : read_data (H := Examples.host)
                 (Path.abspath (cwd (Platform := Examples.host)) "/repo/a.txt")
                 Examples.staging_ready
               = Ret (Raw "v1") Examples.staging_ready) by compute_done.
  assert (H3 : Ignore.should_ignore (H := Examples.host) Examples.repo []
                 (Path.abspath (cwd (Platform := Examples.host)) "/repo/a.txt")
               = inr false) by compute_done.
  assert (H4 : isdir (H := Examples.host) Examples.staging_ready
                 (Staging.blob Examples.DSCS_DIR Examples.repo
                    (Sha256.hexdigest (bytes_of (H := Examples.host) (Raw "v1")))) = false)
    by compute_done.
  assert (H5 : Examples.read_index Examples.staging_ready
               = Ret (DIndex ∅) Examples.staging_ready) by compute_done.
  assert (H6 : Examples.add "/repo/a.txt" Examples.staging_ready = Ret tt m')
    by compute_done.
  assert (H7 : Path.relpath (cwd (Platform := Examples.host))
                 (Path.abspath (cwd (Platform := Examples.host)) "/repo/a.txt")
                 (Repository.path Examples.repo) = Some "a.txt") by compute_done.
  clearbody m'.
  destruct (add_file_then_indexed (H := Examples.host) Examples.DSCS_DIR Examples.repo []
              "/repo/a.txt" Examples.staging_ready m' (Raw "v1") ∅ H1 H2 H3 H4 H5 H6)
    as (rel_path & Hrel & Hindex & Hblob).
  rewrite H7 in Hrel. injection Hrel as <-.
  split; [|exact Hblob].
  unfold Examples.read_index. rewrite Hindex. f_equal.
Defined.

Lemma reset_all_empties_index_witness :
  let m' := Examples.after (Examples.reset None) Examples.staged_ac in
  Examples.read_index m' = Ret (DIndex ∅) m'
  /\ Examples.blob_exists m' (Sha256.hexdigest "v2") = false.
Proof.
  intros m'.
  pose (index := ({[ "a.txt" := IndexEntry (Sha256.hexdigest "v1") 0;
                     "c.txt" := IndexEntry (Sha256.hexdigest "v2") 0 ]}
                  : gmap string index_entry)).
  assert (H1 : Examples.read_index Examples.staged_ac = Ret (DIndex index) Examples.staged_ac)
    by compute_done.
  assert (H2 : Examples.reset None Examples.staged_ac = Ret tt m') by compute_done.
  assert (H3 : index !! "c.txt" = Some (IndexEntry (Sha256.hexdigest "v2") 0)) by compute_done.
  assert (H4 : Path.plain_name (Sha256.hexdigest "v2") = true) by compute_done.
  clearbody m'.
  destruct (reset_all_empties_index (H := Examples.host) Examples.DSCS_DIR Examples.repo
              None Examples.staged_ac m' index (or_introl eq_refl) H1 H2)
    as (Hindex & _ & Hgone).
  split; [exact Hindex|].
  exact (Hgone "c.txt" (IndexEntry (Sha256.hexdigest "v2") 0) H3 H4).
Defined.

Lemma reset_unstaged_path_witness :
  let m' := Examples.after (Examples.reset (Some "/repo/b.txt")) Examples.staged_ac in
  Examples.read_index m'
  = Ret (DIndex {[ "a.txt" := IndexEntry (Sha256.hexdigest "v1") 0;
                   "c.txt" := IndexEntry (Sha256.hexdigest "v2") 0 ]}) m'.
Proof.
  intros m'.
  pose (index := ({[ "a.txt" := IndexEntry (Sha256.hexdigest "v1") 0;
                     "c.txt" := IndexEntry (Sha256.hexdigest "v2") 0 ]}
                  : gmap string index_entry)).
  assert (H1 : Examples.read_index Examples.staged_ac = Ret (DIndex index) Examples.staged_ac)
    by compute_done.
  assert (H2 : Path.nonempty "/repo/b.txt" = true) by reflexivity.
  assert (H3 : Path.relpath (cwd (Platform := Examples.host)) "/repo/b.txt"
                 (Repository.path Examples.repo) = Some "b.txt") by compute_done.
  assert (H4 : index !! "b.txt" = None) by compute_done.
  assert (H5 : Examples.reset (Some "/repo/b.txt") Examples.staged_ac = Ret tt m')
    by compute_done.
  clearbody m'.
  by destruct (reset_unstaged_path (H := Examples.host) Examples.DSCS_DIR Examples.repo
                 "/repo/b.txt" "b.txt" Examples.staged_ac m' index H1 H2 H3 H4 H5)
    as [Hindex _].
Defined.

End StagingIndexExamples.
(** ** Walking a directory while staging from it *)

Section WalkDepth.
Import Os Os.Notations.
Local Open Scope string_scope.
Context `{Platform}.

Lemma bind_keeps {A B : Type} (I : fs -> Prop) (c : io A) (k : A -> io B) (m : fs) :
  I (final_fs (c m)) ->
  (forall a m1, c m = Ret a m1 -> I m1 -> I (final_fs (k a m1))) ->
  I (final_fs (bind c k m)).
Proof.
  unfold bind. destruct (c m) as [a m1|e m1]; simpl; [|done].
  intros Hc Hk. by apply Hk.
Qed.

Lemma for_each_keeps {A : Type} (I : fs -> Prop) (l : list A) (f : A -> io unit) (m : fs) :
  (forall x m, I m -> I (final_fs (f x m))) -> I m -> I (final_fs (for_each l f m)).
Proof.
  intros Hf. revert m. induction l as [|x l IH]; intros m Hm; simpl; [done|].
  apply bind_keeps; [by apply Hf|]. intros _ m1 _ Hm1. by apply IH.
Qed.

(** Two loop bodies that agree on the states the loop goes through give
    the same loop. *)
Lemma for_each_agree {A : Type} (I : fs -> Prop) (l : list A) (f g : A -> io unit) (m : fs) :
  (forall x m, x ∈ l -> I m -> f x m = g x m) ->
  (forall x m, I m -> I (final_fs (f x m))) ->
  I m -> for_each l f m = for_each l g m.
Proof.
  intros Hfg Hf. revert m. induction l as [|x l IH]; intros m Hm; simpl; [done|].
  unfold bind. rewrite <- (Hfg x m) by (done || by left).
  pose proof (Hf x m Hm) as Hx. destruct (f x m) as [[] m1|e m1]; [|done].
  apply IH; [|done]. intros y m2 Hy. apply Hfg. by right.
Qed.

Lemma stat_dir (m : fs) (s : string) (p : path) :
  stat m s = inr (p, Dir) -> locate m s = inr p /\ node_at m p = Some Dir.
Proof.
  unfold stat. destruct (resolve m s) as [e|p'] eqn:Hr; [done|].
  destruct (node_at m p') as [n|] eqn:Hn; [|done]. intros [= -> ->].
  split; [by apply resolve_locate|done].
Qed.

Lemma walk_each_S (depth : nat) (root : string) (body : string -> io unit) (m : fs) :
  walk_each (S depth) root body m
  = match stat m root with
    | inr (p, Dir) =>
        bind (for_each (listed_files m p) (fun file => body (Path.join root file)))
             (fun _ => for_each (listed_dirs m p)
                         (fun dir => walk_each depth (Path.join root dir) body)) m
    | _ => Ret tt m
    end.
Proof. reflexivity. Qed.

Variable body : string -> io unit.
Variable L : nat.
Hypothesis body_shallow : forall s m, shallow L m -> shallow L (final_fs (body s m)).

Lemma walk_each_shallow (depth : nat) (root : string) (m : fs) :
  shallow L m -> shallow L (final_fs (walk_each depth root body m)).
Proof.
  revert root m. induction depth as [|n IH]; intros root m Hm; [done|].
  rewrite walk_each_S. destruct (stat m root) as [e|[p [d|]]]; try done.
  apply bind_keeps.
  - apply for_each_keeps; [|done]. intros file m1. apply body_shallow.
  - intros _ m1 _ Hm1. apply for_each_keeps; [|done]. intros dir m2. apply IH.
Qed.

(** One level more makes no difference to a walk that has no directory
    left to reach: every directory the string [root] can lead to lies at
    least [k] deep, and [depth] levels further down is deeper than any
    directory. *)
Lemma walk_each_deeper (depth k : nat) (root : string) (m : fs) :
  shallow L m ->
  (forall m' p, locate m' root = inr p -> k <= length p) ->
  L < k + depth ->
  walk_each (S depth) root body m = walk_each depth root body m.
Proof.
  revert k root m. induction depth as [|n IH]; intros k root m Hm Hlow HL.
  - rewrite walk_each_S. destruct (stat m root) as [e|[p [d|]]] eqn:Hs; try done.
    exfalso. apply stat_dir in Hs as [Hloc Hdir].
    specialize (Hlow m p Hloc). destruct Hm as [_ Hdeep].
    destruct p as [|c p]; [simpl in Hlow; lia|].
    specialize (Hdeep (c :: p) Hdir). lia.
  - rewrite (walk_each_S (S n)), (walk_each_S n).
    destruct (stat m root) as [e|[p [d|]]] eqn:Hs; try done.
    apply stat_dir in Hs as [Hloc Hdir].
    unfold bind.
    pose proof (for_each_keeps (shallow L) (listed_files m p)
                  (fun file => body (Path.join root file)) m
                  (fun file m1 => body_shallow _ m1) Hm) as Hm1.
    destruct (for_each (listed_files m p) _ m) as [[] m1|e m1]; [|done].
    simpl in Hm1.
    apply (for_each_agree (shallow L)); [|intros dir m2; apply walk_each_shallow|done].
    intros dir m2 Hdir_in Hm2.
    assert (Hplain : Path.plain_name dir = true).
    { apply listed_dirs_spec in Hdir_in. destruct Hm as [Hwf _].
      specialize (Hwf _ _ Hdir_in). simpl in Hwf.
      by apply Forall_app in Hwf as [_ [? _]%Forall_cons]. }
    apply (IH (S k)); [done| |lia].
    intros m' p' (pa & Hpa & _ & ->)%locate_join_iff; [|done].
    specialize (Hlow m' pa Hpa). rewrite length_app. simpl. lia.
Qed.

(** Beyond the depth of the deepest directory, the depth of the walk makes
    no difference. *)
Lemma walk_each_enough (enough depth : nat) (root : string) (m : fs) :
  shallow L m -> L < enough -> enough <= depth ->
  walk_each depth root body m = walk_each enough root body m.
Proof.
  intros Hm HL Hle. induction Hle as [|d Hle IH]; [done|].
  rewrite <- IH. apply (walk_each_deeper d 0); [done|intros; lia|lia].
Qed.

End WalkDepth.

Section StagingWalk.
Import Os Os.Notations.
Local Open Scope string_scope.
Context `{Platform}.
Variable DSCS_DIR : string.
Variable repository : Repository.t.
Variable ignore_patterns : list string.

Local Abbreviation staging_path := (Staging.staging_path DSCS_DIR repository).

Lemma removelast_shorter {A : Type} (l : list A) : length (removelast l) <= length l.
Proof. induction l as [|x [|y l] IH]; simpl in *; lia. Qed.

(** The directories [makedirs] creates on its way lie no deeper than the
    names it is given are many. *)
Lemma make_parents_depth (L : nat) (cur : path) (cs : list string) (m : fs) :
  (forall q, m !! q = Some Dir -> length q <= L) ->
  length cur + length cs <= L ->
  (forall q, final_fs (make_parents cur cs m) !! q = Some Dir -> length q <= L)
  /\ forall p m', make_parents cur cs m = Ret p m' -> length p <= length cur + length cs.
Proof.
  revert cur m. induction cs as [|c cs IH]; intros cur m Hm Hlen; simpl.
  - split; [done|]. intros p m' [= <- _]. lia.
  - simpl in Hlen. destruct (node_at m cur) as [[d|]|]; try (split; done).
    destruct (String.eqb c ".").
    { destruct (IH cur m Hm) as [Hd Hp]; [lia|]. split; [done|].
      intros p m' Hr. specialize (Hp p m' Hr). lia. }
    destruct (String.eqb c "..").
    { pose proof (removelast_shorter cur) as Hs.
      destruct (IH (removelast cur) m Hm) as [Hd Hp]; [lia|]. split; [done|].
      intros p m' Hr. specialize (Hp p m' Hr). lia. }
    assert (Hnxt : length (cur ++ [c]) = S (length cur))
      by (rewrite length_app; simpl; lia).
    destruct (node_at m (cur ++ [c])).
    + destruct (IH (cur ++ [c])%list m Hm) as [Hd Hp]; [lia|]. split; [done|].
      intros p m' Hr. specialize (Hp p m' Hr). lia.
    + destruct (IH (cur ++ [c])%list (<[(cur ++ [c])%list := Dir]> m)) as [Hd Hp]; [|lia|].
      { intros q. destruct (decide ((cur ++ [c])%list = q)) as [<-|Hne].
        - intros _. lia.
        - rewrite lookup_insert_ne by done. apply Hm. }
      split; [done|]. intros p m' Hr. specialize (Hp p m' Hr). lia.
Qed.

Lemma makedirs_shallow (L : nat) (s : string) (ok : bool) (m : fs) :
  length (Path.names (Path.join cwd s)) <= L ->
  shallow L m -> shallow L (final_fs (makedirs s ok m)).
Proof.
  intros Hlen [Hwf Hdeep]. split; [by apply makedirs_wf|].
  unfold makedirs. destruct (String.eqb s ""); [done|].
  set (cs := Path.names (Path.join cwd s)) in *.
  pose proof (removelast_shorter cs) as Hs.
  destruct (make_parents_depth L [] (removelast cs) m Hdeep) as [Hd Hp]; [simpl; lia|].
  destruct (make_parents [] (removelast cs) m) as [cur m1|e m1]; [|done].
  simpl in Hd. specialize (Hp cur m1 eq_refl). simpl in Hp.
  destruct (node_at m1 cur) as [[x|]|]; try done.
  match goal with |- context [node_at m1 ?t] => set (target := t) end.
  destruct (node_at m1 target) as [[x|]|] eqn:Hn; simpl; try done.
  - by destruct ok.
  - intros q. destruct (decide (target = q)) as [<-|Hne];
      [|rewrite lookup_insert_ne by done; apply Hd].
    intros _. unfold target in *.
    destruct (last cs) as [c|] eqn:Hl.
    + apply last_Some in Hl as [l' Hl].
      assert (Hcs : length cs = S (length (removelast cs))).
      { rewrite Hl, removelast_last, length_app. simpl. lia. }
      pose proof (removelast_shorter cur) as Hs'.
      destruct (String.eqb c "."); [lia|].
      destruct (String.eqb c ".."); [lia|].
      rewrite length_app. simpl. lia.
    + lia.
Qed.

Lemma write_data_shallow (L : nat) (s : string) (d : data) (m : fs) :
  shallow L m -> shallow L (final_fs (write_data s d m)).
Proof.
  intros [Hwf Hdeep]. split; [by apply write_data_wf|].
  unfold write_data. destruct (resolve m s) as [e|p]; [done|].
  destruct (node_at m p) as [[x|]|]; simpl; try done;
    intros q; (destruct (decide (p = q)) as [<-|Hne];
      [by rewrite lookup_insert_eq|rewrite lookup_insert_ne by done; apply Hdeep]).
Qed.

Lemma copy2_shallow (L : nat) (src dst : string) (m : fs) :
  shallow L m -> shallow L (final_fs (copy2 src dst m)).
Proof.
  intros Hm. unfold copy2. destruct (same_file m src _); [done|].
  unfold bind. pose proof (read_data_pure src m) as Hr.
  destruct (read_data src m) as [d m1|e m1]; simpl in Hr; subst m1; [|done].
  by apply write_data_shallow.
Qed.

(** Staging a file creates no directory below the depth of the staging
    directory. *)
Lemma stage_single_file_shallow (L : nat) (filepath : string) (m : fs) :
  length (Path.names (Path.join cwd staging_path)) <= L ->
  shallow L m ->
  shallow L (final_fs (Staging.stage_single_file DSCS_DIR repository filepath m)).
Proof.
  intros Hlen Hm. unfold Staging.stage_single_file, Staging.calculate_file_hash.
  unfold bind at 1. unfold bind at 1.
  pose proof (read_data_pure filepath m) as Hr.
  destruct (read_data filepath m) as [d m1|e m1]; simpl in Hr; subst m1; [|done].
  unfold ret at 1.
  destruct (Path.relpath cwd filepath (Repository.path repository)); [|done].
  fold (Staging.blob DSCS_DIR repository (Sha256.hexdigest (bytes_of d))).
  rewrite (dirname_blob DSCS_DIR repository _ (hexdigest_plain _)).
  apply bind_keeps; [by apply makedirs_shallow|]. intros _ m1 _ Hm1.
  apply bind_keeps; [by apply copy2_shallow|]. intros _ m2 _ Hm2.
  unfold Staging.update_index.
  apply bind_keeps.
  { pose proof (read_index_pure DSCS_DIR repository m2) as Hp.
    by rewrite Hp. }
  intros j m3 Hj _.
  pose proof (read_index_pure DSCS_DIR repository m2) as Hp. rewrite Hj in Hp.
  simpl in Hp. subst m3.
  apply bind_keeps; [by destruct j|]. intros ix m3 Hix _.
  assert (m3 = m2) as ->
    by (destruct j; unfold Staging.as_index, ret, raise in Hix; congruence).
  by apply write_data_shallow.
Qed.

(** The depth [add] walks to is enough: walking deeper gives the same
    outcome. *)
Lemma add_walk_depth_enough (depth : nat) (root : string) (m : fs) :
  wf_fs m -> Staging.walk_depth DSCS_DIR repository m <= depth ->
  let body := fun full_file_path =>
    let* ign := lift (Ignore.should_ignore repository ignore_patterns full_file_path) in
    if ign then ret tt
    else Staging.stage_single_file DSCS_DIR repository full_file_path in
  walk_each depth root body m
  = walk_each (Staging.walk_depth DSCS_DIR repository m) root body m.
Proof.
  intros Hwf Hle body.
  set (L := Nat.max (deepest m) (length (Path.names (Path.join cwd staging_path)))).
  apply (walk_each_enough body L); [| |unfold Staging.walk_depth; fold L; lia|done].
  - intros s m1 Hm1. unfold body, bind, lift.
    destruct (Ignore.should_ignore repository ignore_patterns s) as [e|[|]]; try done.
    apply stage_single_file_shallow; [unfold L; lia|done].
  - split; [done|]. intros q Hq%deepest_spec. unfold L. lia.
Qed.

End StagingWalk.

(** [add] of the repository directory itself. The walk lists [/repo]
    first and stages its three files; by the time it reaches [.dscs] the
    index is there and is staged like any file; in [.dscs/staged] it comes
    upon the blobs, and the first one is to be copied onto itself. (A blob
    is named by the hash of what it holds, whatever the bytes of the index
    are.) *)
Example add_repository_directory :
  Os.raised (Examples.add "/repo" Examples.staging_ready) = Some Os.SameFileError
  /\ (fun j => match j with DIndex index => dom index | _ => ∅ end)
       <$> Os.value (Examples.read_index
                       (Examples.after (Examples.add "/repo") Examples.staging_ready))
     = Some ({[ "a.txt"; "b.txt"; "c.txt"; ".dscs/index" ]} : gset string)%string.
Proof. split; compute_done. Qed.

(** [add] of a directory that does not hold the staging area stages the
    files below it. *)
Example add_subdirectory :
  let m := Examples.after (Staging.init (H := Examples.host) Examples.DSCS_DIR Examples.repo)
             Examples.tree_subdir in
  Os.value (Examples.add "/repo/sub" m) = Some tt
  /\ Os.value (Examples.read_index (Examples.after (Examples.add "/repo/sub") m))
     = Some (DIndex {[ "sub/f.txt"%string := IndexEntry (Sha256.hexdigest "v3") 0 ]}).
Proof. split; compute_done. Qed.
(** ** Directories that the constructors create *)

Section MakedirsFacts.
Import Os Os.Notations.
Local Open Scope string_scope.
Context `{Platform}.

(** [m'] has every entry of [m], unchanged. *)
Local Abbreviation keeps := (fun m m' : fs => forall q n, node_at m q = Some n -> node_at m' q = Some n).

Lemma keeps_insert_dir (m : fs) (k : path) :
  node_at m k = None -> keeps m (<[k := Dir]> m).
Proof.
  intros Hk q n Hq. destruct (decide (k = q)) as [<-|Hne]; [congruence|].
  rewrite node_at_insert_ne; [done..|]. by intros ->.
Qed.

Lemma make_parents_keeps (cur : path) (cs : list string) (m : fs) :
  keeps m (final_fs (make_parents cur cs m)).
Proof.
  revert cur m. induction cs as [|c cs IH]; intros cur m; simpl; [done|].
  destruct (node_at m cur) as [[d|]|]; try done.
  destruct (String.eqb c "."); [apply IH|].
  destruct (String.eqb c ".."); [apply IH|].
  destruct (node_at m (cur ++ [c])) eqn:Hn; [apply IH|].
  intros q n Hq. apply IH. by apply keeps_insert_dir.
Qed.

(** The directories [makedirs] went through can be walked afterwards. *)
Lemma make_parents_walk (cur : path) (cs : list string) (m m1 : fs) (p : path) :
  make_parents cur cs m = Ret p m1 -> walk_to m1 cur cs = inr p.
Proof.
  revert cur m. induction cs as [|c cs IH]; intros cur m; simpl; [by intros [= <- _]|].
  destruct (node_at m cur) as [[d|]|] eqn:Hcur; try done.
  assert (Hkeep : forall (o : outcome path), 
            keeps m (final_fs o) -> o = Ret p m1 -> node_at m1 cur = Some Dir).
  { intros o Hk ->. by apply Hk. }
  destruct (String.eqb c ".").
  { intros Hr. rewrite (Hkeep _ (make_parents_keeps _ _ _) Hr). by eapply IH. }
  destruct (String.eqb c "..").
  { intros Hr. rewrite (Hkeep _ (make_parents_keeps _ _ _) Hr). by eapply IH. }
  destruct (node_at m (cur ++ [c])) eqn:Hn.
  - intros Hr. rewrite (Hkeep _ (make_parents_keeps _ _ _) Hr). by eapply IH.
  - intros Hr.
    assert (Hc1 : node_at m1 cur = Some Dir).
    { pose proof (make_parents_keeps (cur ++ [c]) cs (<[(cur ++ [c])%list := Dir]> m)) as Hk.
      rewrite Hr in Hk. apply Hk. by apply keeps_insert_dir. }
    rewrite Hc1. by eapply IH.
Qed.

(** What [makedirs] leaves: nothing that was there is changed, and when
    it returns the directory is there. *)
Lemma makedirs_spec (s : string) (ok : bool) (m : fs) :
  keeps m (final_fs (makedirs s ok m))
  /\ forall m', makedirs s ok m = Ret tt m' -> isdir m' s = true.
Proof.
  unfold makedirs. destruct (String.eqb s "") eqn:Hs; [by split|].
  set (cs := Path.names (Path.join cwd s)).
  pose proof (make_parents_keeps [] (removelast cs) m) as Hk.
  pose proof (make_parents_walk [] (removelast cs) m) as Hw.
  destruct (make_parents [] (removelast cs) m) as [cur m1|e m1]; [|by split].
  simpl in Hk. specialize (Hw m1 cur eq_refl).
  destruct (node_at m1 cur) as [[x|]|] eqn:Hcur; try by split.
  set (target := match last cs with
                 | Some c => if String.eqb c "." then cur
                             else if String.eqb c ".." then removelast cur
                             else (cur ++ [c])%list
                 | None => cur
                 end).
  assert (Hres : forall m2, keeps m1 m2 -> is_dir_at m2 target = true ->
                   isdir m2 s = true).
  { intros m2 Hk2 Hd. apply isdir_iff. exists target. split; [|done].
    unfold resolve. rewrite Hs. apply walk_to_components; [|done]. fold cs.
    assert (Hmono : forall q, is_dir_at m1 q = true -> is_dir_at m2 q = true).
    { intros q. unfold is_dir_at. destruct (node_at m1 q) as [[y|]|] eqn:Hq; try done.
      by rewrite (Hk2 _ _ Hq). }
    destruct (last cs) as [c|] eqn:Hlast.
    - pose proof Hlast as [l' Hcs]%last_Some. rewrite Hcs in Hw |- *.
      rewrite removelast_last in Hw. rewrite walk_to_app.
      rewrite (walk_to_mono m1 m2 [] l' cur Hmono Hw). simpl.
      rewrite (Hk2 _ _ Hcur). unfold target.
      destruct (String.eqb c "."); [done|]. by destruct (String.eqb c "..").
    - apply last_None in Hlast. rewrite Hlast in Hw |- *. simpl in *.
      by injection Hw as <-. }
  destruct (node_at m1 target) as [[x|]|] eqn:Htarget.
  - split; [done|]. done.
  - split; [by destruct ok|]. destruct ok; [|done].
    intros m' [= <-]. apply Hres; [done|]. unfold is_dir_at. by rewrite Htarget.
  - split.
    + intros q n Hq. apply keeps_insert_dir; [done|]. by apply Hk.
    + intros m' [= <-]. apply Hres; [by apply keeps_insert_dir|].
      unfold is_dir_at. rewrite node_at_insert_eq; [done|].
      intros E. by rewrite E in Htarget.
Qed.


Lemma isdir_keeps (m m' : fs) (s : string) :
  keeps m m' -> isdir m s = true -> isdir m' s = true.
Proof.
  intros Hk (p & Hr & Hd)%isdir_iff. apply isdir_iff. exists p.
  assert (Hmono : forall q, is_dir_at m q = true -> is_dir_at m' q = true).
  { intros q. unfold is_dir_at. destruct (node_at m q) as [[y|]|] eqn:Hq; try done.
    by rewrite (Hk _ _ Hq). }
  split; [by eapply resolve_mono|by apply Hmono].
Qed.

(** X10. When the constructor of [Commit] returns, the staging directory
    and the commits directory are there, every entry the file system had
    is unchanged, and constructing again changes nothing. *)
Theorem commit_init_creates_directories (repo_path : string) (m m' : fs) :
  Commit.init repo_path m = Ret tt m' ->
  isdir m' (Commit.staging_dir repo_path) = true
  /\ isdir m' (Commit.commits_dir repo_path) = true
  /\ (forall q n, node_at m q = Some n -> node_at m' q = Some n)
  /\ Commit.init repo_path m' = Ret tt m'.
Proof.
  unfold Commit.init, bind.
  destruct (makedirs_spec (Commit.staging_dir repo_path) true m) as [Hk1 Hd1].
  destruct (makedirs (Commit.staging_dir repo_path) true m) as [[] m1|]; [|done].
  specialize (Hd1 m1 eq_refl). simpl in Hk1.
  destruct (makedirs_spec (Commit.commits_dir repo_path) true m1) as [Hk2 Hd2].
  intros Hret. rewrite Hret in Hk2. simpl in Hk2. specialize (Hd2 m' Hret).
  pose proof (isdir_keeps m1 m' _ Hk2 Hd1) as Hd1'.
  split; [done|]. split; [done|]. split.
  - intros q n Hq. by apply Hk2, Hk1.
  - rewrite (makedirs_existing m' _ Hd1'). by apply makedirs_existing.
Qed.

Lemma load_ignore_patterns_pure (repository : Repository.t) (m : fs) :
  final_fs (Ignore.load_ignore_patterns repository m) = m.
Proof.
  unfold Ignore.load_ignore_patterns, bind, get_fs.
  destruct (exists_ m _); [|done]. unfold read_text, bind.
  pose proof (read_data_pure (Ignore.ignore_file_path repository) m) as Hp.
  destruct (read_data _ m) as [d m1|]; simpl in *; subst; [|done].
  by destruct (Text.valid_utf8 _).
Qed.

(** X11. When the constructors of [Staging] and of [Merge] return, the
    directory each one creates is there and every entry the file system
    had is unchanged. *)
Theorem staging_merge_init_create_directories (DSCS_DIR : string)
    (repository : Repository.t) (m : fs) :
  (forall patterns m', Staging.init DSCS_DIR repository m = Ret patterns m' ->
     isdir m' (Staging.staging_path DSCS_DIR repository) = true
     /\ forall q n, node_at m q = Some n -> node_at m' q = Some n)
  /\ (forall m', Merge.init DSCS_DIR repository m = Ret tt m' ->
        isdir m' (Merge.merge_path DSCS_DIR repository) = true
        /\ forall q n, node_at m q = Some n -> node_at m' q = Some n).
Proof.
  split.
  - intros patterns m'. unfold Staging.init, bind.
    destruct (makedirs_spec (Staging.staging_path DSCS_DIR repository) true m) as [Hk Hd].
    destruct (makedirs _ true m) as [[] m1|]; [|done].
    specialize (Hd m1 eq_refl). simpl in Hk.
    intros Hload. pose proof (load_ignore_patterns_pure repository m1) as Hp.
    rewrite Hload in Hp. simpl in Hp. by subst m'.
  - intros m'. unfold Merge.init. intros Hret.
    destruct (makedirs_spec (Merge.merge_path DSCS_DIR repository) true m) as [Hk Hd].
    rewrite Hret in Hk. by split; [apply Hd|].
Qed.

End MakedirsFacts.

Section MakedirsExamples.
Import Os.
Local Open Scope string_scope.

Lemma commit_init_creates_directories_witness :
  isdir (H := Examples.host) Examples.commit_ready (Commit.staging_dir "/repo") = true
  /\ isdir (H := Examples.host) Examples.commit_ready (Commit.commits_dir "/repo") = true
  /\ Commit.init (H := Examples.host) "/repo" Examples.commit_ready
     = Ret tt Examples.commit_ready.
Proof.
  assert (Hret : Commit.init (H := Examples.host) "/repo" Examples.tree
                 = Ret tt Examples.commit_ready) by compute_done.
  destruct (commit_init_creates_directories (H := Examples.host) "/repo" _ _ Hret)
    as (H1 & H2 & _ & H3).
  exact (conj H1 (conj H2 H3)).
Defined.

End MakedirsExamples.
(** ** Staged names and commit hashes *)

Section StagedNames.
Import Os Os.Notations.
Local Open Scope string_scope.
Context `{Platform}.
Variable repo_path : string.

(** X12. With an absolute working directory, every name
    [get_staged_files] returns is a relative path that is not empty and
    whose components are directory entry names (none is empty, ["."] or
    [".."]), so joined to the staging directory it stays below it; and
    listing changes nothing. *)
Theorem get_staged_files_relative (m m' : fs) (staged : list string) :
  Path.is_abs cwd = true -> wf_fs m ->
  Commit.get_staged_files repo_path m = Ret staged m' ->
  m' = m
  /\ Forall (fun staged_file =>
              Path.is_abs staged_file = false
              /\ Path.names staged_file <> []
              /\ Forall (fun c => Path.plain_name c = true) (Path.names staged_file)
              /\ Path.names (Path.join (Commit.staging_dir repo_path) staged_file)
                 = (Path.names (Commit.staging_dir repo_path) ++ Path.names staged_file)%list)
            staged.
Proof.
  intros Habs Hwf Hget. split; [by eapply get_staged_files_ret|].
  pose proof (get_staged_files_shape repo_path Habs m m' staged Hwf Hget) as Hshape.
  eapply Forall_impl; [exact Hshape|]. intros sf (ns & -> & Hns & Hne).
  rewrite (PathFacts.names_unsplit_plain ns Hns).
  split; [by apply PathFacts.is_abs_unsplit_plain|]. split; [done|]. split; [done|].
  by apply PathFacts.names_join_unsplit.
Qed.

End StagedNames.

Section HashFormat.
Local Open Scope Z_scope.

Lemma hex_digit_hex_char (x : Z) : 0 <= x < 16 -> Names.hex_char (Sha256.hex_digit x) = true.
Proof.
  intros Hx.
  assert (Hcases : x = 0 \/ x = 1 \/ x = 2 \/ x = 3 \/ x = 4 \/ x = 5 \/ x = 6 \/ x = 7
                   \/ x = 8 \/ x = 9 \/ x = 10 \/ x = 11 \/ x = 12 \/ x = 13 \/ x = 14
                   \/ x = 15) by lia.
  repeat (destruct Hcases as [->|Hcases]; [by vm_compute|]).
  subst x. by vm_compute.
Qed.

Lemma hex_of_hex_chars (n : nat) (x : Z) :
  forallb Names.hex_char (String.list_ascii_of_string (Sha256.hex_of n x)) = true.
Proof.
  induction n as [|n IH]; simpl; [done|].
  rewrite IH, hex_digit_hex_char; [done|apply land_nibble].
Qed.

(** X13. The hash of a commit is eight lowercase hexadecimal digits,
    whatever the message, the author and the clock reading. *)
Theorem commit_hash_eight_hex_digits (message author now : string) :
  String.length (Commit.commit_hash_of message author now) = 8%nat
  /\ forallb Names.hex_char
       (String.list_ascii_of_string (Commit.commit_hash_of message author now)) = true.
Proof.
  assert (Heq : exists w, Commit.commit_hash_of message author now = Sha256.hex_of 8 w).
  { unfold Commit.commit_hash_of, Sha256.hexdigest.
    destruct (Sha256.digest _) as [|w ws] eqn:E; [by apply digest_nonempty in E|].
    exists w. cbn [foldr]. change (String.append ?a ?b) with (a +:+ b).
    rewrite <- (hex_of_length 8 w) at 1. apply substring_app_length. }
  destruct Heq as [w ->].
  split; [apply hex_of_length|apply hex_of_hex_chars].
Qed.

End HashFormat.

Section StagedNamesExamples.
Import Os.
Local Open Scope string_scope.

Lemma get_staged_files_relative_witness :
  exists staged,
    Examples.get_staged_files Examples.staged_subdir = Ret staged Examples.staged_subdir
    /\ Forall (fun staged_file => Path.is_abs staged_file = false) staged.
Proof.
  exists ["a.txt"; "sub/f.txt"].
  assert (Habs : Path.is_abs (cwd (Platform := Examples.host)) = true) by reflexivity.
  assert (Hwf : wf_fs Examples.staged_subdir) by (unfold wf_fs; compute_done).
  assert (Hget : Examples.get_staged_files Examples.staged_subdir
                 = Ret ["a.txt"; "sub/f.txt"] Examples.staged_subdir) by compute_done.
  destruct (get_staged_files_relative (H := Examples.host) "/repo" _ _ _ Habs Hwf Hget)
    as [_ Hall].
  split; [exact Hget|].
  eapply Forall_impl; [exact Hall|]. by intros sf (? & _).
Defined.

End StagedNamesExamples.
(** ** Diffs of files that cannot be read as text *)

Section DiffReading.
Import Os Os.Notations.
Local Open Scope string_scope.
Context `{Platform}.

Lemma walk_to_errors (m : fs) (cur : path) (cs : list string) (e : exn) :
  walk_to m cur cs = inl e -> e = FileNotFoundError \/ e = NotADirectoryError.
Proof.
  revert cur. induction cs as [|c cs IH]; intros cur; simpl; [done|].
  destruct (node_at m cur) as [[d|]|]; [intros [= <-]; by right| |intros [= <-]; by left].
  destruct (String.eqb c "."); [apply IH|].
  destruct (String.eqb c ".."); apply IH.
Qed.

Lemma stat_errors (m : fs) (s : string) (e : exn) :
  stat m s = inl e -> e = FileNotFoundError \/ e = NotADirectoryError.
Proof.
  unfold stat, resolve. destruct (String.eqb s "").
  - intros [= <-]. by left.
  - destruct (walk_to m [] _) as [e'|p] eqn:Hw.
    + intros [= <-]. by eapply walk_to_errors.
    + destruct (node_at m p); [done|]. intros [= <-]. by left.
Qed.

Lemma read_file_lines_pure (file_path : string) (m : fs) :
  final_fs (Diff.read_file_lines file_path m) = m.
Proof.
  unfold Diff.read_file_lines, try_except, read_text, bind.
  pose proof (read_data_pure file_path m) as Hp.
  destruct (read_data file_path m) as [d m1|e m1]; simpl in *; subst.
  - by destruct (Text.valid_utf8 _).
  - by destruct e.
Qed.

(** A file that is not valid UTF-8 is read as a file without lines. *)
Lemma read_file_lines_undecodable (file_path : string) (m : fs) (d : data) :
  read_data file_path m = Ret d m -> Text.valid_utf8 (bytes_of d) = false ->
  Diff.read_file_lines file_path m = Ret [] m.
Proof.
  intros Hread Hbad. unfold Diff.read_file_lines, try_except, read_text, bind.
  by rewrite Hread, Hbad.
Qed.

Lemma read_file_lines_unreadable (file_path : string) (m : fs) (e : exn) :
  stat m file_path = inl e -> Diff.read_file_lines file_path m = Raise e m.
Proof.
  intros Hstat. unfold Diff.read_file_lines, try_except, read_text, bind, read_data.
  rewrite Hstat. by destruct (stat_errors _ _ _ Hstat) as [-> | ->].
Qed.

(** X14. Two files that are not valid UTF-8 are reported as not
    different, whatever their bytes: both are read as no lines, and the
    diff of no lines with no lines is empty. *)
Theorem undecodable_files_not_different (file1_path file2_path : string) (m : fs)
    (d1 d2 : data) :
  read_data file1_path m = Ret d1 m -> Text.valid_utf8 (bytes_of d1) = false ->
  read_data file2_path m = Ret d2 m -> Text.valid_utf8 (bytes_of d2) = false ->
  grouped_opcodes [] [] = [] ->
  Diff.generate_file_diff file1_path file2_path m
  = Ret (Diff.FileDiff [] 0 0 0 false) m.
Proof.
  intros Hr1 Hb1 Hr2 Hb2 Hgroups. unfold Diff.generate_file_diff, bind.
  rewrite (read_file_lines_undecodable _ _ _ Hr1 Hb1).
  rewrite (read_file_lines_undecodable _ _ _ Hr2 Hb2).
  unfold lift, Diff.unified_diff. by rewrite Hgroups.
Qed.

(** X15. A path that cannot be opened is not read as an empty file:
    [generate_file_diff] raises the error of the first path that fails,
    [FileNotFoundError] or [NotADirectoryError], and of a directory
    [IsADirectoryError]. *)
Theorem generate_file_diff_unreadable (file1_path file2_path : string) (m : fs) :
  (forall e, stat m file1_path = inl e ->
     Diff.generate_file_diff file1_path file2_path m = Raise e m
     /\ (e = FileNotFoundError \/ e = NotADirectoryError))
  /\ (forall k, stat m file1_path = inr (k, Dir) ->
        Diff.generate_file_diff file1_path file2_path m = Raise IsADirectoryError m)
  /\ (forall lines e, Diff.read_file_lines file1_path m = Ret lines m ->
        stat m file2_path = inl e ->
        Diff.generate_file_diff file1_path file2_path m = Raise e m).
Proof.
  split; [|split].
  - intros e Hstat. split; [|by eapply stat_errors].
    unfold Diff.generate_file_diff, bind.
    by rewrite (read_file_lines_unreadable _ _ _ Hstat).
  - intros k Hstat. unfold Diff.generate_file_diff, bind.
    unfold Diff.read_file_lines, try_except, read_text, bind, read_data.
    by rewrite Hstat.
  - intros lines e Hlines Hstat. unfold Diff.generate_file_diff, bind.
    by rewrite Hlines, (read_file_lines_unreadable _ _ _ Hstat).
Qed.

Lemma count_starting_plus_minus (diff : list string) :
  Diff.count_starting "+" diff + Diff.count_starting "-" diff <= length diff.
Proof.
  induction diff as [|line diff IH]; [done|].
  rewrite !count_starting_cons. simpl length.
  destruct line as [|c line]; [simpl; lia|].
  rewrite !startswith_one.
  destruct (Ascii.eqb "+" c) eqn:Hp; destruct (Ascii.eqb "-" c) eqn:Hm; try lia.
  apply Ascii.eqb_eq in Hp, Hm. congruence.
Qed.

(** X16. What [generate_file_diff] returns is consistent: the total is
    the number of diff lines, the files are reported different exactly
    when there is a diff line, added and removed lines together are no
    more than the total, and the file system is not changed. *)
Theorem generate_file_diff_consistent (file1_path file2_path : string)
    (m m' : fs) (r : Diff.file_diff) :
  Diff.generate_file_diff file1_path file2_path m = Ret r m' ->
  m' = m
  /\ Diff.total_lines_changed r = length (Diff.diff_lines r)
  /\ (Diff.is_different r = true <-> Diff.diff_lines r <> [])
  /\ Diff.added_lines r + Diff.removed_lines r <= Diff.total_lines_changed r.
Proof.
  unfold Diff.generate_file_diff, bind, lift, ret.
  pose proof (read_file_lines_pure file1_path m) as Hp1.
  destruct (Diff.read_file_lines file1_path m) as [l1 m1|]; [|done].
  simpl in Hp1. subst m1.
  pose proof (read_file_lines_pure file2_path m) as Hp2.
  destruct (Diff.read_file_lines file2_path m) as [l2 m2|]; [|done].
  simpl in Hp2. subst m2.
  destruct (Diff.unified_diff l1 l2 _ _) as [e|diff]; [done|].
  intros [= <- <-]. simpl. split; [done|]. split; [done|]. split.
  - destruct diff; simpl; [split; done|split; done].
  - apply count_starting_plus_minus.
Qed.

End DiffReading.

Section DiffReadingExamples.
Import Os.
Local Open Scope string_scope.

Lemma undecodable_files_not_different_witness :
  Diff.generate_file_diff (H := Examples.host) "/d/bin1" "/d/bin2" Examples.binary_tree
  = Ret (Diff.FileDiff [] 0 0 0 false) Examples.binary_tree.
Proof.
  apply (undecodable_files_not_different (H := Examples.host) "/d/bin1" "/d/bin2"
           Examples.binary_tree (Raw Examples.bytes1) (Raw Examples.bytes2));
    compute_done.
Defined.

Lemma generate_file_diff_consistent_witness :
  exists r,
    Diff.generate_file_diff (H := Examples.host) "/d/old" "/d/new" Examples.diff_tree
    = Ret r Examples.diff_tree
    /\ Diff.added_lines r + Diff.removed_lines r <= Diff.total_lines_changed r.
Proof.
  destruct (value_is_ret
              (Diff.generate_file_diff (H := Examples.host) "/d/old" "/d/new"
                 Examples.diff_tree)) as [r E]; [vm_compute; eauto|].
  destruct (generate_file_diff_consistent (H := Examples.host) _ _ _ _ _ E)
    as (Hm & _ & _ & Hle).
  exists r. split; [|exact Hle]. rewrite E. by rewrite Hm.
Defined.

End DiffReadingExamples.
(** ** Merging: validation, the reported changes, the conflict record *)

Section MergeMore.
Import Os Os.Notations.
Local Open Scope string_scope.
Context `{Platform}.
Variable DSCS_DIR : string.
Variable repository : Repository.t.
Variable compare : string -> string -> io (list diff_item).

Local Abbreviation conflicts_path := (Merge.conflicts_path DSCS_DIR repository).
Local Abbreviation branch_path := (Merge.branch_path DSCS_DIR repository).
Local Abbreviation merge := (Merge.merge_with DSCS_DIR repository compare).


Lemma apply_changes_ret (differences : list diff_item)
    (acc changes : list (string * option string)) (m m' : fs) :
  Merge.apply_changes repository differences acc m = Ret changes m' ->
  changes = (acc ++ Summary.changes_of differences)%list.
Proof.
  revert acc m. induction differences as [|d rest IH]; intros acc m.
  - simpl. intros [= <- _]. by rewrite List.app_nil_r.
  - cbn [Merge.apply_changes Summary.changes_of omap list_omap].
    unfold Summary.change_of at 1.
    destruct (bool_decide (d_type d = Some "add")).
    { unfold bind.
      destruct (Merge.full_path_of repository (d_path d) m) as [fp m1|]; [|done].
      destruct (makedirs _ true m1) as [[] m2|]; [|done].
      destruct (Merge.write_content fp (d_content d) m2) as [[] m3|]; [|done].
      intros Hrest. rewrite (IH _ _ Hrest). by rewrite <- List.app_assoc. }
    destruct (bool_decide (d_type d = Some "modify")).
    { unfold bind.
      destruct (Merge.full_path_of repository (d_path d) m) as [fp m1|]; [|done].
      destruct (Merge.write_content fp (d_source_content d) m1) as [[] m3|]; [|done].
      intros Hrest. rewrite (IH _ _ Hrest). by rewrite <- List.app_assoc. }
    destruct (bool_decide (d_type d = Some "delete")).
    { unfold bind, get_fs.
      destruct (Merge.full_path_of repository (d_path d) m) as [fp m1|]; [|done].
      destruct ((if exists_ m1 fp then remove fp else ret ()) m1) as [[] m3|]; [|done].
      intros Hrest. rewrite (IH _ _ Hrest). by rewrite <- List.app_assoc. }
    apply IH.
Qed.

(** X18. When [_apply_merge] returns, the result names the two branches
    and lists one change, type and path, for each difference of type add,
    modify or delete, in the order of the differences; differences of any
    other type are passed over. *)
Theorem apply_merge_reports_changes (source_branch target_branch : string)
    (differences : list diff_item) (m m' : fs) (r : merge_result) :
  Merge.apply_merge repository source_branch target_branch differences m = Ret r m' ->
  r = MergeResult source_branch target_branch (Summary.changes_of differences).
Proof.
  unfold Merge.apply_merge, bind, ret.
  destruct (Merge.apply_changes repository differences [] m) as [changes m1|] eqn:Ha;
    [|done].
  intros [= <- _]. by rewrite (apply_changes_ret _ _ _ _ _ Ha).
Qed.

(** X19. The conflicts that [_store_conflicts] has written are the list
    [list_conflicts] reads. *)
Theorem store_then_list_conflicts (conflicts : list conflict) (m m' : fs) :
  Merge.store_conflicts DSCS_DIR repository conflicts m = Ret tt m' ->
  Merge.list_conflicts DSCS_DIR repository m' = Ret conflicts m'.
Proof.
  unfold Merge.store_conflicts, json_dump.
  intros (k & Hk & Hd & ->)%write_data_ret. by apply list_conflicts_insert.
Qed.

(** X20. Without a conflict record, [list_conflicts] answers the empty
    list and [resolve_conflicts] returns at once, whatever resolutions it
    is given: nothing is written. *)
Theorem no_conflict_record (resolutions : list (string * string)) (m : fs) :
  stat m conflicts_path = inl FileNotFoundError ->
  Merge.list_conflicts DSCS_DIR repository m = Ret [] m
  /\ Merge.resolve_conflicts DSCS_DIR repository resolutions m = Ret tt m.
Proof.
  intros Hstat.
  assert (Hload : json_load conflicts_path m = Raise FileNotFoundError m).
  { unfold json_load, bind, read_data. by rewrite Hstat. }
  split.
  - unfold Merge.list_conflicts, try_except, bind. by rewrite Hload.
  - unfold Merge.resolve_conflicts, bind, try_except. by rewrite Hload.
Qed.

End MergeMore.

Section MergeMoreExamples.
Import Os.
Local Open Scope string_scope.

Lemma apply_merge_reports_changes_witness :
  value (Examples.apply_merge "feat" "main" Examples.clean_differences Examples.merge_ready)
  = Some (MergeResult "feat" "main" [("add", Some "new.txt")]).
Proof.
  assert (Hv : is_Some (value (Examples.apply_merge "feat" "main" Examples.clean_differences
                                 Examples.merge_ready))) by compute_done.
  destruct (value_is_ret _ Hv) as [r Hret].
  pose proof (apply_merge_reports_changes (H := Examples.host) Examples.repo
                "feat" "main" Examples.clean_differences _ _ r Hret) as Hr.
  rewrite Hret, Hr. reflexivity.
Defined.

Lemma store_then_list_conflicts_witness :
  Examples.list_conflicts Examples.conflicts_pending
  = Ret Examples.two_conflicts Examples.conflicts_pending.
Proof.
  apply (store_then_list_conflicts (H := Examples.host) Examples.DSCS_DIR Examples.repo
           Examples.two_conflicts Examples.merge_ready).
  compute_done.
Defined.

Lemma no_conflict_record_witness :
  Examples.list_conflicts Examples.merge_ready = Ret [] Examples.merge_ready
  /\ Examples.resolve_conflicts [("a.txt", "v4")] Examples.merge_ready
     = Ret tt Examples.merge_ready.
Proof.
  apply (no_conflict_record (H := Examples.host) Examples.DSCS_DIR Examples.repo).
  compute_done.
Defined.

End MergeMoreExamples.
(** ** Ignore patterns as loaded *)

Section IgnorePatterns.
Import Os Os.Notations.
Local Open Scope string_scope.
Context `{Platform}.
Variable repository : Repository.t.

(** X21. The patterns an [IgnoreManager] loads: none when there is no
    ignore file; otherwise none of them is empty and none has white space
    at either end ([lstrip] and [rstrip] leave it as it is, white space
    being that of [str.isspace]), and loading changes nothing. *)
Theorem load_ignore_patterns_clean (m : fs) :
  (exists_ m (Ignore.ignore_file_path repository) = false ->
     Ignore.load_ignore_patterns repository m = Ret [] m)
  /\ (forall patterns m',
        Ignore.load_ignore_patterns repository m = Ret patterns m' ->
        m' = m
        /\ Forall (fun pattern =>
                     pattern <> ""
                     /\ Path.lstrip pattern = pattern /\ Path.rstrip pattern = pattern)
                  patterns).
Proof.
  split.
  - intros Hex. unfold Ignore.load_ignore_patterns, bind, get_fs. by rewrite Hex.
  - intros patterns m' Hload.
    pose proof (load_ignore_patterns_pure repository m) as Hp.
    rewrite Hload in Hp. simpl in Hp. split; [done|].
    revert Hload. unfold Ignore.load_ignore_patterns, bind, get_fs.
    destruct (exists_ m _); [|intros [= <- _]; apply Forall_nil_2].
    destruct (read_text _ m) as [text m1|]; [|done].
    intros [= <- _]. apply Forall_forall. intros p Hp'.
    apply list_elem_of_In, in_map_iff in Hp' as (line & <- & Hin).
    apply List.filter_In in Hin as [_ [Hne _]%andb_true_iff].
    split; [by apply PathFacts.nonempty_true|apply strip_clean].
Qed.

End IgnorePatterns.

(** The comment test looks at the line as it stands in the file: a
    comment that is indented is loaded as a pattern. *)
Example indented_comment_is_a_pattern :
  Os.value (Ignore.load_ignore_patterns (H := Examples.host) Examples.repo
              (Examples.after
                 (Os.write_data (H := Examples.host) "/repo/.dscsignore"
                    (Os.Raw ("# build output" +:+ Diff.nl +:+ "  # logs" +:+ Diff.nl
                             +:+ "*.log" +:+ Diff.nl)))
                 Examples.tree))
  = Some ["# logs"; "*.log"]%string.
Proof. compute_done. Qed.

(** White space beyond ASCII is stripped too: a no-break space (the bytes
    [C2 A0]) after a pattern is not part of it, and a line that holds
    nothing but an em space (the bytes [E2 80 83]) is no pattern. *)
Example no_break_space_is_stripped :
  let nbsp := String (Ascii.ascii_of_nat 0xC2) (String (Ascii.ascii_of_nat 0xA0) "") in
  let emsp := String (Ascii.ascii_of_nat 0xE2) (String (Ascii.ascii_of_nat 0x80)
                (String (Ascii.ascii_of_nat 0x83) "")) in
  Os.value (Ignore.load_ignore_patterns (H := Examples.host) Examples.repo
              (Examples.after
                 (Os.write_data (H := Examples.host) "/repo/.dscsignore"
                    (Os.Raw ("*.log" +:+ nbsp +:+ Diff.nl +:+ emsp +:+ Diff.nl
                             +:+ nbsp +:+ " build/" +:+ Diff.nl)%string))
                 Examples.tree))
  = Some ["*.log"; "build/"]%string.
Proof. compute_done. Qed.
